(** * Exchange adapter engine: pricing, leverage, dry-run and funding rules

    A shallow embedding of [freqtrade/exchange/exchange.py] (class
    [Exchange]) together with the properties its specification states.

    Modelling conventions.
    - Python [float] values are exact rationals ([Q]); equalities between
      computed prices are therefore stated with [==] ([Qeq]).  Rounding
      error, [nan] and [inf] arithmetic of IEEE doubles are outside the
      model; [float("inf")] is the explicit value [PInf] where the code
      returns it.
    - Python [int] values are [Z].
    - A raised exception is the [Raise] case of [result]; the exception
      classes are those imported by the module, plus the builtin ones the
      modelled statements can raise.
    - The attributes of [self] the modelled methods read are the fields of
      the record [Exchange]; the vendor client ([self._api]) is the record
      [Ccxt]; helpers imported from [freqtrade.exchange.exchange_utils] and
      [freqtrade.util] are section variables.
    - The venue is asked afresh by every call: where a function asks more
      than once, its venue is indexed by the number of the call. *)

From Stdlib Require Import ZArith QArith Qminmax Qabs Qround Lqa Lia.
From Stdlib Require Import String List Bool.
From stdpp Require Import gmap strings.
Import ListNotations.

Open Scope Q_scope.

(** ** Python values and exceptions *)

Module Py.

Inductive exn : Type :=
| ConfigurationError
| InvalidOrderException
| OperationalException
| ExchangeError
| DDosProtection
| TemporaryError
| KeyError
| ValueError
| IndexError
| ZeroDivisionError
| UnboundLocalError
| OverflowError.

Inductive result (A : Type) : Type :=
| Ok (a : A)
| Raise (e : exn).

Arguments Ok {A} a.
Arguments Raise {A} e.

#[export] Instance result_ret : MRet result := fun A a => Ok a.

#[export] Instance result_bind : MBind result :=
  fun A B f m => match m with Ok a => f a | Raise e => Raise e end.

#[export] Instance exn_eq_dec : EqDecision exn.
Proof. solve_decision. Defined.

Definition is_ok {A} (r : result A) : bool :=
  match r with Ok _ => true | Raise _ => false end.

Definition raises {A} (r : result A) (e : exn) : Prop := r = Raise e.

(** [d[k]] on a dict: [KeyError] when the key is missing. *)
Definition getitem {V} (d : gmap string V) (k : string) : result V :=
  match d !! k with Some v => Ok v | None => Raise KeyError end.

(** Comparisons of floats, as booleans. *)
Definition ltb (a b : Q) : bool := negb (Qle_bool b a).
Definition leb (a b : Q) : bool := Qle_bool a b.
Definition eqb (a b : Q) : bool := Qeq_bool a b.

(** [a / b] on floats. *)
Definition truediv (a b : Q) : result Q :=
  if eqb b 0 then Raise ZeroDivisionError else Ok (a / b).

(** [a % b] on ints. *)
Definition mod_ (a b : Z) : result Z :=
  if (b =? 0)%Z then Raise ZeroDivisionError else Ok (a mod b)%Z.

(** [int(x)]: truncation toward zero. *)
Definition int (x : Q) : Z := Z.quot (Qnum x) (Zpos (Qden x)).

(** Builtin [max(a, b)] and [min(a, b)]: the first argument wins ties. *)
Definition max_ (a b : Q) : Q := if ltb a b then b else a.
Definition min_ (a b : Q) : Q := if ltb b a then b else a.

(** Builtin [max(l)] and [min(l)] on a non-empty list. *)
Definition max_list (x : Q) (l : list Q) : Q := fold_left max_ l x.
Definition min_list (x : Q) (l : list Q) : Q := fold_left min_ l x.

(** Builtin [sum(l)]: starts from [0] and adds from the left. *)
Definition sum (l : list Q) : Q := fold_left Qplus l 0.

(** Truthiness of a float ([0.0] is falsy). *)
Definition truthy (x : Q) : bool := negb (eqb x 0).

(** [x or y] on an optional float. *)
Definition or_ (x : option Q) (y : Q) : Q :=
  match x with
  | Some v => if truthy v then v else y
  | None => y
  end.

End Py.

Import Py.

(** ** The exchange object *)

Module Exchange.

Inductive TradingMode := SPOT | MARGIN | FUTURES.
Inductive MarginMode := CROSS | ISOLATED | NONE.
Inductive CandleType :=
| CT_SPOT | CT_FUTURES | CT_MARK | CT_INDEX | CT_PREMIUMINDEX | CT_FUNDING_RATE.
Inductive PrecisionMode := DECIMAL_PLACES | SIGNIFICANT_DIGITS | TICK_SIZE.
Inductive MakerTaker := maker | taker.
Inductive RoundingMode := ROUND | ROUND_UP | ROUND_DOWN.

#[export] Instance TradingMode_eq_dec : EqDecision TradingMode.
Proof. solve_decision. Defined.
#[export] Instance MarginMode_eq_dec : EqDecision MarginMode.
Proof. solve_decision. Defined.
#[export] Instance CandleType_eq_dec : EqDecision CandleType.
Proof. solve_decision. Defined.
#[export] Instance PrecisionMode_eq_dec : EqDecision PrecisionMode.
Proof. solve_decision. Defined.

(** The keys of [_ft_has] the modelled methods read. *)
Record FtHas := {
  ohlcv_has_history : bool;
  ft_ohlcv_candle_limit : option Z;
  funding_fee_candle_limit : option Z;
  ohlcv_candle_limit_per_timeframe : gmap string Z;
  trades_pagination : string;
  stop_price_prop : string;
  ccxt_futures_name : string;
  exchange_has_overrides : gmap string bool;
}.

(** One entry of [market["limits"]]: [{"min": ..., "max": ...}]. *)
Record MinMax := { lim_min : option Q; lim_max : option Q }.

Record Market := {
  base : option string;
  quote : option string;
  market_type : string;
  spot : bool;
  margin : bool;
  swap : bool;
  future : bool;
  linear : bool;
  inverse : bool;
  contractSize : option Q;
  precision_amount : option Q;
  precision_price : option Q;
  limits_amount : MinMax;
  limits_cost : MinMax;
  limits_leverage : MinMax;
  taker_fee : Q;
}.

(** A parsed leverage tier ([parse_leverage_tier]). *)
Record LeverageTier := {
  minNotional : Q;
  maxNotional : Q;
  maintenanceMarginRate : Q;
  maxLeverage : Q;
  maintAmt : option Q;
}.

Record OrderBook := { bids : list (Q * Q); asks : list (Q * Q) }.

Record Position := { liquidationPrice : option Q }.

(** The vendor client [self._api] / [self._api_async]. *)
Record Ccxt := {
  has : gmap string bool;
  features_spot : gmap string (gmap string (option Z));
  features_swap_linear : gmap string (gmap string (option Z));
  fetch_l2_order_book : string -> Z -> result OrderBook;
  api_fetch_positions : list string -> result (list Position);
  calculate_fee_rate : string -> MakerTaker -> result Q;
}.

Record Exchange := {
  api : Ccxt;
  ft_has : FtHas;
  trading_mode : TradingMode;
  margin_mode : MarginMode;
  liquidation_buffer : Q;
  precisionMode : PrecisionMode;
  markets : gmap string Market;
  leverage_tiers : gmap string (list LeverageTier);
  _trades_pagination : string;
  (* entries of [self._config] *)
  dry_run : bool;
  config_fee : option Q;
  amount_reserve_percent : option Q;
  runmode_in_optimize_modes : bool;
  candle_type_def : CandleType;
}.

(** [exchange_has]: an override in [_ft_has] wins over the client's [has]. *)
Definition exchange_has (self : Exchange) (endpoint : string) : bool :=
  match exchange_has_overrides (ft_has self) !! endpoint with
  | Some b => b
  | None =>
      match has (api self) !! endpoint with
      | Some b => b
      | None => false
      end
  end.

(** [features(market_type, endpoint, attribute, default)]; the value found
    may be non-numeric ([None] in the inner option). *)
Definition features (self : Exchange) (market_type_is_spot : bool)
    (endpoint attribute : string) (default : option Z) : option Z :=
  let feat :=
    if market_type_is_spot then features_spot (api self)
    else features_swap_linear (api self) in
  match feat !! endpoint with
  | Some d => match d !! attribute with Some v => v | None => default end
  | None => default
  end.

Definition ohlcv_candle_limit (self : Exchange) (timeframe : string)
    (candle_type : CandleType) (since_ms : option Z) : Z :=
  let ccxt_val :=
    features self (bool_decide (candle_type = CT_SPOT)) "fetchOHLCV" "limit"
      (Some 500%Z) in
  let ccxt_val := match ccxt_val with Some v => v | None => 500%Z end in
  let fallback_val :=
    match ft_ohlcv_candle_limit (ft_has self) with
    | Some v => v
    | None => ccxt_val
    end in
  let fallback_val :=
    if bool_decide (candle_type = CT_FUNDING_RATE) then
      match funding_fee_candle_limit (ft_has self) with
      | Some v => v
      | None => fallback_val
      end
    else fallback_val in
  match ohlcv_candle_limit_per_timeframe (ft_has self) !! timeframe with
  | Some v => v
  | None => fallback_val
  end.

Section StartupValidation.

(** [date_minus_candles] of [freqtrade.exchange.exchange_utils] and [dt_ts]
    of [freqtrade.util.datetime_helpers] are not part of the module; each
    may raise. *)
Variable Datetime : Type.
Variable date_minus_candles : string -> Z -> result Datetime.
Variable dt_ts : Datetime -> result Z.

(** [dt_ts(date_minus_candles(timeframe, startup_candles)) if timeframe
    else None], the third argument of the call of [ohlcv_candle_limit]. *)
Definition startup_since_ms (startup_candles : Z) (timeframe : string)
    : result (option Z) :=
  if negb (String.eqb timeframe "") then
    date ← date_minus_candles timeframe startup_candles;
    since_ms ← dt_ts date;
    Ok (Some since_ms)
  else Ok None.

Definition validate_required_startup_candles (self : Exchange)
    (startup_candles : Z) (timeframe : string) : result Z :=
  since_ms ← startup_since_ms startup_candles timeframe;
  let candle_limit :=
    ohlcv_candle_limit self timeframe (candle_type_def self) since_ms in
  (* Require one more candle - to account for the still open candle. *)
  let candle_count := (startup_candles + 1)%Z in
  (* Allow 5 calls to the exchange per pair *)
  q ← truediv (inject_Z candle_count) (inject_Z candle_limit);
  r ← mod_ candle_count candle_limit;
  let required_candle_call_count :=
    int (q + (if (r =? 0)%Z then 0 else 1)) in
  if ohlcv_has_history (ft_has self) then
    if (required_candle_call_count >? 5)%Z then Raise ConfigurationError
    else Ok required_candle_call_count
  else if (required_candle_call_count >? 1)%Z then Raise ConfigurationError
  else Ok required_candle_call_count.

End StartupValidation.

(** *** Stop-limit rate *)

Record OrderTypes := {
  stoploss : option string;
  stoploss_on_exchange_limit_ratio : option Q;
}.

(** The limit rate derived from the stop price (the two assignments to
    [limit_rate] in [_get_stop_limit_rate]). *)
Definition stop_limit_rate (stop_price limit_price_pct : Q) (side : string)
    : Q :=
  if String.eqb side "sell" then stop_price * limit_price_pct
  else stop_price * (2 - limit_price_pct).

Definition _get_stop_limit_rate (stop_price : Q) (order_types : OrderTypes)
    (side : string) : result Q :=
  (* Limit price threshold: As limit price should always be below stop-price *)
  let limit_price_pct :=
    default (99 # 100) (stoploss_on_exchange_limit_ratio order_types) in
  let limit_rate := stop_limit_rate stop_price limit_price_pct side in
  let bad_stop_price :=
    if String.eqb side "sell" then ltb stop_price limit_rate
    else ltb limit_rate stop_price in
  (* Ensure rate is less than stop price *)
  if bad_stop_price then Raise InvalidOrderException else Ok limit_rate.

(** *** Leverage tiers *)

(** The [for tier in pair_tiers] loop of [get_max_leverage] and the
    statements after it.  [prior_max_lev] and [max_stake] are the loop's
    variables; [max_stake] is unbound before the first iteration. *)
Fixpoint get_max_leverage_loop (prior_max_lev max_stake : option Q)
    (pair_tiers : list LeverageTier) (stake_amount : Q) : result Q :=
  match pair_tiers with
  | tier :: rest =>
      min_stake ←
        truediv (minNotional tier) (or_ prior_max_lev (maxLeverage tier));
      max_stake ← truediv (maxNotional tier) (maxLeverage tier);
      (* Adjust notional by leverage to do a proper comparison *)
      if leb min_stake stake_amount && leb stake_amount max_stake then
        Ok (maxLeverage tier)
      else
        get_max_leverage_loop (Some (maxLeverage tier)) (Some max_stake)
          rest stake_amount
  | [] =>
      match max_stake with
      | None => Raise UnboundLocalError
      | Some max_stake =>
          if ltb max_stake stake_amount then
            (* If stake is > than max tradeable amount *)
            Raise InvalidOrderException
          else Raise OperationalException
      end
  end.

Definition get_max_leverage (self : Exchange) (pair : string)
    (stake_amount : option Q) : result Q :=
  match trading_mode self with
  | SPOT => Ok 1
  | FUTURES =>
      match stake_amount with
      | None => Raise OperationalException
      | Some stake_amount =>
          match leverage_tiers self !! pair with
          | None => Ok 1
          | Some pair_tiers =>
              if eqb stake_amount 0 then
                match pair_tiers with
                | tier :: _ => Ok (maxLeverage tier)
                | [] => Raise IndexError
                end
              else get_max_leverage_loop None None pair_tiers stake_amount
          end
      end
  | MARGIN =>
      market ← getitem (markets self) pair;
      match lim_max (limits_leverage market) with
      | Some l => Ok l
      | None => Ok 1
      end
  end.

Definition _get_max_notional_from_tiers (self : Exchange) (pair : string)
    (leverage : Q) : option Q :=
  if bool_decide (trading_mode self <> FUTURES) then None
  else
    match leverage_tiers self !! pair with
    | None => None
    | Some pair_tiers =>
        match
          List.find (fun tier => leb leverage (maxLeverage tier))
            (rev pair_tiers)
        with
        | Some tier => Some (maxNotional tier)
        | None => None
        end
    end.

Definition get_maintenance_ratio_and_amt (self : Exchange) (pair : string)
    (notional_value : Q) : result (Q * option Q) :=
  if runmode_in_optimize_modes self
     || exchange_has self "fetchLeverageTiers"
     || exchange_has self "fetchMarketLeverageTiers"
  then
    match leverage_tiers self !! pair with
    | None => Raise InvalidOrderException
    | Some pair_tiers =>
        match
          List.find (fun tier => leb (minNotional tier) notional_value)
            (rev pair_tiers)
        with
        | Some tier => Ok (maintenanceMarginRate tier, maintAmt tier)
        | None => Raise ExchangeError
        end
    end
  else Raise ExchangeError.

(** *** Liquidation price *)

Definition fetch_positions (self : Exchange) (pair : string)
    : result (list Position) :=
  if dry_run self || bool_decide (trading_mode self <> FUTURES) then Ok []
  else api_fetch_positions (api self) [pair].

Definition dry_run_liquidation_price (self : Exchange) (pair : string)
    (open_rate : Q) (is_short : bool) (amount stake_amount leverage
    wallet_balance : Q) : result (option Q) :=
  market ← getitem (markets self) pair;
  let taker_fee_rate := taker_fee market in
  mm ← get_maintenance_ratio_and_amt self pair stake_amount;
  let mm_ratio := fst mm in
  if bool_decide (trading_mode self = FUTURES)
     && bool_decide (margin_mode self = ISOLATED)
  then
    if inverse market then Raise OperationalException
    else
      value ← truediv wallet_balance amount;
      let mm_ratio_taker := mm_ratio + taker_fee_rate in
      if is_short then
        r ← truediv (open_rate + value) (1 + mm_ratio_taker); Ok (Some r)
      else
        r ← truediv (open_rate - value) (1 - mm_ratio_taker); Ok (Some r)
  else Raise OperationalException.

Definition get_liquidation_price (self : Exchange) (pair : string)
    (open_rate : Q) (is_short : bool) (amount stake_amount leverage
    wallet_balance : Q) : result (option Q) :=
  if bool_decide (trading_mode self = SPOT) then Ok None
  else if bool_decide (trading_mode self <> FUTURES) then
    Raise OperationalException
  else
    liquidation_price ←
      (if dry_run self || negb (exchange_has self "fetchPositions") then
         dry_run_liquidation_price self pair open_rate is_short amount
           stake_amount leverage wallet_balance
       else
         positions ← fetch_positions self pair;
         match positions with
         | pos :: _ => Ok (liquidationPrice pos)
         | [] => Ok None
         end);
    match liquidation_price with
    | Some liquidation_price =>
        let buffer_amount :=
          Qabs (open_rate - liquidation_price) * liquidation_buffer self in
        let liquidation_price_buffer :=
          if is_short then liquidation_price - buffer_amount
          else liquidation_price + buffer_amount in
        Ok (Some (max_ liquidation_price_buffer 0))
    | None => Ok None
    end.

(** *** Contract size and precision *)

Definition get_contract_size (self : Exchange) (pair : string) : option Q :=
  if bool_decide (trading_mode self = FUTURES) then
    match markets self !! pair with
    | None => None
    | Some market =>
        match contractSize market with
        | Some cs => Some cs
        | None => Some 1
        end
    end
  else Some 1.

Definition get_precision_amount (self : Exchange) (pair : string)
    : option Q :=
  match markets self !! pair with
  | Some market => precision_amount market
  | None => None
  end.

Definition get_precision_price (self : Exchange) (pair : string)
    : option Q :=
  match markets self !! pair with
  | Some market => precision_price market
  | None => None
  end.

Definition precision_mode_price (self : Exchange) : PrecisionMode :=
  precisionMode self.

Definition get_pair_quote_currency (self : Exchange) (pair : string)
    : string :=
  match markets self !! pair with
  | Some market => default EmptyString (quote market)
  | None => EmptyString
  end.

Definition market_is_future (self : Exchange) (market : Market) : bool :=
  (if String.eqb (ccxt_futures_name (ft_has self)) "swap" then swap market
   else if String.eqb (ccxt_futures_name (ft_has self)) "future" then
     future market
   else false)
  && String.eqb (market_type market) "swap"
  && linear market.

Definition market_is_spot (market : Market) : bool := spot market.

Definition market_is_margin (market : Market) : bool := margin market.

(** [1e-11], the smallest tick size a tradable market may have. *)
Definition min_tick_size : Q := 1 # 100000000000.

Definition market_is_tradable (self : Exchange) (market : Market) : bool :=
  bool_decide (quote market <> None)
  && bool_decide (base market <> None)
  && (bool_decide (precisionMode self <> TICK_SIZE)
      || match precision_price market with
         | None => true
         | Some p => ltb min_tick_size p
         end)
  && ((bool_decide (trading_mode self = SPOT) && market_is_spot market)
      || (bool_decide (trading_mode self = MARGIN) && market_is_margin market)
      || (bool_decide (trading_mode self = FUTURES)
          && market_is_future self market)).

(** *** Fees *)

Record Fee := { fee_currency : string; fee_cost : Q; fee_rate : Q }.

Definition get_fee (self : Exchange) (symbol : string)
    (taker_or_maker : MakerTaker) : result Q :=
  match (if dry_run self then config_fee self else None) with
  | Some fee => Ok fee
  | None => calculate_fee_rate (api self) symbol taker_or_maker
  end.

(** *** Funding fees *)

(** A row of an OHLCV dataframe and a row of the combined dataframe; of
    the funding side only [open_fund] is kept, no modelled statement
    reads the other [_fund] columns. *)
Record Candle := {
  date : Z; open : Q; high : Q; low : Q; close : Q; volume : Q;
}.

Record FundingMarkRow := {
  row_date : Z;
  open_mark : Q; high_mark : Q; low_mark : Q; close_mark : Q;
  volume_mark : Q;
  open_fund : Q;
}.

Definition with_fund (m : Candle) (open_fund : Q) : FundingMarkRow :=
  {| row_date := date m;
     open_mark := open m; high_mark := high m; low_mark := low m;
     close_mark := close m; volume_mark := volume m;
     open_fund := open_fund |}.

(** [left.merge(right, on="date", how="inner")]: the rows of [left] in
    order, each paired with every row of [right] of the same date. *)
Definition merge_inner (mark_rates funding_rates : list Candle)
    : list FundingMarkRow :=
  flat_map
    (fun m =>
       map (fun f => with_fund m (open f))
         (List.filter (fun f => (date f =? date m)%Z) funding_rates))
    mark_rates.

(** [left.merge(right, on="date", how="left")] followed by
    [fillna(fill)] on [open_fund]: a row of [left] without partner is
    kept, its missing [open_fund] replaced by [fill]. *)
Definition merge_left_fillna (mark_rates funding_rates : list Candle)
    (fill : Q) : list FundingMarkRow :=
  flat_map
    (fun m =>
       match List.filter (fun f => (date f =? date m)%Z) funding_rates with
       | [] => [with_fund m fill]
       | fs => map (fun f => with_fund m (open f)) fs
       end)
    mark_rates.

Definition combine_funding_and_mark (funding_rates mark_rates : list Candle)
    (futures_funding_rate : option Q) : list FundingMarkRow :=
  match futures_funding_rate with
  | None => merge_inner mark_rates funding_rates
  | Some futures_funding_rate =>
      if (length funding_rates =? 0)%nat then
        (* No funding rate candles - full fillup with fallback variable *)
        map (fun m => with_fund m futures_funding_rate) mark_rates
      else
        (* Fill up missing funding_rate candles with fallback value *)
        merge_left_fillna mark_rates funding_rates futures_funding_rate
  end.

Definition calculate_funding_fees (df : list FundingMarkRow) (amount : Q)
    (is_short : bool) (open_date close_date : Z) : Q :=
  let fees :=
    match df with
    | [] => 0
    | _ =>
        let df1 :=
          List.filter
            (fun r =>
               (open_date <=? row_date r)%Z && (row_date r <=? close_date)%Z)
            df in
        sum (map (fun r => open_fund r * open_mark r * amount) df1)
    end in
  (* Negate fees for longs as funding_fees expects it this way. *)
  if is_short then fees else - fees.

(** *** Public trade history *)

Section TradeHistory.

(** A page of public trades; the two paginated pulls are network loops
    whose outcome is left open. *)
Variable Trades : Type.
Variable _async_get_trade_history_time :
  string -> Z -> Z -> result (string * Trades).
Variable _async_get_trade_history_id :
  string -> Z -> Z -> option string -> result (string * Trades).
(** [ccxt.Exchange.milliseconds()] *)
Variable milliseconds : Z.

Definition _async_get_trade_history (self : Exchange) (pair : string)
    (since : Z) (until : option Z) (from_id : option string)
    : result (string * Trades) :=
  let until := default milliseconds until in
  if String.eqb (_trades_pagination self) "time" then
    _async_get_trade_history_time pair since until
  else if String.eqb (_trades_pagination self) "id" then
    _async_get_trade_history_id pair since until from_id
  else Raise OperationalException.

End TradeHistory.

(** *** Stake-amount limits and the dry-run simulator

    The four helpers below live in [freqtrade.exchange.exchange_utils];
    the methods of [Exchange] only forward to them. *)

Inductive ExtFloat := Fin (x : Q) | PInf.

Record CcxtOrder := {
  id_ : string;
  symbol : string;
  price : Q;
  average : Q;
  amount : Q;
  cost : Q;
  order_type : string;
  side : string;
  filled : Q;
  remaining : Q;
  timestamp : Z;
  status : string;
  fee : option Fee;
  info_stopPrice : option Q;
  stop_price_field : option (string * Q);
  ft_order_type : option string;
}.

(** [DEFAULT_AMOUNT_RESERVE_PERCENT] of [freqtrade.constants]: the
    "5% default" of the comment in [_get_stake_amount_limit]. *)
Definition DEFAULT_AMOUNT_RESERVE_PERCENT : Q := 5 # 100.

Section ExchangeUtils.

Variable contracts_to_amount : Q -> option Q -> Q.
Variable amount_to_contracts : Q -> option Q -> Q.
Variable amount_to_precision : Q -> option Q -> PrecisionMode -> Q.
Variable price_to_precision :
  Q -> option Q -> PrecisionMode -> RoundingMode -> Q.

Definition _amount_to_contracts (self : Exchange) (pair : string)
    (amount : Q) : Q :=
  amount_to_contracts amount (get_contract_size self pair).

Definition _contracts_to_amount (self : Exchange) (pair : string)
    (num_contracts : Q) : Q :=
  contracts_to_amount num_contracts (get_contract_size self pair).

Definition Exchange_amount_to_precision (self : Exchange) (pair : string)
    (amount : Q) : Q :=
  amount_to_precision amount (get_precision_amount self pair)
    (precisionMode self).

Definition Exchange_price_to_precision (self : Exchange) (pair : string)
    (price : Q) (rounding_mode : RoundingMode) : Q :=
  price_to_precision price (get_precision_price self pair)
    (precision_mode_price self) rounding_mode.

Definition _get_stake_amount_considering_leverage (stake_amount leverage : Q)
    : result Q :=
  truediv stake_amount leverage.

(** The list [stake_limits] as [_get_stake_amount_limit] has built it when
    it reaches [if not stake_limits]. *)
Definition stake_limits (self : Exchange) (market : Market) (pair : string)
    (price stoploss : Q) (isMin : bool) (leverage : Q) : result (list Q) :=
  let limits_cost := limits_cost market in
  let limits_amount := limits_amount market in
  reserves ←
    (if isMin then
       (* reserve some percent defined in config (5% default) + stoploss *)
       let margin_reserve :=
         1 + default DEFAULT_AMOUNT_RESERVE_PERCENT
               (amount_reserve_percent self) in
       stoploss_reserve ←
         (if negb (eqb (Qabs stoploss) 1) then
            truediv margin_reserve (1 - Qabs stoploss)
          else Ok (15 # 10));
       (* it should not be more than 50% *)
       let stoploss_reserve := max_ (min_ stoploss_reserve (15 # 10)) 1 in
       Ok (margin_reserve, stoploss_reserve, [])
     else
       Ok (1, 1,
           match _get_max_notional_from_tiers self pair leverage with
           | Some max_from_tiers =>
               if truthy max_from_tiers then [max_from_tiers] else []
           | None => []
           end));
  let margin_reserve := fst (fst reserves) in
  let stoploss_reserve := snd (fst reserves) in
  let stake_limits := snd reserves in
  let limit_of (l : MinMax) := if isMin then lim_min l else lim_max l in
  let stake_limits :=
    match limit_of limits_cost with
    | Some c =>
        stake_limits ++ [_contracts_to_amount self pair c * stoploss_reserve]
    | None => stake_limits
    end in
  let stake_limits :=
    match limit_of limits_amount with
    | Some a =>
        stake_limits
          ++ [_contracts_to_amount self pair a * price * margin_reserve]
    | None => stake_limits
    end in
  Ok stake_limits.

Definition _get_stake_amount_limit (self : Exchange) (pair : string)
    (price stoploss : Q) (isMin : bool) (leverage : Q)
    : result (option ExtFloat) :=
  market ←
    match markets self !! pair with
    | Some market => Ok market
    | None => Raise ValueError
    end;
  stake_limits ← stake_limits self market pair price stoploss isMin leverage;
  match stake_limits with
  | [] => Ok (if isMin then None else Some PInf)
  | x :: l =>
      (* The value returned should satisfy both limits: for amount (base
         currency) and for cost (quote, stake currency), so max() is used
         here. *)
      r ←
        _get_stake_amount_considering_leverage
          (if isMin then max_list x l else min_list x l)
          (or_ (Some leverage) 1);
      Ok (Some (Fin r))
  end.

Definition get_min_pair_stake_amount (self : Exchange) (pair : string)
    (price stoploss leverage : Q) : result (option ExtFloat) :=
  _get_stake_amount_limit self pair price stoploss true leverage.

Definition get_max_pair_stake_amount (self : Exchange) (pair : string)
    (price leverage : Q) : result ExtFloat :=
  max_stake_amount ← _get_stake_amount_limit self pair price 0 false leverage;
  match max_stake_amount with
  | None => Raise OperationalException
  | Some max_stake_amount => Ok max_stake_amount
  end.

(** The [for book_entry in orderbook[ob_type]] loop of
    [get_dry_market_fill_price] with its [else] clause; the value is
    [filled_value] after the loop. *)
Fixpoint fill_loop (book : list (Q * Q))
    (remaining_amount filled_value book_entry_price : Q) : Q :=
  match book with
  | book_entry :: rest =>
      let book_entry_price := fst book_entry in
      let book_entry_coin_volume := snd book_entry in
      if ltb 0 remaining_amount then
        if ltb remaining_amount book_entry_coin_volume then
          (* Orderbook at this slot bigger than remaining amount *)
          filled_value + remaining_amount * book_entry_price
        else
          fill_loop rest (remaining_amount - book_entry_coin_volume)
            (filled_value + book_entry_coin_volume * book_entry_price)
            book_entry_price
      else filled_value
  | [] =>
      (* If remaining_amount wasn't consumed completely *)
      filled_value + remaining_amount * book_entry_price
  end.

Definition Exchange_fetch_l2_order_book (self : Exchange) (pair : string)
    (limit : Z) : result OrderBook :=
  fetch_l2_order_book (api self) pair limit.

Definition get_dry_market_fill_price (self : Exchange) (pair side : string)
    (amount rate : Q) (orderbook : option OrderBook) : result Q :=
  if exchange_has self "fetchL2OrderBook" then
    orderbook ←
      match orderbook with
      | Some orderbook => Ok orderbook
      | None => Exchange_fetch_l2_order_book self pair 20
      end;
    let ob := if String.eqb side "buy" then asks orderbook
              else bids orderbook in
    let slippage := 5 # 100 in
    let max_slippage_val :=
      rate * (if String.eqb side "buy" then 1 + slippage else 1 - slippage) in
    let filled_value := fill_loop ob amount 0 0 in
    forecast_avg_filled_price ← truediv (max_ filled_value 0) amount;
    (* Limit max. slippage to specified value *)
    let forecast_avg_filled_price :=
      if String.eqb side "buy" then
        min_ forecast_avg_filled_price max_slippage_val
      else max_ forecast_avg_filled_price max_slippage_val in
    Ok (Exchange_price_to_precision self pair forecast_avg_filled_price ROUND)
  else Ok rate.

Definition add_dry_order_fee (self : Exchange) (pair : string)
    (dry_order : CcxtOrder) (taker_or_maker : MakerTaker)
    : result CcxtOrder :=
  fee ← get_fee self pair taker_or_maker;
  Ok {| id_ := id_ dry_order; symbol := symbol dry_order;
        price := price dry_order; average := average dry_order;
        amount := amount dry_order; cost := cost dry_order;
        order_type := order_type dry_order; side := side dry_order;
        filled := filled dry_order; remaining := remaining dry_order;
        timestamp := timestamp dry_order; status := status dry_order;
        fee := Some {| fee_currency := get_pair_quote_currency self pair;
                       fee_cost := cost dry_order * fee;
                       fee_rate := fee |};
        info_stopPrice := info_stopPrice dry_order;
        stop_price_field := stop_price_field dry_order;
        ft_order_type := ft_order_type dry_order |}.

Definition _dry_is_price_crossed (self : Exchange) (pair side : string)
    (limit : Q) (orderbook : option OrderBook) (offset : Q) : result bool :=
  if negb (exchange_has self "fetchL2OrderBook") then Ok true
  else
    orderbook ←
      match orderbook with
      | Some orderbook => Ok orderbook
      | None => Exchange_fetch_l2_order_book self pair 1
      end;
    if String.eqb side "buy" then
      match asks orderbook with
      | entry :: _ => Ok (leb (fst entry) (limit * (1 - offset)))
      | [] => Ok false
      end
    else
      match bids orderbook with
      | entry :: _ => Ok (leb (limit * (1 + offset)) (fst entry))
      | [] => Ok false
      end.

Definition check_dry_limit_order_filled (self : Exchange) (order : CcxtOrder)
    (immediate : bool) (orderbook : option OrderBook) : result CcxtOrder :=
  if negb (String.eqb (status order) "closed")
     && String.eqb (order_type order) "limit"
     && negb (bool_decide (is_Some (ft_order_type order)))
  then
    let pair := symbol order in
    crossed ←
      _dry_is_price_crossed self pair (side order) (price order) orderbook 0;
    if (crossed : bool) then
      add_dry_order_fee self pair
        {| id_ := id_ order; symbol := symbol order;
           price := price order; average := average order;
           amount := amount order; cost := cost order;
           order_type := order_type order; side := side order;
           filled := amount order; remaining := 0;
           timestamp := timestamp order; status := "closed";
           fee := fee order; info_stopPrice := info_stopPrice order;
           stop_price_field := stop_price_field order;
           ft_order_type := ft_order_type order |}
        (if immediate then taker else maker)
    else Ok order
  else Ok order.

(** [now_ts] and [now_str] render [dt_now()]: [dt_ts(now)] and
    [now.timestamp()] as it is printed into the order id.  The second
    component of the result is [self._dry_run_open_orders] after the
    call. *)
Definition create_dry_run_order (self : Exchange)
    (_dry_run_open_orders : gmap string CcxtOrder) (now_ts : Z)
    (now_str : string) (pair ordertype side : string) (amount rate
    leverage : Q) (stop_loss : bool)
    : result (CcxtOrder * gmap string CcxtOrder) :=
  let order_id :=
    ("dry_run_" ++ side ++ "_" ++ pair ++ "_" ++ now_str)%string in
  (* Rounding here must respect to contract sizes *)
  let _amount :=
    _contracts_to_amount self pair
      (Exchange_amount_to_precision self pair
         (_amount_to_contracts self pair amount)) in
  let dry_order :=
    {| id_ := order_id; symbol := pair; price := rate; average := rate;
       amount := _amount; cost := _amount * rate; order_type := ordertype;
       side := side; filled := 0; remaining := _amount;
       timestamp := now_ts; status := "open"; fee := None;
       info_stopPrice := if stop_loss then Some rate else None;
       stop_price_field :=
         if stop_loss then Some (stop_price_prop (ft_has self), rate)
         else None;
       (* Workaround to avoid filling stoploss orders immediately *)
       ft_order_type := if stop_loss then Some "stoploss"%string else None
    |} in
  orderbook ←
    (if exchange_has self "fetchL2OrderBook" then
       ob ← Exchange_fetch_l2_order_book self pair 20; Ok (Some ob)
     else Ok None);
  converted ←
    (if String.eqb ordertype "limit" && bool_decide (is_Some orderbook) then
       (* Allow a 1% price difference *)
       _dry_is_price_crossed self pair side rate orderbook (1 # 100)
     else Ok false);
  let dry_order :=
    if (converted : bool) then
      {| id_ := order_id; symbol := pair; price := rate;
         average := rate; amount := _amount; cost := _amount * rate;
         order_type := "market"; side := side; filled := 0;
         remaining := _amount; timestamp := now_ts; status := "open";
         fee := None; info_stopPrice := info_stopPrice dry_order;
         stop_price_field := stop_price_field dry_order;
         ft_order_type := ft_order_type dry_order |}
    else dry_order in
  dry_order ←
    (if String.eqb (order_type dry_order) "market"
        && negb (bool_decide (is_Some (ft_order_type dry_order)))
     then
       (* Update market order pricing *)
       average ← get_dry_market_fill_price self pair side amount rate
                   orderbook;
       (* market orders will always incurr taker fees *)
       add_dry_order_fee self pair
         {| id_ := order_id; symbol := pair; price := rate;
            average := average; amount := _amount;
            cost := _amount * average;
            order_type := order_type dry_order; side := side;
            filled := _amount; remaining := 0; timestamp := now_ts;
            status := "closed"; fee := None;
            info_stopPrice := info_stopPrice dry_order;
            stop_price_field := stop_price_field dry_order;
            ft_order_type := ft_order_type dry_order |}
         taker
     else Ok dry_order);
  dry_order ← check_dry_limit_order_filled self dry_order true orderbook;
  Ok (dry_order, <[id_ (dry_order : CcxtOrder) := dry_order]> _dry_run_open_orders).

End ExchangeUtils.

End Exchange.

Import Exchange.

(** ** Specification-side definitions and scenario data *)

(** Stand-ins for the absent date helpers in the scenarios.  Time is
    counted in minutes from 0001-01-01 00:00, the first instant a Python
    [datetime] can hold; the clock stands at 2025-01-01 00:00 (minute
    1064521440) and the Unix epoch is minute 1035593280.  A start before
    minute 0 cannot be held and raises [OverflowError], as
    [date - timedelta(...)] does.  Timeframe ["5m"] lasts 5 minutes, every
    other one counts as a minute. *)
Definition scenario_date_minus_candles (timeframe : string)
    (candle_count : Z) : result Z :=
  let tf_minutes := if String.eqb timeframe "5m" then 5%Z else 1%Z in
  let start := (1064521440 - tf_minutes * candle_count)%Z in
  if (start <? 0)%Z then Raise OverflowError else Ok start.

Definition scenario_dt_ts (date : Z) : result Z :=
  Ok ((date - 1035593280) * 60000)%Z.

(** An exchange whose candle limit is 500 for every timeframe. *)
Definition venue_500 (has_history : bool) : Exchange :=
  {| api := {| has := ∅; features_spot := ∅; features_swap_linear := ∅;
               fetch_l2_order_book := fun _ _ => Raise TemporaryError;
               api_fetch_positions := fun _ => Raise TemporaryError;
               calculate_fee_rate := fun _ _ => Raise TemporaryError |};
     ft_has := {| ohlcv_has_history := has_history;
                  ft_ohlcv_candle_limit := Some 500%Z;
                  funding_fee_candle_limit := None;
                  ohlcv_candle_limit_per_timeframe := ∅;
                  trades_pagination := "time";
                  stop_price_prop := "stopLossPrice";
                  ccxt_futures_name := "swap";
                  exchange_has_overrides := ∅ |};
     trading_mode := SPOT; margin_mode := NONE;
     liquidation_buffer := 5 # 100; precisionMode := DECIMAL_PLACES;
     markets := ∅; leverage_tiers := ∅; _trades_pagination := "time";
     dry_run := true; config_fee := None; amount_reserve_percent := None;
     runmode_in_optimize_modes := false; candle_type_def := CT_SPOT |}.

(** The stake window of a tier as the specification words it: the lower
    end divides by the prior tier's leverage (the tier's own for the first
    tier), the upper end by the tier's own. *)
Definition tier_min_stake (prior : option LeverageTier) (tier : LeverageTier)
    : Q :=
  minNotional tier
  / match prior with
    | Some prior => maxLeverage prior
    | None => maxLeverage tier
    end.

Definition tier_max_stake (tier : LeverageTier) : Q :=
  maxNotional tier / maxLeverage tier.

Definition in_stake_window (prior : option LeverageTier)
    (tier : LeverageTier) (stake : Q) : bool :=
  leb (tier_min_stake prior tier) stake && leb stake (tier_max_stake tier).

(** The first tier, in list order, whose window holds the stake. *)
Fixpoint first_matching_tier (prior : option LeverageTier)
    (tiers : list LeverageTier) (stake : Q) : option LeverageTier :=
  match tiers with
  | [] => None
  | tier :: rest =>
      if in_stake_window prior tier stake then Some tier
      else first_matching_tier (Some tier) rest stake
  end.

Definition mk_tier (min_notional max_notional mmr max_lev : Q)
    : LeverageTier :=
  {| minNotional := min_notional; maxNotional := max_notional;
     maintenanceMarginRate := mmr; maxLeverage := max_lev;
     maintAmt := None |}.

(** The tiers of the leverage scenario. *)
Definition scenario_tiers : list LeverageTier :=
  [ mk_tier 0 50000 (4 # 1000) 50;
    mk_tier 50000 250000 (5 # 1000) 20;
    mk_tier 250000 1000000 (1 # 100) 10 ].

Definition no_client : Ccxt :=
  {| has := ∅; features_spot := ∅; features_swap_linear := ∅;
     fetch_l2_order_book := fun _ _ => Raise TemporaryError;
     api_fetch_positions := fun _ => Raise TemporaryError;
     calculate_fee_rate := fun _ _ => Raise TemporaryError |}.

Definition default_ft_has : FtHas :=
  {| ohlcv_has_history := true;
     ft_ohlcv_candle_limit := None;
     funding_fee_candle_limit := None;
     ohlcv_candle_limit_per_timeframe := ∅;
     trades_pagination := "time";
     stop_price_prop := "stopLossPrice";
     ccxt_futures_name := "swap";
     exchange_has_overrides := ∅ |}.

(** A dry-run isolated-futures exchange trading one pair. *)
Definition futures_venue (pair : string) (market : Market)
    (tiers : list LeverageTier) : Exchange :=
  {| api := no_client; ft_has := default_ft_has;
     trading_mode := FUTURES; margin_mode := ISOLATED;
     liquidation_buffer := 5 # 100; precisionMode := DECIMAL_PLACES;
     markets := {[ pair := market ]};
     leverage_tiers := {[ pair := tiers ]};
     _trades_pagination := "time";
     dry_run := true; config_fee := None; amount_reserve_percent := None;
     runmode_in_optimize_modes := true; candle_type_def := CT_FUTURES |}.

Definition linear_swap (taker_rate : Q) : Market :=
  {| base := Some "BTC"%string; quote := Some "USDT"%string;
     market_type := "swap"; spot := false; margin := false; swap := true;
     future := false; linear := true; inverse := false;
     contractSize := Some 1; precision_amount := Some 3;
     precision_price := Some 2;
     limits_amount := {| lim_min := None; lim_max := None |};
     limits_cost := {| lim_min := None; lim_max := None |};
     limits_leverage := {| lim_min := None; lim_max := None |};
     taker_fee := taker_rate |}.

(** The order-book walk as the specification words it: each level gives
    up the smaller of its volume and what is still wanted; a level is a
    pair (price, volume) and the result pairs each price with the volume
    taken there. *)
Fixpoint consumed_levels (book : list (Q * Q)) (wanted : Q)
    : list (Q * Q) :=
  match book with
  | [] => []
  | level :: rest =>
      let taken := Qmin (snd level) wanted in
      (fst level, taken) :: consumed_levels rest (wanted - taken)
  end.

Definition Qsum (l : list Q) : Q := fold_right Qplus 0 l.

Definition total_volume (book : list (Q * Q)) : Q := Qsum (map snd book).

(** Sum of price times volume over a list of (price, volume) pairs. *)
Definition book_value (levels : list (Q * Q)) : Q :=
  Qsum (map (fun level => fst level * snd level) levels).

Definition well_formed_book (book : list (Q * Q)) : Prop :=
  Forall (fun level => 0 <= fst level /\ 0 <= snd level) book.

(** The slippage clamp of a forecast price. *)
Definition slippage_clamp (side : string) (rate forecast : Q) : Q :=
  if String.eqb side "buy" then Qmin forecast (rate * (105 # 100))
  else Qmax forecast (rate * (95 # 100)).

(** Modelled from the spec: [price_to_precision] of
    [freqtrade.exchange.exchange_utils], which is not part of the sources
    at hand, under the decimal-places model of section 4.6: "precision is
    an integer d; rounded value is floor(x * 10^d + 0.5 * sign) / 10^d".
    A price without declared precision is left as it is. *)
Definition price_to_precision_decimal (price : Q) (precision : option Q)
    (mode : PrecisionMode) (rounding_mode : RoundingMode) : Q :=
  match precision with
  | None => price
  | Some d =>
      let scale := inject_Z (10 ^ Qfloor d) in
      inject_Z
        (Qfloor (price * scale + (1 # 2) * inject_Z (Z.sgn (Qnum price))))
      / scale
  end.

(** Modelled from the spec: [contracts_to_amount] and
    [amount_to_contracts] of [freqtrade.exchange.exchange_utils], section
    4.6: a field in contracts "is multiplied by contract_size on ingress
    and divided on egress". *)
Definition contracts_to_amount_spec (num_contracts : Q)
    (contract_size : option Q) : Q :=
  match contract_size with
  | Some size => num_contracts * size
  | None => num_contracts
  end.

Definition amount_to_contracts_spec (amount : Q) (contract_size : option Q)
    : Q :=
  match contract_size with
  | Some size => amount / size
  | None => amount
  end.

(** Modelled from the spec: [amount_to_precision] of
    [freqtrade.exchange.exchange_utils], section 4.4: the "amount is
    rounded to venue precision"; here cut to [d] decimal places. *)
Definition amount_to_precision_decimal (amount : Q) (precision : option Q)
    (mode : PrecisionMode) : Q :=
  match precision with
  | None => amount
  | Some d =>
      let scale := inject_Z (10 ^ Qfloor d) in
      inject_Z (Qfloor (amount * scale)) / scale
  end.

Definition spot_market : Market :=
  {| base := Some "BTC"%string; quote := Some "USDT"%string;
     market_type := "spot"; spot := true; margin := false; swap := false;
     future := false; linear := false; inverse := false;
     contractSize := None; precision_amount := Some 3;
     precision_price := Some 2;
     limits_amount := {| lim_min := Some 1; lim_max := Some 1000 |};
     limits_cost := {| lim_min := Some 1; lim_max := Some 50 |};
     limits_leverage := {| lim_min := None; lim_max := None |};
     taker_fee := 1 # 1000 |}.

(** The asks of the dry-run fill scenario. *)
Definition scenario_book : OrderBook :=
  {| bids := [(9, 4)]; asks := [(10, 1); (11, 2); (12, 5)] |}.

(** A client that serves one order book and charges 0.1% to takers,
    0.05% to makers. *)
Definition book_client (ob : OrderBook) : Ccxt :=
  {| has := {[ "fetchL2OrderBook"%string := true ]};
     features_spot := ∅; features_swap_linear := ∅;
     fetch_l2_order_book := fun _ _ => Ok ob;
     api_fetch_positions := fun _ => Ok [];
     calculate_fee_rate :=
       fun _ tm =>
         Ok (match tm with taker => 1 # 1000 | maker => 5 # 10000 end) |}.

(** A dry-run spot exchange trading BTC/USDT with two price decimals. *)
Definition spot_venue (ob : OrderBook) : Exchange :=
  {| api := book_client ob; ft_has := default_ft_has;
     trading_mode := SPOT; margin_mode := NONE;
     liquidation_buffer := 5 # 100; precisionMode := DECIMAL_PLACES;
     markets := {[ "BTC/USDT"%string := spot_market ]};
     leverage_tiers := ∅;
     _trades_pagination := "time";
     dry_run := true; config_fee := None; amount_reserve_percent := None;
     runmode_in_optimize_modes := false; candle_type_def := CT_SPOT |}.

(** The rows of the combined table dated within [open_date, close_date]. *)
Definition rows_between (open_date close_date : Z)
    (df : list FundingMarkRow) : list FundingMarkRow :=
  List.filter
    (fun r => (open_date <=? row_date r)%Z && (row_date r <=? close_date)%Z)
    df.

Definition candle (ts : Z) (o : Q) : Candle :=
  {| date := ts; open := o; high := o; low := o; close := o; volume := 0 |}.

(** Mark prices at hours 0, 8 and 16; funding rates at hours 0 and 16. *)
Definition scenario_mark : list Candle :=
  [candle 0 100; candle 8 110; candle 16 120].

Definition scenario_funding : list Candle :=
  [candle 0 (1 # 1000); candle 16 (-1 # 1000)].

(** The class name of an exception, as [e.__class__.__name__]. *)
Definition exn_name (e : exn) : string :=
  match e with
  | ConfigurationError => "ConfigurationError"
  | InvalidOrderException => "InvalidOrderException"
  | OperationalException => "OperationalException"
  | ExchangeError => "ExchangeError"
  | DDosProtection => "DDosProtection"
  | TemporaryError => "TemporaryError"
  | KeyError => "KeyError"
  | ValueError => "ValueError"
  | IndexError => "IndexError"
  | ZeroDivisionError => "ZeroDivisionError"
  | UnboundLocalError => "UnboundLocalError"
  | OverflowError => "OverflowError"
  end.

(** A venue whose trade pagination is the given dialect. *)
Definition paginating_venue (dialect : string) : Exchange :=
  {| api := no_client; ft_has := default_ft_has;
     trading_mode := SPOT; margin_mode := NONE;
     liquidation_buffer := 5 # 100; precisionMode := DECIMAL_PLACES;
     markets := ∅; leverage_tiers := ∅;
     _trades_pagination := dialect;
     dry_run := false; config_fee := None; amount_reserve_percent := None;
     runmode_in_optimize_modes := false; candle_type_def := CT_SPOT |}.

Definition scenario_venue : Exchange :=
  futures_venue "BTC/USDT:USDT" (linear_swap (5 # 10000)) scenario_tiers.

Definition scenario_order_types : OrderTypes :=
  {| stoploss := Some "limit"%string;
     stoploss_on_exchange_limit_ratio := Some (101 # 100) |}.

(** ** Further definitions used by the additional properties *)

(** Each tier starts at the notional where the one before it ends. *)
Fixpoint tiers_chained (prev : LeverageTier) (tiers : list LeverageTier)
    : Prop :=
  match tiers with
  | [] => True
  | tier :: rest =>
      minNotional tier == maxNotional prev /\ tiers_chained tier rest
  end.

(** *** Futures venues in other margin modes *)


(** *** The dry-run order store: [fetch_dry_run_order], [cancel_order]

    [self._dry_run_open_orders] holds the order objects themselves: an
    update of a fetched order is an update of the stored one.  Each
    function returns the store next to its result, also when it raises. *)

(** [order.update({"status": "closed", "filled": order["amount"],
    "remaining": 0})] of [check_dry_limit_order_filled]. *)
Definition closed_in_place (order : CcxtOrder) : CcxtOrder :=
  {| id_ := id_ order; symbol := symbol order; price := price order;
     average := average order; amount := amount order; cost := cost order;
     order_type := order_type order; side := side order;
     filled := amount order; remaining := 0;
     timestamp := timestamp order; status := "closed";
     fee := fee order; info_stopPrice := info_stopPrice order;
     stop_price_field := stop_price_field order;
     ft_order_type := ft_order_type order |}.

(** The order object after a call of [check_dry_limit_order_filled] that
    raised: updated when the price was found crossed (the fee lookup
    failed afterwards), untouched otherwise. *)
Definition order_after_failed_check (self : Exchange) (order : CcxtOrder)
    (orderbook : option OrderBook) : CcxtOrder :=
  if negb (String.eqb (status order) "closed")
     && String.eqb (order_type order) "limit"
     && negb (bool_decide (is_Some (ft_order_type order)))
  then
    match
      _dry_is_price_crossed self (symbol order) (side order) (price order)
        orderbook 0
    with
    | Ok true => closed_in_place order
    | _ => order
    end
  else order.

Section DryRunStore.

(** [Order.order_by_id(order_id)] of the persistence layer, already
    converted by [to_ccxt_object]. *)
Variable order_by_id : string -> option CcxtOrder.
(** The [try] block of [cancel_order] on a live exchange: the call of the
    vendor client with its exception mapping. *)
Variable cancel_order_live : string -> string -> result CcxtOrder.

Definition fetch_dry_run_order (self : Exchange)
    (_dry_run_open_orders : gmap string CcxtOrder) (order_id : string)
    : result CcxtOrder * gmap string CcxtOrder :=
  let except_KeyError (store : gmap string CcxtOrder) :=
    match order_by_id order_id with
    | Some ccxt_order => (Ok ccxt_order, <[order_id := ccxt_order]> store)
    | None =>
        (* Gracefully handle errors with dry-run orders. *)
        (Raise InvalidOrderException, store)
    end in
  match _dry_run_open_orders !! order_id with
  | Some order =>
      match check_dry_limit_order_filled self order false None with
      | Ok order => (Ok order, <[order_id := order]> _dry_run_open_orders)
      | Raise e =>
          let store :=
            <[order_id := order_after_failed_check self order None]>
              _dry_run_open_orders in
          match e with
          | KeyError => except_KeyError store
          | _ => (Raise e, store)
          end
      end
  | None => except_KeyError _dry_run_open_orders
  end.

(** [order.update({"status": "canceled", "filled": 0.0,
    "remaining": order["amount"]})] *)
Definition canceled (order : CcxtOrder) : CcxtOrder :=
  {| id_ := id_ order; symbol := symbol order; price := price order;
     average := average order; amount := amount order; cost := cost order;
     order_type := order_type order; side := side order;
     filled := 0; remaining := amount order;
     timestamp := timestamp order; status := "canceled";
     fee := fee order; info_stopPrice := info_stopPrice order;
     stop_price_field := stop_price_field order;
     ft_order_type := ft_order_type order |}.

(** One run of the body of [cancel_order]; the empty dict [{}] is
    [None]. *)
Definition cancel_order (self : Exchange)
    (_dry_run_open_orders : gmap string CcxtOrder) (order_id pair : string)
    : result (option CcxtOrder) * gmap string CcxtOrder :=
  if dry_run self then
    match fetch_dry_run_order self _dry_run_open_orders order_id with
    | (Ok order, store) =>
        (Ok (Some (canceled order)), <[order_id := canceled order]> store)
    | (Raise InvalidOrderException, store) => (Ok None, store)
    | (Raise e, store) => (Raise e, store)
    end
  else
    (order ← cancel_order_live order_id pair; Ok (Some order),
     _dry_run_open_orders).

End DryRunStore.

(** *** Cancelling with a result: [cancel_order_with_result] *)

(** What [cancel_order_with_result] returns: an order of the venue or of
    the simulator, or the made-up dict
    [{"id": order_id, "status": "canceled", "amount": amount,
      "filled": 0.0, "fee": {}, "info": {}}]. *)
Inductive CanceledOrder : Type :=
| real_order (order : CcxtOrder)
| fake_order (order_id : string) (amount : Q).

(** [is_cancel_order_result_suitable]: [fee], [status] and [amount] are
    there and not [None]; an order of the model always has the last two,
    the empty dict has none. *)
Definition is_cancel_order_result_suitable (corder : option CcxtOrder)
    : bool :=
  match corder with
  | Some corder => bool_decide (is_Some (fee corder))
  | None => false
  end.

Section CancelWithResult.

Variable order_by_id : string -> option CcxtOrder.
Variable cancel_order_live : string -> string -> result CcxtOrder.
(** [fetch_order] on a live exchange, below the dry-run check. *)
Variable fetch_order_live : string -> string -> result CcxtOrder.

(** One run of the body of [fetch_order]. *)
Definition fetch_order (self : Exchange)
    (_dry_run_open_orders : gmap string CcxtOrder) (order_id pair : string)
    : result CcxtOrder * gmap string CcxtOrder :=
  if dry_run self then
    fetch_dry_run_order order_by_id self _dry_run_open_orders order_id
  else (fetch_order_live order_id pair, _dry_run_open_orders).

(** [self_at n] is [self] as the n-th fetch of the order inside the call
    finds it: the venue is asked afresh by each fetch (order book, fee)
    and may answer differently.  The first fetch is the one of
    [cancel_order], the second the one of [fetch_order]. *)
Definition cancel_order_with_result (self_at : nat -> Exchange)
    (_dry_run_open_orders : gmap string CcxtOrder) (order_id pair : string)
    (amount : Q) : result CanceledOrder * gmap string CcxtOrder :=
  let second_try (store : gmap string CcxtOrder) :=
    match fetch_order (self_at 1%nat) store order_id pair with
    | (Ok order, store) => (Ok (real_order order), store)
    | (Raise InvalidOrderException, store) =>
        (Ok (fake_order order_id amount), store)
    | (Raise e, store) => (Raise e, store)
    end in
  match
    cancel_order order_by_id cancel_order_live (self_at 0%nat)
      _dry_run_open_orders order_id pair
  with
  | (Ok corder, store) =>
      match corder with
      | Some order =>
          if is_cancel_order_result_suitable corder then
            (Ok (real_order order), store)
          else second_try store
      | None => second_try store
      end
  | (Raise InvalidOrderException, store) => second_try store
  | (Raise e, store) => (Raise e, store)
  end.

End CancelWithResult.

(** *** Fee rates: [calculate_fee_rate] *)

Module Fees.

Definition get_pair_base_currency (self : Exchange) (pair : string)
    : string :=
  match markets self !! pair with
  | Some market => default EmptyString (base market)
  | None => EmptyString
  end.

(** The fee dict of an order; [cost] is a number, as the docstring
    requires ([order_has_fee] has run first). *)
Record FeeDict := {
  fd_rate : option Q;
  fd_currency : option string;
  fd_cost : Q;
}.

Section FeeRate.

(** Builtin [round(x, ndigits)]. *)
Variable round_ : Q -> Z -> Q.
(** [self.get_conversion_rate(coin, currency)] *)
Variable get_conversion_rate : string -> string -> result (option Q).
(** [self._config["stake_currency"]] and
    [self._config["exchange"].get("unknown_fee_rate", None)] *)
Variable stake_currency : string.
Variable unknown_fee_rate : option Q.

(** [cost] may be [None]; the result [None] is the inner [None]. *)
Definition calculate_fee_rate (self : Exchange) (fee : FeeDict)
    (symbol : string) (cost : option Q) (amount : Q) : result (option Q) :=
  match fd_rate fee with
  | Some rate => Ok (Some rate)
  | None =>
      match fd_currency fee with
      | None => Ok None
      | Some fee_curr =>
          let fee_cost := fd_cost fee in
          (* Calculate fee based on order details *)
          if String.eqb fee_curr (get_pair_base_currency self symbol) then
            (* Base currency - divide by amount *)
            q ← truediv fee_cost amount;
            Ok (Some (round_ q 8))
          else if String.eqb fee_curr (get_pair_quote_currency self symbol)
          then
            (* Quote currency - divide by cost *)
            match cost with
            | Some cost =>
                if truthy cost then
                  q ← truediv fee_cost cost;
                  Ok (Some (round_ q 8))
                else Ok None
            | None => Ok None
            end
          else
            (* If Fee currency is a different currency *)
            match cost with
            | Some cost =>
                if truthy cost then
                  let fallback :=
                    match unknown_fee_rate with
                    | Some rate => if truthy rate then Some rate else None
                    | None => None
                    end in
                  let converted :=
                    match get_conversion_rate fee_curr stake_currency with
                    | Ok (Some rate) =>
                        if truthy rate then Ok (Some rate) else Ok fallback
                    | Ok None => Ok fallback
                    | Raise ValueError | Raise ExchangeError => Ok fallback
                    | Raise e => Raise e
                    end in
                  fee_to_quote_rate ← converted;
                  match (fee_to_quote_rate : option Q) with
                  | Some fee_to_quote_rate =>
                      q ← truediv (fee_cost * fee_to_quote_rate) cost;
                      Ok (Some (round_ q 8))
                  | None => Ok None
                  end
                else
                  (* If cost is None or 0.0 -> falsy, return None *)
                  Ok None
            | None => Ok None
            end
      end
  end.

End FeeRate.

End Fees.

(** *** The order a placement starts from *)

Section FreshDryOrder.

Variable contracts_to_amount : Q -> option Q -> Q.
Variable amount_to_contracts : Q -> option Q -> Q.
Variable amount_to_precision : Q -> option Q -> PrecisionMode -> Q.

(** The order as [create_dry_run_order] first builds it. *)
Definition fresh_dry_order (self : Exchange) (now_ts : Z)
    (now_str pair ordertype side : string) (amount rate : Q)
    (stop_loss : bool) : CcxtOrder :=
  let _amount :=
    _contracts_to_amount contracts_to_amount self pair
      (Exchange_amount_to_precision amount_to_precision self pair
         (_amount_to_contracts amount_to_contracts self pair amount)) in
  {| id_ := ("dry_run_" ++ side ++ "_" ++ pair ++ "_" ++ now_str)%string;
     symbol := pair; price := rate; average := rate;
     amount := _amount; cost := _amount * rate; order_type := ordertype;
     side := side; filled := 0; remaining := _amount;
     timestamp := now_ts; status := "open"; fee := None;
     info_stopPrice := if stop_loss then Some rate else None;
     stop_price_field :=
       if stop_loss then Some (stop_price_prop (ft_has self), rate)
       else None;
     ft_order_type := if stop_loss then Some "stoploss"%string else None |}.

End FreshDryOrder.

(** An open limit buy of 3 BTC at 11, as the simulator stores it. *)
Definition scenario_open_limit : CcxtOrder :=
  {| id_ := "dry_run_buy_BTC/USDT_0.0"; symbol := "BTC/USDT"; price := 11;
     average := 11; amount := 3; cost := 33; order_type := "limit";
     side := "buy"; filled := 0; remaining := 3; timestamp := 0;
     status := "open"; fee := None; info_stopPrice := None;
     stop_price_field := None; ft_order_type := None |}.

Definition scenario_store : gmap string CcxtOrder :=
  {[ "dry_run_buy_BTC/USDT_0.0"%string := scenario_open_limit ]}.

(** An open limit buy of 3 BTC at 9.5, below the asks of the scenario. *)
Definition scenario_resting_limit : CcxtOrder :=
  {| id_ := "dry_run_buy_BTC/USDT_1.0"; symbol := "BTC/USDT";
     price := 95 # 10; average := 95 # 10; amount := 3; cost := 285 # 10;
     order_type := "limit"; side := "buy"; filled := 0; remaining := 3;
     timestamp := 1; status := "open"; fee := None; info_stopPrice := None;
     stop_price_field := None; ft_order_type := None |}.

Definition scenario_resting_store : gmap string CcxtOrder :=
  {[ "dry_run_buy_BTC/USDT_1.0"%string := scenario_resting_limit ]}.

(** The book a moment later: the best ask has come down to 9. *)
Definition scenario_book_later : OrderBook :=
  {| bids := [(8, 4)]; asks := [(9, 1); (10, 2); (12, 5)] |}.

(** The spot venue over time: the scenario book at the first fetch of an
    order, the later book from the second fetch on. *)
Definition spot_venue_at (n : nat) : Exchange :=
  match n with
  | O => spot_venue scenario_book
  | _ => spot_venue scenario_book_later
  end.

(** The spot venue of the scenarios with a fee lookup that times out. *)
Definition failing_fee_venue : Exchange :=
  {| api :=
       {| has := {[ "fetchL2OrderBook"%string := true ]};
          features_spot := ∅; features_swap_linear := ∅;
          fetch_l2_order_book := fun _ _ => Ok scenario_book;
          api_fetch_positions := fun _ => Ok [];
          calculate_fee_rate := fun _ _ => Raise TemporaryError |};
     ft_has := default_ft_has;
     trading_mode := SPOT; margin_mode := NONE;
     liquidation_buffer := 5 # 100; precisionMode := DECIMAL_PLACES;
     markets := {[ "BTC/USDT"%string := spot_market ]};
     leverage_tiers := ∅;
     _trades_pagination := "time";
     dry_run := true; config_fee := None; amount_reserve_percent := None;
     runmode_in_optimize_modes := false; candle_type_def := CT_SPOT |}.

(** *** Stoploss adjustment *)

(** [order.get(key)] for the one extra key a stoploss order carries. *)
Definition order_get_stop (order : CcxtOrder) (key : string) : option Q :=
  match stop_price_field order with
  | Some (k, v) => if String.eqb k key then Some v else None
  | None => None
  end.

(** [stoploss_on_exchange] is [self._ft_has.get("stoploss_on_exchange")]. *)
Definition stoploss_adjust (self : Exchange)
    (stoploss_on_exchange : option bool) (stop_loss : Q) (order : CcxtOrder)
    (side : string) : result bool :=
  if negb (default false stoploss_on_exchange) then Raise OperationalException
  else
    let price_param := stop_price_prop (ft_has self) in
    match order_get_stop order price_param with
    | None => Ok true
    | Some stop =>
        Ok ((String.eqb side "sell" && ltb stop stop_loss)
            || (String.eqb side "buy" && ltb stop_loss stop))
    end.

(** *** Order-book depth: [get_next_limit_in_list] *)

(** Builtin [min] and [max] of a list of ints; [ValueError] on []. *)
Definition min_ints (l : list Z) : result Z :=
  match l with
  | [] => Raise ValueError
  | x :: l => Ok (fold_left Z.min l x)
  end.

Definition max_ints (l : list Z) : result Z :=
  match l with
  | [] => Raise ValueError
  | x :: l => Ok (fold_left Z.max l x)
  end.

Definition get_next_limit_in_list (limit : Z) (limit_range : option (list Z))
    (range_required : bool) (upper_limit : option Z) : result (option Z) :=
  match limit_range with
  | None | Some [] =>
      match upper_limit with
      | Some upper_limit =>
          if (upper_limit =? 0)%Z then Ok (Some limit)
          else Ok (Some (Z.min limit upper_limit))
      | None => Ok (Some limit)
      end
  | Some limit_range =>
      top ← max_ints limit_range;
      result ←
        min_ints (List.filter (fun x => (limit <=? x)%Z) limit_range ++ [top]);
      if negb range_required && (limit >? result)%Z then
        (* Range is not required - we can use None as parameter. *)
        Ok None
      else Ok (Some result)
  end.

(** *** Rate selection *)

(** An entry of [self._config]: [entry_pricing] or [exit_pricing]. *)
Record PricingConf := {
  price_side : option string;
  use_order_book : option bool;
  order_book_top : option Z;
  price_last_balance : option Q;
}.

(** The dict [price_map] of [_get_price_side]. *)
Definition price_map : list ((string * string * string) * string) :=
  [ (("entry", "long", "same"), "bid");
    (("entry", "long", "other"), "ask");
    (("entry", "short", "same"), "ask");
    (("entry", "short", "other"), "bid");
    (("exit", "long", "same"), "ask");
    (("exit", "long", "other"), "bid");
    (("exit", "short", "same"), "bid");
    (("exit", "short", "other"), "ask") ]%string.

Definition price_map_getitem (key : string * string * string)
    : result string :=
  match
    List.find
      (fun entry =>
         let '(a, b, c) := fst entry in
         let '(x, y, z) := key in
         String.eqb a x && String.eqb b y && String.eqb c z)
      price_map
  with
  | Some entry => Ok (snd entry)
  | None => Raise KeyError
  end.

Definition _get_price_side (side : string) (is_short : bool)
    (conf_strategy : PricingConf) : result string :=
  price_side ←
    match price_side conf_strategy with
    | Some s => Ok s
    | None => Raise KeyError
    end;
  if String.eqb price_side "same" || String.eqb price_side "other" then
    price_map_getitem
      (side, if is_short then "short" else "long", price_side)%string
  else Ok price_side.

(** A ticker: the keys the venue sent, each with a number or [None]. *)
Definition _get_rate_from_ticker (side : string)
    (ticker : gmap string (option Q)) (conf_strategy : PricingConf)
    (price_side : string) : result (option Q) :=
  ticker_rate ← getitem ticker price_side;
  last ← getitem ticker "last";
  match (last : option Q), (ticker_rate : option Q) with
  | Some last, Some rate =>
      if truthy last && truthy rate then
        let balance := default 0 (price_last_balance conf_strategy) in
        if String.eqb side "entry" && ltb last rate then
          Ok (Some (rate + balance * (last - rate)))
        else if String.eqb side "exit" && ltb rate last then
          Ok (Some (rate - balance * (rate - last)))
        else Ok (Some rate)
      else Ok (Some rate)
  | _, _ => Ok ticker_rate
  end.

(** What a pricing call does: return, raise one of the exceptions of
    [exn], or raise [PricingError]. *)
Inductive outcome (A : Type) : Type :=
| Returned (a : A)
| Raised (e : exn)
| RaisedPricingError.

Arguments Returned {A} a.
Arguments Raised {A} e.
Arguments RaisedPricingError {A}.

(** [l[i]] on a list: negative indexes count from the end. *)
Definition index {A} (l : list A) (i : Z) : result A :=
  let n := Z.of_nat (length l) in
  let j := if (i <? 0)%Z then (i + n)%Z else i in
  if (0 <=? j)%Z && (j <? n)%Z then
    match nth_error l (Z.to_nat j) with
    | Some x => Ok x
    | None => Raise IndexError
    end
  else Raise IndexError.

Definition _get_rate_from_ob (pair side : string) (order_book : OrderBook)
    (name price_side : string) (order_book_top : Z) : outcome Q :=
  (* top 1 = index 0 *)
  let obside :=
    if String.eqb price_side "bid" then bids order_book
    else asks order_book in
  match index obside (order_book_top - 1) with
  | Ok level => Returned (fst level)
  | Raise IndexError | Raise KeyError => RaisedPricingError
  | Raise e => Raised e
  end.

Section GetRate.

(** The rate caches are [TTLCache] objects: expiry and eviction are
    theirs, only [get] and item assignment are used. *)
Variable Cache : Type.
Variable cache_get : Cache -> string -> option Q.
Variable cache_set : Cache -> string -> Q -> Cache.
(** [self._config.get(strat_name, {})] *)
Variable config_pricing : string -> option PricingConf.
(** [self.fetch_ticker(pair)] *)
Variable fetch_ticker : string -> result (gmap string (option Q)).

Definition lift {A} (r : result A) (k : A -> outcome (Q * (Cache * Cache)))
    : outcome (Q * (Cache * Cache)) :=
  match r with
  | Ok a => k a
  | Raise e => Raised e
  end.

(** The two caches are [(_entry_rate_cache, _exit_rate_cache)]. *)
Definition get_rate (self : Exchange) (caches : Cache * Cache)
    (pair : string) (refresh : bool) (side : string) (is_short : bool)
    (order_book : option OrderBook)
    (ticker : option (gmap string (option Q)))
    : outcome (Q * (Cache * Cache)) :=
  let is_entry := String.eqb side "entry" in
  let strat_name := if is_entry then "entry_pricing" else "exit_pricing" in
  let cache_rate := if is_entry then fst caches else snd caches in
  let cached :=
    if refresh then None
    else
      match cache_get cache_rate pair with
      | Some rate => if truthy rate then Some rate else None
      | None => None
      end in
  match cached with
  | Some rate => Returned (rate, caches)
  | None =>
      let conf_strategy :=
        default {| price_side := None; use_order_book := None;
                   order_book_top := None; price_last_balance := None |}
          (config_pricing strat_name) in
      lift (_get_price_side side is_short conf_strategy) (fun price_side =>
      let store rate :=
        Returned
          (rate,
           if is_entry then (cache_set (fst caches) pair rate, snd caches)
           else (fst caches, cache_set (snd caches) pair rate)) in
      if default false (use_order_book conf_strategy) then
        let order_book_top := default 1%Z (order_book_top conf_strategy) in
        lift
          (match order_book with
           | Some order_book => Ok order_book
           | None => Exchange_fetch_l2_order_book self pair order_book_top
           end)
          (fun order_book =>
             match
               _get_rate_from_ob pair side order_book side price_side
                 order_book_top
             with
             | Returned rate => store rate
             | Raised e => Raised e
             | RaisedPricingError => RaisedPricingError
             end)
      else
        lift
          (match ticker with
           | Some ticker => Ok ticker
           | None => fetch_ticker pair
           end)
          (fun ticker =>
             lift (_get_rate_from_ticker side ticker conf_strategy price_side)
               (fun rate =>
                  match rate with
                  | Some rate => store rate
                  | None => RaisedPricingError
                  end)))
  end.

End GetRate.

(** A ticker around a last price of 100 and a pricing entry that takes
    the same side and moves half of the way to the last price. *)
Definition scenario_ticker : gmap string (option Q) :=
  {[ "bid"%string := Some 99; "ask"%string := Some 102;
     "last"%string := Some 100 ]}.

Definition scenario_pricing : PricingConf :=
  {| price_side := Some "ask"%string; use_order_book := Some false;
     order_book_top := None; price_last_balance := Some (1 # 2) |}.

(** *** Time-based trade history *)

Record Trade := {
  trade_timestamp : Z;
  trade_id : string;
  trade_price : Q;
  trade_amount : Q;
}.

(** One await of [_async_fetch_trades]: a page with the next pagination
    value, a cancellation of the task, or an exception. *)
Inductive fetched : Type :=
| Page (t : list Trade) (since_next : Z)
| Cancelled
| Failed (e : exn).

Section TradeHistoryTime.

(** [await self._async_fetch_trades(pair, since=since)] at the n-th
    iteration of the loop: the venue may answer the same question
    differently later. *)
Variable _async_fetch_trades : nat -> string -> Z -> fetched.

(** The [while True] loop of [_async_get_trade_history_time], [n]
    iterations in; [None] when the fuel is used up before the loop ends. *)
Fixpoint _async_get_trade_history_time_loop (fuel n : nat) (pair : string)
    (until since : Z) (trades : list Trade)
    : option (result (string * list Trade)) :=
  match fuel with
  | O => None
  | S fuel =>
      match _async_fetch_trades n pair since with
      | Page [] _ => Some (Ok (pair, trades))
      | Page t since_next =>
          (* No more trades to download available at the exchange,
             so we repeatedly get the same trade over and over again. *)
          if (since =? since_next)%Z && (length t =? 1)%nat then
            Some (Ok (pair, trades))
          else
            let trades := trades ++ t in
            (* Reached the end of the defined-download period *)
            if negb (until =? 0)%Z && (since_next >? until)%Z then
              Some (Ok (pair, trades))
            else
              _async_get_trade_history_time_loop fuel (S n) pair until
                since_next trades
      | Cancelled => Some (Ok (pair, trades))
      | Failed e => Some (Raise e)
      end
  end.

Definition _async_get_trade_history_time (fuel : nat) (pair : string)
    (until since : Z) : option (result (string * list Trade)) :=
  _async_get_trade_history_time_loop fuel 0 pair until since [].

(** Every non-empty page moves the pagination value forward, or is the
    single trade the venue repeats when there is nothing newer. *)
Definition venue_advances (pair : string) : Prop :=
  forall n since t since_next,
    _async_fetch_trades n pair since = Page t since_next ->
    t <> [] ->
    (since < since_next)%Z \/ (since = since_next /\ length t = 1%nat).

(** No await of the venue fails. *)
Definition venue_answers (pair : string) : Prop :=
  forall n since e, _async_fetch_trades n pair since <> Failed e.

(** The trade was on a page the venue served. *)
Definition served (pair : string) (trade : Trade) : Prop :=
  exists n since t since_next,
    _async_fetch_trades n pair since = Page t since_next /\ In trade t.

End TradeHistoryTime.

(** *** Windowed order history *)

(** A dict keyed by order id, in insertion order: [d[k] = v]. *)
Fixpoint dict_set (d : list (string * CcxtOrder)) (k : string)
    (v : CcxtOrder) : list (string * CcxtOrder) :=
  match d with
  | [] => [(k, v)]
  | (k', v') :: d =>
      if String.eqb k' k then (k', v) :: d else (k', v') :: dict_set d k v
  end.

(** [list({order["id"]: order for order in orders}.values())] *)
Definition unique_by_id (orders : list CcxtOrder) : list CcxtOrder :=
  map snd (fold_left (fun d order => dict_set d (id_ order) order) orders []).

Section FetchOrders.

(** [self._fetch_orders(pair, since)] as the n-th call of the venue. *)
Variable _fetch_orders : nat -> string -> Z -> result (list CcxtOrder).
(** [dt_now()] in milliseconds at its n-th reading. *)
Variable dt_now : nat -> Z.

(** The [while since < dt_now()] loop of [fetch_orders], [n] iterations
    in; [step] is [timedelta(minutes=limit - 1)] in milliseconds. *)
Fixpoint fetch_orders_loop (fuel n : nat) (pair : string)
    (since step : Z) (orders : list CcxtOrder)
    : option (result (list CcxtOrder)) :=
  match fuel with
  | O => None
  | S fuel =>
      if (since <? dt_now n)%Z then
        match _fetch_orders n pair since with
        | Ok page =>
            (* Since with 1 minute overlap *)
            fetch_orders_loop fuel (S n) pair (since + step)%Z step
              (orders ++ page)
        | Raise e => Some (Raise e)
        end
      else Some (Ok orders)
  end.

(** [fetch_orders_limit_minutes] is
    [self._ft_has.get("fetch_orders_limit_minutes")]. *)
Definition fetch_orders (fuel : nat) (self : Exchange)
    (fetch_orders_limit_minutes : option Z) (pair : string) (since : Z)
    : option (result (list CcxtOrder)) :=
  if dry_run self then Some (Ok [])
  else
    match fetch_orders_limit_minutes with
    | Some limit =>
        match
          fetch_orders_loop fuel 0 pair since ((limit - 1) * 60000) []
        with
        | Some (Ok orders) =>
            (* Ensure each order is unique based on order id *)
            Some (Ok (unique_by_id orders))
        | other => other
        end
    | None => Some (_fetch_orders 0 pair since)
    end.

End FetchOrders.

(** The caches of the scenarios are plain maps; a venue that serves one
    trade per millisecond up to time 3; a venue whose order history lists
    order 1 in two overlapping windows. *)
Definition map_cache_get (c : gmap string Q) (k : string) : option Q :=
  c !! k.

Definition map_cache_set (c : gmap string Q) (k : string) (v : Q)
    : gmap string Q :=
  <[k := v]> c.

Definition trade_at (ts : Z) : Trade :=
  {| trade_timestamp := ts; trade_id := ""; trade_price := 1;
     trade_amount := 1 |}.

Definition scenario_trades (n : nat) (pair : string) (since : Z) : fetched :=
  if (since <? 3)%Z then Page [trade_at (since + 1)] (since + 1)
  else Page [] 0.

Definition order_with_id (i : string) (s : string) : CcxtOrder :=
  {| id_ := i; symbol := "BTC/USDT"; price := 11; average := 11;
     amount := 3; cost := 33; order_type := "limit"; side := "buy";
     filled := 0; remaining := 3; timestamp := 0; status := s; fee := None;
     info_stopPrice := None; stop_price_field := None;
     ft_order_type := None |}.

Definition scenario_order_pages (n : nat) (pair : string) (since : Z)
    : result (list CcxtOrder) :=
  match n with
  | O => Ok [order_with_id "1" "open"; order_with_id "2" "closed"]
  | _ => Ok [order_with_id "1" "closed"]
  end.

Definition live_venue : Exchange :=
  {| api := book_client scenario_book; ft_has := default_ft_has;
     trading_mode := SPOT; margin_mode := NONE;
     liquidation_buffer := 5 # 100; precisionMode := DECIMAL_PLACES;
     markets := {[ "BTC/USDT"%string := spot_market ]};
     leverage_tiers := ∅;
     _trades_pagination := "time";
     dry_run := false; config_fee := None; amount_reserve_percent := None;
     runmode_in_optimize_modes := false; candle_type_def := CT_SPOT |}.

(** ** Facts about the Python builtins *)

Section PyFacts.

Lemma ltb_lt (a b : Q) : ltb a b = true <-> a < b.
Proof.
  unfold ltb. rewrite negb_true_iff, <- not_true_iff_false, Qle_bool_iff.
  split; [apply Qnot_le_lt | apply Qlt_not_le].
Qed.

Lemma ltb_ge (a b : Q) : ltb a b = false <-> b <= a.
Proof.
  unfold ltb. rewrite negb_false_iff. apply Qle_bool_iff.
Qed.

Lemma leb_le (a b : Q) : leb a b = true <-> a <= b.
Proof. apply Qle_bool_iff. Qed.

Lemma leb_gt (a b : Q) : leb a b = false <-> b < a.
Proof.
  unfold leb. rewrite <- not_true_iff_false, Qle_bool_iff.
  split; [apply Qnot_le_lt | apply Qlt_not_le].
Qed.

Lemma eqb_eq (a b : Q) : eqb a b = true <-> a == b.
Proof. apply Qeq_bool_iff. Qed.

Lemma eqb_neq (a b : Q) : eqb a b = false <-> ~ a == b.
Proof.
  unfold eqb. rewrite <- not_true_iff_false, Qeq_bool_iff. tauto.
Qed.

Lemma truediv_ok (a b : Q) : ~ b == 0 -> truediv a b = Ok (a / b).
Proof.
  intros Hb. unfold truediv. apply eqb_neq in Hb. now rewrite Hb.
Qed.

Lemma truediv_zero (a b : Q) : b == 0 -> truediv a b = Raise ZeroDivisionError.
Proof.
  intros Hb. unfold truediv. apply eqb_eq in Hb. now rewrite Hb.
Qed.

Lemma max__cases (a b : Q) :
  (a < b /\ max_ a b = b) \/ (b <= a /\ max_ a b = a).
Proof.
  unfold max_. destruct (ltb a b) eqn:E.
  - left. split; [now apply ltb_lt | reflexivity].
  - right. split; [now apply ltb_ge | reflexivity].
Qed.

Lemma min__cases (a b : Q) :
  (b < a /\ min_ a b = b) \/ (a <= b /\ min_ a b = a).
Proof.
  unfold min_. destruct (ltb b a) eqn:E.
  - left. split; [now apply ltb_lt | reflexivity].
  - right. split; [now apply ltb_ge | reflexivity].
Qed.

Lemma max__lb_r (a b : Q) : b <= max_ a b.
Proof. destruct (max__cases a b) as [[H ->]|[H ->]]; lra. Qed.

Lemma max__lb_l (a b : Q) : a <= max_ a b.
Proof. destruct (max__cases a b) as [[H ->]|[H ->]]; lra. Qed.

Lemma min__ub_r (a b : Q) : min_ a b <= b.
Proof. destruct (min__cases a b) as [[H ->]|[H ->]]; lra. Qed.

Lemma min__ub_l (a b : Q) : min_ a b <= a.
Proof. destruct (min__cases a b) as [[H ->]|[H ->]]; lra. Qed.

(** [int] agrees with the floor on non-negative values. *)
Lemma int_nonneg (x : Q) : 0 <= x -> int x = Qfloor x.
Proof.
  destruct x as [n d]. unfold int, Qfloor, Qle. simpl.
  intros H. apply Z.quot_div_nonneg; lia.
Qed.

Lemma Qfloor_unique (x : Q) (n : Z) :
  inject_Z n <= x -> x < inject_Z (n + 1) -> Qfloor x = n.
Proof.
  intros H1 H2.
  pose proof (Qfloor_le x) as F1. pose proof (Qlt_floor x) as F2.
  assert (inject_Z n < inject_Z (Qfloor x + 1)) as A by lra.
  assert (inject_Z (Qfloor x) < inject_Z (n + 1)) as B by lra.
  rewrite <- Zlt_Qlt in A, B. lia.
Qed.

Lemma Qceiling_unique (x : Q) (n : Z) :
  inject_Z (n - 1) < x -> x <= inject_Z n -> Qceiling x = n.
Proof.
  intros H1 H2.
  pose proof (Qle_ceiling x) as F1. pose proof (Qceiling_lt x) as F2.
  assert (inject_Z (n - 1) < inject_Z (Qceiling x)) as A by lra.
  assert (inject_Z (Qceiling x - 1) < inject_Z n) as B by lra.
  rewrite <- Zlt_Qlt in A, B. lia.
Qed.

Lemma inject_Z_pos_neq0 (L : Z) : (0 < L)%Z -> ~ inject_Z L == 0.
Proof.
  intros HL E. change 0 with (inject_Z 0) in E.
  apply -> inject_Z_injective in E. lia.
Qed.

End PyFacts.

(** ** Startup candles *)

Section StartupCandles.

(** Euclidean division seen in [Q]: [c / L = k + r / L]. *)
Lemma div_decompose (c L : Z) :
  (0 < L)%Z ->
  inject_Z c / inject_Z L
  == inject_Z (c / L) + inject_Z (c mod L) / inject_Z L.
Proof.
  intros HL.
  pose proof (inject_Z_pos_neq0 L HL) as HL0.
  rewrite (Z.div_mod c L) at 1 by lia.
  rewrite inject_Z_plus, inject_Z_mult. now field.
Qed.

Lemma call_count_is_ceiling (c L : Z) :
  (0 <= c)%Z -> (0 < L)%Z ->
  int (inject_Z c / inject_Z L + (if (c mod L =? 0)%Z then 0 else 1))
  = Qceiling (inject_Z c / inject_Z L).
Proof.
  intros Hc HL.
  pose proof (div_decompose c L HL) as D.
  pose proof (Z.mod_pos_bound c L HL) as [R0 R1].
  pose proof (Z.div_pos c L Hc HL) as K0.
  set (k := (c / L)%Z) in *. set (r := (c mod L)%Z) in *.
  assert (0 < inject_Z L) as HLq.
  { change 0 with (inject_Z 0). now rewrite <- Zlt_Qlt. }
  assert (0 <= inject_Z k) as HKq.
  { change 0 with (inject_Z 0). now rewrite <- Zle_Qle. }
  assert (0 <= inject_Z r / inject_Z L) as F0.
  { apply Qle_shift_div_l; [exact HLq|]. rewrite Qmult_0_l.
    change 0 with (inject_Z 0). now rewrite <- Zle_Qle. }
  assert (inject_Z r / inject_Z L < 1) as F1.
  { apply Qlt_shift_div_r; [exact HLq|]. rewrite Qmult_1_l.
    now rewrite <- Zlt_Qlt. }
  destruct (Z.eqb_spec r 0) as [E|E].
  - assert (inject_Z r / inject_Z L == 0) as Z0.
    { rewrite E. unfold Qdiv. now rewrite Qmult_0_l. }
    rewrite int_nonneg by lra.
    rewrite (Qfloor_unique _ k), (Qceiling_unique _ k);
      rewrite ?inject_Z_plus, ?inject_Z_opp; unfold Z.sub;
      rewrite ?inject_Z_plus, ?inject_Z_opp;
      try reflexivity; change (inject_Z 1) with 1;
      change (inject_Z (-1)) with (-1); lra.
  - assert (0 < inject_Z r / inject_Z L) as F2.
    { apply Qlt_shift_div_l; [exact HLq|]. rewrite Qmult_0_l.
      change 0 with (inject_Z 0). rewrite <- Zlt_Qlt. lia. }
    rewrite int_nonneg by lra.
    rewrite (Qfloor_unique _ (k + 1)), (Qceiling_unique _ (k + 1));
      unfold Z.sub; rewrite ?inject_Z_plus, ?inject_Z_opp;
      try reflexivity; change (inject_Z 1) with 1;
      change (inject_Z (-1)) with (-1); lra.
Qed.

Variable Datetime : Type.
Variable date_minus_candles : string -> Z -> result Datetime.
Variable dt_ts : Datetime -> result Z.

(** The start date of the history is there: no timeframe is given, or
    both date helpers return. *)
Lemma startup_since_ms_returns (startup_candles : Z) (timeframe : string) :
  timeframe = EmptyString
  \/ (exists date since_ms,
        date_minus_candles timeframe startup_candles = Ok date
        /\ dt_ts date = Ok since_ms) ->
  exists since_ms,
    startup_since_ms Datetime date_minus_candles dt_ts startup_candles
      timeframe = Ok since_ms.
Proof.
  unfold startup_since_ms. intros [-> | (date & since_ms & Hd & Ht)].
  - now exists None.
  - destruct (String.eqb timeframe ""); [now exists None|].
    cbn [negb]. rewrite Hd. cbn [mbind result_bind]. rewrite Ht.
    now exists (Some since_ms).
Qed.

(** An exception of a date helper leaves the validator as it is. *)
Lemma startup_since_ms_raises (self : Exchange) (startup_candles : Z)
    (timeframe : string) (e : exn) :
  timeframe <> EmptyString ->
  date_minus_candles timeframe startup_candles = Raise e
  \/ (exists date,
        date_minus_candles timeframe startup_candles = Ok date
        /\ dt_ts date = Raise e) ->
  validate_required_startup_candles Datetime date_minus_candles dt_ts self
    startup_candles timeframe = Raise e.
Proof.
  intros Htf Hraise.
  unfold validate_required_startup_candles, startup_since_ms.
  apply String.eqb_neq in Htf. rewrite Htf. cbn [negb].
  destruct Hraise as [-> | (date & -> & Ht)]; [reflexivity|].
  cbn [mbind result_bind]. now rewrite Ht.
Qed.

(** C1 (as the code has it). For a startup candle count [s >= 0] and a
    candle limit [L > 0]: the validator first computes the start date of
    the history, unless the timeframe is empty, and an exception of that
    computation is raised as it is.  When the start date is there, the
    number of calls is the ceiling of [(s + 1) / L]; on a venue with
    history a count above 5 raises [ConfigurationError] and any other count
    is returned (without history, the bound is 1). *)
Theorem validate_required_startup_candles_ceiling
    (self : Exchange) (startup_candles : Z) (timeframe : string) :
  let L := ohlcv_candle_limit self timeframe (candle_type_def self) None in
  let n := Qceiling (inject_Z (startup_candles + 1) / inject_Z L) in
  let outcome :=
    validate_required_startup_candles Datetime date_minus_candles dt_ts self
      startup_candles timeframe in
  (0 <= startup_candles)%Z -> (0 < L)%Z ->
  (timeframe = EmptyString
   \/ (exists date since_ms,
         date_minus_candles timeframe startup_candles = Ok date
         /\ dt_ts date = Ok since_ms) ->
   outcome =
     if ohlcv_has_history (ft_has self) then
       if (5 <? n)%Z then Raise ConfigurationError else Ok n
     else if (1 <? n)%Z then Raise ConfigurationError else Ok n)
  /\ (forall e,
        timeframe <> EmptyString ->
        date_minus_candles timeframe startup_candles = Raise e
        \/ (exists date,
              date_minus_candles timeframe startup_candles = Ok date
              /\ dt_ts date = Raise e) ->
        outcome = Raise e).
Proof.
  intros L n outcome Hs HL. subst outcome. split.
  - intros Hdate.
    destruct (startup_since_ms_returns startup_candles timeframe Hdate)
      as (since_ms & Hsince).
    unfold validate_required_startup_candles. rewrite Hsince.
    cbn [mbind result_bind].
    change (ohlcv_candle_limit self timeframe (candle_type_def self) since_ms)
      with L.
    pose proof (inject_Z_pos_neq0 L HL) as HL0.
    rewrite (truediv_ok _ _ HL0). unfold mod_.
    destruct (Z.eqb_spec L 0) as [E0|_]; [lia|].
    cbn [mbind result_bind].
    rewrite call_count_is_ceiling by lia. fold n.
    rewrite !Z.gtb_ltb. reflexivity.
  - intros e Htf Hraise. now apply startup_since_ms_raises.
Qed.

End StartupCandles.

Section StartupCandlesScenarios.

(** The two startup scenarios: 600 candles need 2 calls and are accepted,
    3000 candles are rejected. *)
Lemma validate_required_startup_candles_scenarios :
  validate_required_startup_candles Z scenario_date_minus_candles
    scenario_dt_ts (venue_500 true) 600 "5m" = Ok 2%Z
  /\ validate_required_startup_candles Z scenario_date_minus_candles
       scenario_dt_ts (venue_500 true) 3000 "5m"
     = Raise ConfigurationError.
Proof.
  split.
  - destruct (validate_required_startup_candles_ceiling Z
                scenario_date_minus_candles scenario_dt_ts (venue_500 true)
                600 "5m") as (Hcount & _); [lia | reflexivity |].
    rewrite Hcount; [reflexivity|].
    right. eexists. eexists. split; reflexivity.
  - destruct (validate_required_startup_candles_ceiling Z
                scenario_date_minus_candles scenario_dt_ts (venue_500 true)
                3000 "5m") as (Hcount & _); [lia | reflexivity |].
    rewrite Hcount; [reflexivity|].
    right. eexists. eexists. split; reflexivity.
Defined.

(** Ten thousand million candles of five minutes start before year 1:
    the count, 20000001 calls, is above 5, but what is raised is the
    [OverflowError] of the date computation, not [ConfigurationError]. *)
Lemma validate_required_startup_candles_overflow :
  (5 < Qceiling (inject_Z (10000000000 + 1)
                 / inject_Z (ohlcv_candle_limit (venue_500 true) "5m"
                               (candle_type_def (venue_500 true)) None)))%Z
  /\ validate_required_startup_candles Z scenario_date_minus_candles
       scenario_dt_ts (venue_500 true) 10000000000 "5m"
     = Raise OverflowError
  /\ validate_required_startup_candles Z scenario_date_minus_candles
       scenario_dt_ts (venue_500 true) 10000000000 "5m"
     <> Raise ConfigurationError.
Proof.
  split; [vm_compute; reflexivity|].
  split; [vm_compute; reflexivity | vm_compute; discriminate].
Qed.

End StartupCandlesScenarios.


(** ** Stop-limit rate *)

Section StopLimit.

(** C2. The stop-limit rate is [stop_price * r] for a sell and
    [stop_price * (2 - r)] for a buy, [r] being the configured limit ratio
    (0.99 when absent); [InvalidOrderException] is raised exactly when that
    rate is on the wrong side of the stop price (sell: above it, buy: below
    it), and the rate is returned otherwise. *)
Theorem get_stop_limit_rate_sides (stop_price : Q)
    (order_types : OrderTypes) :
  let r := default (99 # 100) (stoploss_on_exchange_limit_ratio order_types) in
  let sell := _get_stop_limit_rate stop_price order_types "sell" in
  let buy := _get_stop_limit_rate stop_price order_types "buy" in
  stop_limit_rate stop_price r "sell" = stop_price * r
  /\ stop_limit_rate stop_price r "buy" = stop_price * (2 - r)
  /\ (sell = Raise InvalidOrderException <-> stop_price < stop_price * r)
  /\ (buy = Raise InvalidOrderException <-> stop_price * (2 - r) < stop_price)
  /\ (sell = Ok (stop_price * r) <-> stop_price * r <= stop_price)
  /\ (buy = Ok (stop_price * (2 - r))
      <-> stop_price <= stop_price * (2 - r)).
Proof.
  intros r sell buy. subst sell buy. unfold _get_stop_limit_rate.
  fold r. unfold stop_limit_rate. cbn [String.eqb Ascii.eqb Bool.eqb].
  repeat split; try reflexivity.
  all: try (intros H; first [apply ltb_lt in H | apply ltb_ge in H];
            now rewrite H).
  all: destruct (ltb _ _) eqn:E; try discriminate; intros _;
    first [now apply ltb_lt | now apply ltb_ge].
Qed.

(** The stop-limit scenario: stop 100, ratio 1.01, sell side gives the
    limit rate 101 and raises. *)
Lemma get_stop_limit_rate_scenario :
  stop_limit_rate 100 (101 # 100) "sell" == 101
  /\ _get_stop_limit_rate 100 scenario_order_types "sell"
     = Raise InvalidOrderException.
Proof.
  destruct (get_stop_limit_rate_sides 100 scenario_order_types)
    as (_ & _ & R & _).
  split.
  - reflexivity.
  - apply R. reflexivity.
Defined.

End StopLimit.

(** ** Leverage tiers *)

Section MaxLeverage.

Lemma or__nonzero (x y : Q) : ~ x == 0 -> or_ (Some x) y = x.
Proof.
  intros H. unfold or_, truthy. apply eqb_neq in H. now rewrite H.
Qed.

Lemma last_cons_default {A} (x : A) (l : list A) (d d' : A) :
  List.last (x :: l) d = List.last (x :: l) d'.
Proof.
  revert x. induction l as [|y l IH]; intros x; [reflexivity|].
  change (List.last (y :: l) d = List.last (y :: l) d'). apply IH.
Qed.

(** The loop, entered after tier [p], returns the leverage of the first
    later tier whose window holds the stake. *)
Lemma get_max_leverage_loop_scan (p : LeverageTier)
    (tiers : list LeverageTier) (stake : Q) :
  ~ maxLeverage p == 0 ->
  Forall (fun t => ~ maxLeverage t == 0) tiers ->
  get_max_leverage_loop (Some (maxLeverage p)) (Some (tier_max_stake p))
    tiers stake
  = match first_matching_tier (Some p) tiers stake with
    | Some t => Ok (maxLeverage t)
    | None =>
        if ltb (tier_max_stake (List.last tiers p)) stake then
          Raise InvalidOrderException
        else Raise OperationalException
    end.
Proof.
  intros Hp Hall. revert p Hp.
  induction Hall as [|t rest Ht Hrest IH]; intros p Hp.
  - reflexivity.
  - cbn [get_max_leverage_loop first_matching_tier].
    rewrite (or__nonzero _ _ Hp), (truediv_ok _ _ Hp), (truediv_ok _ _ Ht).
    cbn [mbind result_bind].
    unfold in_stake_window, tier_min_stake. cbn beta iota.
    change (maxNotional t / maxLeverage t) with (tier_max_stake t).
    destruct (leb (minNotional t / maxLeverage p) stake
              && leb stake (tier_max_stake t)); [reflexivity|].
    rewrite (IH t Ht).
    destruct rest as [|u rest]; [reflexivity|].
    change (List.last (t :: u :: rest) p) with (List.last (u :: rest) p).
    now rewrite (last_cons_default u rest p t).
Qed.

(** C3 (as the code has it). On futures, for a pair with a non-empty tier
    list without zero leverage: a zero stake gives the first tier's
    leverage; any other stake gives the leverage of the first tier, in list
    order, whose window [min_stake, max_stake] holds it; when no window
    holds it, a stake above the last tier's [max_stake] raises
    [InvalidOrderException]. *)
Theorem get_max_leverage_scan (self : Exchange) (pair : string)
    (first : LeverageTier) (rest : list LeverageTier) (stake_amount : Q) :
  trading_mode self = FUTURES ->
  leverage_tiers self !! pair = Some (first :: rest) ->
  Forall (fun t => ~ maxLeverage t == 0) (first :: rest) ->
  get_max_leverage self pair (Some stake_amount)
  = if eqb stake_amount 0 then Ok (maxLeverage first)
    else
      match first_matching_tier None (first :: rest) stake_amount with
      | Some tier => Ok (maxLeverage tier)
      | None =>
          if ltb (tier_max_stake (List.last rest first)) stake_amount then
            Raise InvalidOrderException
          else Raise OperationalException
      end.
Proof.
  intros Hmode Htiers Hall. unfold get_max_leverage.
  rewrite Hmode, Htiers.
  destruct (eqb stake_amount 0); [reflexivity|].
  inversion Hall as [|t l Hfirst Hrest]; subst.
  cbn [get_max_leverage_loop first_matching_tier or_].
  rewrite !(truediv_ok _ _ Hfirst). cbn [mbind result_bind].
  unfold in_stake_window, tier_min_stake. cbn beta iota.
  change (maxNotional first / maxLeverage first) with (tier_max_stake first).
  destruct (leb (minNotional first / maxLeverage first) stake_amount
            && leb stake_amount (tier_max_stake first)); [reflexivity|].
  apply (get_max_leverage_loop_scan first rest stake_amount Hfirst Hrest).
Qed.

Lemma scenario_tiers_nonzero :
  Forall (fun t => ~ maxLeverage t == 0) scenario_tiers.
Proof. repeat constructor; discriminate. Defined.

(** The leverage scenario as the code answers it: stakes 0 and 1000 get
    leverage 50, stakes 2000 and 6000 get 20, a stake of 2000000 raises. *)
Lemma get_max_leverage_scenario :
  get_max_leverage scenario_venue "BTC/USDT:USDT" (Some 0) = Ok 50
  /\ get_max_leverage scenario_venue "BTC/USDT:USDT" (Some 1000) = Ok 50
  /\ get_max_leverage scenario_venue "BTC/USDT:USDT" (Some 2000) = Ok 20
  /\ get_max_leverage scenario_venue "BTC/USDT:USDT" (Some 6000) = Ok 20
  /\ get_max_leverage scenario_venue "BTC/USDT:USDT" (Some 2000000)
     = Raise InvalidOrderException.
Proof.
  pose proof
    (fun s =>
       get_max_leverage_scan scenario_venue "BTC/USDT:USDT" _ _ s eq_refl
         eq_refl scenario_tiers_nonzero) as H.
  repeat split; rewrite H; reflexivity.
Defined.

(** Counterexample to C3 as stated: a stake of 2000 does not get
    leverage 50; it lies above the first tier's window [0, 1000] and gets
    the second tier's leverage 20. *)
Lemma get_max_leverage_stake_2000_not_50 :
  tier_max_stake (mk_tier 0 50000 (4 # 1000) 50) == 1000
  /\ exists lev,
       get_max_leverage scenario_venue "BTC/USDT:USDT" (Some 2000) = Ok lev
       /\ lev == 20 /\ ~ lev == 50.
Proof.
  split; [reflexivity|].
  exists 20. split; [reflexivity | split; [reflexivity | discriminate]].
Qed.

End MaxLeverage.

(** ** Liquidation price *)

Section Liquidation.







(** C10. In spot mode [get_liquidation_price] returns [None].  A number
    it returns is the buffered price clamped below at 0: the unbuffered
    price [liq] is the dry-run estimate or the [liquidationPrice] of the
    first fetched position, the buffer [|o - liq| * liquidation_buffer] is
    subtracted for a short and added for a long, and the result is that
    value when it is not negative and 0 when it is; so it is never
    negative.  Every unbuffered price is answered that way. *)
Theorem get_liquidation_price_spot_none_else_nonneg (self : Exchange)
    (pair : string) (o : Q) (is_short : bool) (a stake lev w : Q) :
  let price := get_liquidation_price self pair o is_short a stake lev w in
  let estimated := dry_run self || negb (exchange_has self "fetchPositions") in
  let buffered liq :=
    if is_short then liq - Qabs (o - liq) * liquidation_buffer self
    else liq + Qabs (o - liq) * liquidation_buffer self in
  (trading_mode self = SPOT -> price = Ok None)
  /\ (forall x, price = Ok (Some x) -> 0 <= x)
  /\ (forall x,
        price = Ok (Some x) ->
        exists liq,
          trading_mode self = FUTURES
          /\ ((estimated = true
               /\ dry_run_liquidation_price self pair o is_short a stake lev w
                  = Ok (Some liq))
              \/ (estimated = false
                  /\ exists pos rest,
                       fetch_positions self pair = Ok (pos :: rest)
                       /\ liquidationPrice pos = Some liq))
          /\ x = max_ (buffered liq) 0
          /\ (0 <= buffered liq -> x = buffered liq)
          /\ (buffered liq < 0 -> x = 0))
  /\ (forall liq,
        trading_mode self = FUTURES ->
        (estimated = true
         /\ dry_run_liquidation_price self pair o is_short a stake lev w
            = Ok (Some liq))
        \/ (estimated = false
            /\ exists pos rest,
                 fetch_positions self pair = Ok (pos :: rest)
                 /\ liquidationPrice pos = Some liq) ->
        price = Ok (Some (max_ (buffered liq) 0))).
Proof.
  intros price estimated buffered. subst price.
  unfold get_liquidation_price. fold estimated.
  split; [|split; [|split]].
  - intros ->. reflexivity.
  - intros x.
    destruct (bool_decide (trading_mode self = SPOT)); [discriminate|].
    destruct (bool_decide (trading_mode self <> FUTURES)); [discriminate|].
    destruct (if estimated then _ else _) as [[liq|]|e];
      cbn [mbind result_bind]; try discriminate.
    intros [= <-]. apply max__lb_r.
  - intros x.
    destruct (bool_decide (trading_mode self = SPOT)); [discriminate|].
    destruct (bool_decide (trading_mode self <> FUTURES)) eqn:Emode;
      [discriminate|].
    apply bool_decide_eq_false_1 in Emode.
    assert (trading_mode self = FUTURES) as Hfut
      by (destruct (trading_mode self); try reflexivity; exfalso;
          apply Emode; discriminate).
    assert (forall liq,
              Ok (Some (max_ (buffered liq) 0)) = Ok (Some x) ->
              x = max_ (buffered liq) 0
              /\ (0 <= buffered liq -> x = buffered liq)
              /\ (buffered liq < 0 -> x = 0)) as Hclamp.
    { intros liq [= <-]. split; [reflexivity|].
      unfold max_. split; intros H.
      - apply ltb_ge in H. now rewrite H.
      - apply ltb_lt in H. now rewrite H. }
    destruct estimated.
    + destruct (dry_run_liquidation_price self pair o is_short a stake lev w)
        as [[liq|]|e]; cbn [mbind result_bind]; try discriminate.
      intros Hx. exists liq. split; [exact Hfut|].
      split; [left; now split|]. now apply Hclamp.
    + destruct (fetch_positions self pair) as [[|pos rest]|e];
        cbn [mbind result_bind]; try discriminate.
      destruct (liquidationPrice pos) as [liq|] eqn:Eliq; try discriminate.
      intros Hx. exists liq. split; [exact Hfut|].
      split; [right; split; [reflexivity|]; now exists pos, rest|].
      now apply Hclamp.
  - intros liq Hfut Hraw. rewrite Hfut.
    rewrite bool_decide_eq_false_2 by discriminate.
    rewrite bool_decide_eq_false_2 by (intros H; now apply H).
    destruct Hraw as [(-> & ->)|(-> & pos & rest & -> & Hliq)].
    + reflexivity.
    + cbn [mbind result_bind]. now rewrite Hliq.
Qed.

(** Spot gives [None].  The short of the scenario is estimated at about
    109.5 and answered with the buffered price, which is positive.  A long
    whose wallet balance of 200 exceeds the position is estimated below
    zero, at about -100.45; the buffered price, about -90.4, is clamped
    and 0 is returned. *)
Lemma get_liquidation_price_scenarios :
  get_liquidation_price (venue_500 true) "BTC/USDT" 100 false 1 100 1 100
  = Ok None
  /\ (exists x,
        get_liquidation_price scenario_venue "BTC/USDT:USDT" 100 true 1 100
          10 10 = Ok (Some x)
        /\ 0 < x
        /\ x == (1100000000 # 10045000)
                - Qabs (100 - (1100000000 # 10045000)) * (5 # 100))
  /\ dry_run_liquidation_price scenario_venue "BTC/USDT:USDT" 100 false 1
       100 10 200 = Ok (Some (-1000000000 # 9955000))
  /\ get_liquidation_price scenario_venue "BTC/USDT:USDT" 100 false 1 100 10
       200 = Ok (Some 0).
Proof.
  split; [|split; [|split]].
  - apply (get_liquidation_price_spot_none_else_nonneg (venue_500 true)).
    reflexivity.
  - destruct (get_liquidation_price_spot_none_else_nonneg scenario_venue
                "BTC/USDT:USDT" 100 true 1 100 10 10) as (_ & _ & _ & Hall).
    eexists. split.
    + apply (Hall (1100000000 # 10045000)); [reflexivity|].
      left. split; vm_compute; reflexivity.
    + split; vm_compute; reflexivity.
  - vm_compute. reflexivity.
  - destruct (get_liquidation_price_spot_none_else_nonneg scenario_venue
                "BTC/USDT:USDT" 100 false 1 100 10 200) as (_ & _ & _ & Hall).
    rewrite (Hall (-1000000000 # 9955000)); [reflexivity | reflexivity |].
    left. split; vm_compute; reflexivity.
Defined.

End Liquidation.

(** ** Order-book walk of the dry-run simulator *)

Section OrderBookWalk.

Lemma Qsum_cons (x : Q) (l : list Q) : Qsum (x :: l) = x + Qsum l.
Proof. reflexivity. Qed.

Lemma total_volume_nonneg (book : list (Q * Q)) :
  well_formed_book book -> 0 <= total_volume book.
Proof.
  induction 1 as [|level rest [_ Hv] _ IH]; [discriminate|].
  unfold total_volume in *. cbn [map]. rewrite Qsum_cons. lra.
Qed.

Lemma book_value_wanted_compat (book : list (Q * Q)) (a a' : Q) :
  a == a' ->
  book_value (consumed_levels book a) == book_value (consumed_levels book a').
Proof.
  revert a a'. induction book as [|level rest IH]; intros a a' E.
  - reflexivity.
  - unfold book_value in *. cbn [consumed_levels map fst snd].
    rewrite !Qsum_cons.
    assert (Qmin (snd level) a == Qmin (snd level) a') as Em
      by (now rewrite E).
    rewrite (IH (a - Qmin (snd level) a) (a' - Qmin (snd level) a')).
    + now rewrite Em.
    + now rewrite Em, E.
Qed.

Lemma book_value_nothing_wanted (book : list (Q * Q)) (a : Q) :
  well_formed_book book -> a == 0 ->
  book_value (consumed_levels book a) == 0.
Proof.
  intros Hwf. revert a. induction Hwf as [|level rest [_ Hv] _ IH];
    intros a E.
  - reflexivity.
  - unfold book_value in *. cbn [consumed_levels map fst snd].
    rewrite Qsum_cons.
    assert (Qmin (snd level) a == 0) as Em
      by (rewrite E; apply Q.min_r; exact Hv).
    rewrite (IH (a - Qmin (snd level) a)) by (rewrite Em, E; reflexivity).
    rewrite Em. ring.
Qed.

(** With enough volume on the book the loop adds up price times taken
    volume. *)
Lemma fill_loop_enough_volume (book : list (Q * Q))
    (remaining filled price0 : Q) :
  well_formed_book book ->
  0 <= remaining -> remaining <= total_volume book ->
  fill_loop book remaining filled price0
  == filled + book_value (consumed_levels book remaining).
Proof.
  intros Hwf. revert remaining filled price0.
  induction Hwf as [|[p v] rest [Hp Hv] Hrest IH];
    intros remaining filled price0 H0 Htot.
  - unfold total_volume in Htot. cbn in Htot.
    cbn [fill_loop consumed_levels]. unfold book_value. cbn [map Qsum fold_right].
    assert (remaining == 0) as -> by lra. ring.
  - cbn [fst snd] in *. cbn [fill_loop consumed_levels fst snd].
    unfold book_value. cbn [map fst snd]. rewrite Qsum_cons.
    fold (book_value (consumed_levels rest (remaining - Qmin v remaining))).
    unfold total_volume in Htot. cbn [map snd] in Htot.
    rewrite Qsum_cons in Htot. fold (total_volume rest) in Htot.
    destruct (ltb 0 remaining) eqn:Epos.
    + apply ltb_lt in Epos.
      destruct (ltb remaining v) eqn:Elt.
      * apply ltb_lt in Elt.
        assert (Qmin v remaining == remaining) as Em
          by (apply Q.min_r; lra).
        rewrite (book_value_nothing_wanted rest
                   (remaining - Qmin v remaining)) by (assumption || lra).
        rewrite Em. ring.
      * apply ltb_ge in Elt.
        assert (Qmin v remaining == v) as Em by (apply Q.min_l; lra).
        rewrite (IH (remaining - v)) by lra.
        rewrite (book_value_wanted_compat rest (remaining - v)
                   (remaining - Qmin v remaining)) by (rewrite Em; reflexivity).
        set (bv := book_value _). rewrite Em. ring.
    + apply ltb_ge in Epos.
      assert (remaining == 0) as E0 by lra.
      assert (Qmin v remaining == 0) as Em
        by (rewrite E0; apply Q.min_r; exact Hv).
      rewrite (book_value_nothing_wanted rest
                 (remaining - Qmin v remaining)) by (assumption || lra).
      rewrite Em. ring.
Qed.

(** What the walk takes adds up to the wanted amount. *)
Lemma consumed_levels_total (book : list (Q * Q)) (wanted : Q) :
  well_formed_book book ->
  0 <= wanted -> wanted <= total_volume book ->
  total_volume (consumed_levels book wanted) == wanted.
Proof.
  intros Hwf. revert wanted.
  induction Hwf as [|[p v] rest [Hp Hv] Hrest IH]; intros wanted H0 Htot.
  - unfold total_volume in *. cbn in *. lra.
  - pose proof (total_volume_nonneg rest Hrest) as Hrest0.
    unfold total_volume in *. cbn [consumed_levels map fst snd] in *.
    rewrite Qsum_cons in *.
    destruct (Q.min_spec v wanted) as [[Hlt Em]|[Hge Em]].
    + rewrite (IH (wanted - Qmin v wanted)) by lra. lra.
    + rewrite (IH (wanted - Qmin v wanted)) by lra. lra.
Qed.

(** No level gives up more than its volume, nor a negative volume. *)
Lemma consumed_levels_bounded (book : list (Q * Q)) (wanted : Q) :
  well_formed_book book -> 0 <= wanted ->
  Forall2 (fun level taken =>
             fst taken = fst level /\ 0 <= snd taken <= snd level)
    book (consumed_levels book wanted).
Proof.
  intros Hwf. revert wanted.
  induction Hwf as [|[p v] rest [Hp Hv] Hrest IH]; intros wanted H0.
  - constructor.
  - cbn [fst snd] in Hp, Hv. cbn [consumed_levels fst snd]. constructor.
    + cbn [fst snd]. split; [reflexivity|].
      destruct (Q.min_spec v wanted) as [[Hlt Em]|[Hge Em]]; split; lra.
    + apply IH.
      destruct (Q.min_spec v wanted) as [[Hlt Em]|[Hge Em]]; lra.
Qed.

(** When the book runs out, the remainder is priced at the last level (at
    the initial [book_entry_price] when the book is empty). *)
Lemma fill_loop_book_exhausted (book : list (Q * Q))
    (remaining filled price0 : Q) :
  Forall (fun level => 0 <= snd level) book ->
  total_volume book < remaining ->
  fill_loop book remaining filled price0
  == filled + book_value book
     + (remaining - total_volume book) * List.last (map fst book) price0.
Proof.
  intros Hwf. revert remaining filled price0.
  induction Hwf as [|[p v] rest Hv Hrest IH];
    intros remaining filled price0 Htot.
  - cbn. ring.
  - cbn [fst snd] in *.
    unfold total_volume in Htot. cbn [map snd] in Htot.
    rewrite Qsum_cons in Htot. fold (total_volume rest) in Htot.
    assert (0 <= total_volume rest) as Hrest0.
    { clear - Hrest. induction Hrest as [|l r Hl _ IHr]; [discriminate|].
      unfold total_volume in *. cbn [map]. rewrite Qsum_cons. lra. }
    cbn [fill_loop fst snd].
    assert (ltb 0 remaining = true) as -> by (apply ltb_lt; lra).
    assert (ltb remaining v = false) as -> by (apply ltb_ge; lra).
    rewrite (IH (remaining - v)) by lra.
    unfold book_value, total_volume. cbn [map fst snd]. rewrite !Qsum_cons.
    assert (List.last (p :: map fst rest) price0 = List.last (map fst rest) p)
      as ->.
    { destruct rest as [|l r]; [reflexivity|]. cbn [map].
      change (List.last (p :: fst l :: map fst r) price0)
        with (List.last (fst l :: map fst r) price0).
      apply last_cons_default. }
    ring.
Qed.

End OrderBookWalk.

(** ** Dry-run market orders *)

Section DryRunMarketOrder.

Variable contracts_to_amount : Q -> option Q -> Q.
Variable amount_to_contracts : Q -> option Q -> Q.
Variable amount_to_precision : Q -> option Q -> PrecisionMode -> Q.
Variable price_to_precision :
  Q -> option Q -> PrecisionMode -> RoundingMode -> Q.

Lemma max__Qmax (a b : Q) : max_ a b == Qmax a b.
Proof.
  destruct (max__cases a b) as [[H ->]|[H ->]]; symmetry.
  - apply Q.max_r. lra.
  - apply Q.max_l. lra.
Qed.

Lemma min__Qmin (a b : Q) : min_ a b == Qmin a b.
Proof.
  destruct (min__cases a b) as [[H ->]|[H ->]]; symmetry.
  - apply Q.min_r. lra.
  - apply Q.min_l. lra.
Qed.

Lemma book_value_consumed_nonneg (book : list (Q * Q)) (wanted : Q) :
  well_formed_book book -> 0 <= wanted ->
  0 <= book_value (consumed_levels book wanted).
Proof.
  intros Hwf. revert wanted.
  induction Hwf as [|[p v] rest [Hp Hv] Hrest IH]; intros wanted H0.
  - discriminate.
  - cbn [fst snd] in Hp, Hv. unfold book_value in *.
    cbn [consumed_levels map fst snd]. rewrite Qsum_cons.
    assert (0 <= Qmin v wanted /\ Qmin v wanted <= wanted) as [M0 M1]
      by (destruct (Q.min_spec v wanted) as [[Hlt Em]|[Hge Em]]; split; lra).
    pose proof (IH (wanted - Qmin v wanted)) as IH'.
    pose proof (Qmult_le_0_compat _ _ Hp M0).
    lra.
Qed.

(** The forecast price before it is rounded to the price precision. *)
Lemma forecast_is_clamp (side : string) (rate filled amount raw : Q) :
  ~ amount == 0 ->
  Qmax filled 0 / amount == raw ->
  (if String.eqb side "buy"
   then min_ (max_ filled 0 / amount) (rate * (1 + (5 # 100)))
   else max_ (max_ filled 0 / amount) (rate * (1 - (5 # 100))))
  == slippage_clamp side rate raw.
Proof.
  intros Ha Hraw. unfold slippage_clamp.
  assert (max_ filled 0 / amount == raw) as E
    by (rewrite max__Qmax; exact Hraw).
  destruct (String.eqb side "buy").
  - rewrite min__Qmin, E. apply Q.min_compat; [reflexivity | ring].
  - rewrite max__Qmax, E. apply Q.max_compat; [reflexivity | ring].
Qed.

Lemma get_dry_market_fill_price_forecast (self : Exchange)
    (pair side : string) (amount rate : Q) (ob : OrderBook) :
  exchange_has self "fetchL2OrderBook" = true ->
  ~ amount == 0 ->
  get_dry_market_fill_price price_to_precision self pair side amount rate
    (Some ob)
  = Ok (Exchange_price_to_precision price_to_precision self pair
          (if String.eqb side "buy"
           then min_ (max_ (fill_loop (asks ob) amount 0 0) 0 / amount)
                  (rate * (1 + (5 # 100)))
           else max_ (max_ (fill_loop (bids ob) amount 0 0) 0 / amount)
                  (rate * (1 - (5 # 100))))
          ROUND).
Proof.
  intros Hhas Ha. unfold get_dry_market_fill_price.
  rewrite Hhas. cbn [mbind result_bind].
  rewrite (truediv_ok _ _ Ha). cbn [mbind result_bind].
  destruct (String.eqb side "buy"); reflexivity.
Qed.

(** A market order that is no stoploss is closed at once, at the forecast
    price, with the fee of [get_fee] for takers. *)
Lemma create_dry_run_market_order (self : Exchange)
    (store : gmap string CcxtOrder) (now_ts : Z) (now_str pair side : string)
    (amount rate leverage fill rate_taker : Q) (ob : OrderBook) :
  exchange_has self "fetchL2OrderBook" = true ->
  fetch_l2_order_book (api self) pair 20 = Ok ob ->
  get_dry_market_fill_price price_to_precision self pair side amount rate
    (Some ob) = Ok fill ->
  get_fee self pair taker = Ok rate_taker ->
  exists order,
    create_dry_run_order contracts_to_amount amount_to_contracts
      amount_to_precision price_to_precision self store now_ts now_str pair
      "market" side amount rate leverage false
    = Ok (order, <[id_ order := order]> store)
    /\ status order = "closed"%string
    /\ average order = fill
    /\ filled order = Exchange.amount order
    /\ fee order
       = Some {| fee_currency := get_pair_quote_currency self pair;
                 fee_cost := cost order * rate_taker;
                 fee_rate := rate_taker |}.
Proof.
  intros Hhas Hfetch Hfill Hfee.
  unfold create_dry_run_order, Exchange_fetch_l2_order_book.
  rewrite Hhas, Hfetch. cbn [mbind result_bind].
  cbn [String.eqb Ascii.eqb Bool.eqb andb]. cbn [mbind result_bind].
  cbn [order_type ft_order_type String.eqb Ascii.eqb Bool.eqb andb].
  rewrite bool_decide_eq_false_2 by (intros [x Hx]; discriminate).
  cbn [negb]. rewrite Hfill. cbn [mbind result_bind].
  unfold add_dry_order_fee. rewrite Hfee. cbn [mbind result_bind].
  unfold check_dry_limit_order_filled.
  cbn [status String.eqb Ascii.eqb Bool.eqb negb andb mbind result_bind].
  eexists. split; [reflexivity|]. cbn. repeat split; reflexivity.
Qed.

(** C5 (as the code has it). For a market order of amount [A > 0] whose
    side of a well-formed book holds at least [A]: the levels give up
    volumes adding up to [A]; the forecast price is the sum of price times
    taken volume divided by [A], clamped to at most [rate * 1.05] for a buy
    and at least [rate * 0.95] for a sell; the returned fill price is that
    forecast put through [price_to_precision]; and the order is closed at
    that price with the taker fee of [get_fee]. *)
Theorem dry_market_fill_price_walk_and_fee (self : Exchange)
    (store : gmap string CcxtOrder) (now_ts : Z) (now_str pair side : string)
    (A rate leverage rate_taker : Q) (ob : OrderBook) :
  exchange_has self "fetchL2OrderBook" = true ->
  fetch_l2_order_book (api self) pair 20 = Ok ob ->
  get_fee self pair taker = Ok rate_taker ->
  let book := if String.eqb side "buy" then asks ob else bids ob in
  well_formed_book book ->
  0 < A -> A <= total_volume book ->
  let taken := consumed_levels book A in
  exists forecast order,
    total_volume taken == A
    /\ forecast == slippage_clamp side rate (book_value taken / A)
    /\ (side = "buy"%string -> forecast <= rate * (105 # 100))
    /\ (side = "sell"%string -> rate * (95 # 100) <= forecast)
    /\ get_dry_market_fill_price price_to_precision self pair side A rate
         (Some ob)
       = Ok (Exchange_price_to_precision price_to_precision self pair
               forecast ROUND)
    /\ create_dry_run_order contracts_to_amount amount_to_contracts
         amount_to_precision price_to_precision self store now_ts now_str
         pair "market" side A rate leverage false
       = Ok (order, <[id_ order := order]> store)
    /\ status order = "closed"%string
    /\ average order
       = Exchange_price_to_precision price_to_precision self pair forecast
           ROUND
    /\ fee order
       = Some {| fee_currency := get_pair_quote_currency self pair;
                 fee_cost := cost order * rate_taker;
                 fee_rate := rate_taker |}.
Proof.
  intros Hhas Hfetch Hfee book Hwf HA Htot taken.
  assert (~ A == 0) as HA0 by lra.
  pose proof (get_dry_market_fill_price_forecast self pair side A rate ob
                Hhas HA0) as Hfill.
  destruct (create_dry_run_market_order self store now_ts now_str pair side
              A rate leverage _ rate_taker ob Hhas Hfetch Hfill Hfee)
    as (order & Horder & Hstatus & Havg & _ & Hfee').
  pose proof (fill_loop_enough_volume book A 0 0 Hwf) as Hloop.
  pose proof (book_value_consumed_nonneg book A Hwf) as Hnn.
  fold taken in Hloop, Hnn.
  assert (Qmax (fill_loop book A 0 0) 0 / A == book_value taken / A) as Hraw.
  { apply Qdiv_comp; [|reflexivity]. rewrite Q.max_l; lra. }
  pose proof (forecast_is_clamp side rate (fill_loop book A 0 0) A _ HA0
                Hraw) as Hclamp.
  subst book. unfold slippage_clamp in Hclamp |- *.
  destruct (String.eqb side "buy") eqn:Eside.
  - eexists. exists order.
    split; [apply (consumed_levels_total _ _ Hwf); lra|].
    split; [exact Hclamp|].
    split; [intros _; rewrite Hclamp; apply Q.le_min_r|].
    split; [intros ->; discriminate|].
    repeat split; assumption.
  - eexists. exists order.
    split; [apply (consumed_levels_total _ _ Hwf); lra|].
    split; [exact Hclamp|].
    split; [intros ->; discriminate|].
    split; [intros _; rewrite Hclamp; apply Q.le_max_r|].
    repeat split; assumption.
Qed.

(** C9. When the wanted amount exceeds what the walked side of the book
    holds, every level is taken whole and the remainder is priced at the
    last level's price (at 0, the initial [book_entry_price], on an empty
    side); that value, floored at 0, is divided by the amount, clamped and
    rounded to the price precision: the call returns a price. *)
Theorem dry_market_fill_price_book_exhausted (self : Exchange)
    (pair side : string) (A rate : Q) (ob : OrderBook) :
  exchange_has self "fetchL2OrderBook" = true ->
  let book := if String.eqb side "buy" then asks ob else bids ob in
  Forall (fun level => 0 <= snd level) book ->
  total_volume book < A ->
  exists filled forecast,
    filled
    == book_value book
       + (A - total_volume book) * List.last (map fst book) 0
    /\ forecast == slippage_clamp side rate (Qmax filled 0 / A)
    /\ get_dry_market_fill_price price_to_precision self pair side A rate
         (Some ob)
       = Ok (Exchange_price_to_precision price_to_precision self pair
               forecast ROUND).
Proof.
  intros Hhas book Hvol Htot.
  assert (0 <= total_volume book) as Hnn.
  { clear - Hvol. induction Hvol as [|l r Hl _ IHr]; [discriminate|].
    unfold total_volume in *. cbn [map]. rewrite Qsum_cons. lra. }
  assert (~ A == 0) as HA0 by lra.
  pose proof (get_dry_market_fill_price_forecast self pair side A rate ob
                Hhas HA0) as Hfill.
  pose proof (fill_loop_book_exhausted book A 0 0 Hvol Htot) as Hloop.
  rewrite Qplus_0_l in Hloop.
  pose proof (forecast_is_clamp side rate (fill_loop book A 0 0) A _ HA0
                (Qeq_refl _)) as Hclamp.
  subst book.
  destruct (String.eqb side "buy") eqn:Eside;
    (eexists; eexists; split; [exact Hloop|]; split; [exact Hclamp|];
     exact Hfill).
Qed.

End DryRunMarketOrder.

Section DryRunScenarios.

Lemma scenario_asks_well_formed : well_formed_book (asks scenario_book).
Proof. repeat constructor; discriminate. Defined.

(** The dry-run fill scenario at reference rate 11: the forecast is
    [(10 * 1 + 11 * 2) / 3], below the cap, and the order is closed with
    the taker fee 0.1%. *)
Lemma dry_market_fill_price_scenario :
  exists forecast order,
    forecast == (10 * 1 + 11 * 2) / 3
    /\ get_dry_market_fill_price price_to_precision_decimal
         (spot_venue scenario_book) "BTC/USDT" "buy" 3 11 (Some scenario_book)
       = Ok (Exchange_price_to_precision price_to_precision_decimal
               (spot_venue scenario_book) "BTC/USDT" forecast ROUND)
    /\ create_dry_run_order contracts_to_amount_spec amount_to_contracts_spec
         amount_to_precision_decimal price_to_precision_decimal
         (spot_venue scenario_book) ∅ 0 "0.0" "BTC/USDT" "market" "buy" 3 11
         1 false
       = Ok (order, <[id_ order := order]> ∅)
    /\ status order = "closed"%string
    /\ fee order
       = Some {| fee_currency := "USDT";
                 fee_cost := cost order * (1 # 1000);
                 fee_rate := 1 # 1000 |}.
Proof.
  destruct
    (dry_market_fill_price_walk_and_fee contracts_to_amount_spec
       amount_to_contracts_spec amount_to_precision_decimal
       price_to_precision_decimal (spot_venue scenario_book) ∅ 0 "0.0"
       "BTC/USDT" "buy" 3 11 1 (1 # 1000) scenario_book eq_refl eq_refl
       eq_refl scenario_asks_well_formed eq_refl)
    as (forecast & order & _ & Hclamp & _ & _ & Hfill & Horder & Hstatus
        & _ & Hfee).
  { discriminate. }
  exists forecast, order.
  split; [rewrite Hclamp; reflexivity|].
  repeat split; assumption.
Defined.

(** Counterexample to C5 as stated: with two price decimals the
    returned price for reference rate 10.102 is 10.61, above the cap
    [10.102 * 1.05 = 10.6071]; and at reference rate 11 the returned price
    is 10.67, not the raw average [(10 * 1 + 11 * 2) / 3]. *)
Lemma dry_market_fill_price_rounded_past_cap :
  (exists x,
     get_dry_market_fill_price price_to_precision_decimal
       (spot_venue scenario_book) "BTC/USDT" "buy" 3 (10102 # 1000)
       (Some scenario_book) = Ok x
     /\ x == 1061 # 100
     /\ (10102 # 1000) * (105 # 100) < x)
  /\ (exists x,
        get_dry_market_fill_price price_to_precision_decimal
          (spot_venue scenario_book) "BTC/USDT" "buy" 3 11
          (Some scenario_book) = Ok x
        /\ x == 1067 # 100
        /\ ~ x == (10 * 1 + 11 * 2) / 3).
Proof.
  split; eexists; (split; [vm_compute; reflexivity|]).
  - split; reflexivity.
  - split; [reflexivity | discriminate].
Qed.

(** A buy of 10 against asks holding 8: the missing 2 are priced at the
    last level's 12, so the filled value is [10 + 22 + 60 + 2 * 12]. *)
Lemma dry_market_fill_price_exhausted_scenario :
  exists filled forecast,
    filled == 116
    /\ forecast == 116 # 10
    /\ get_dry_market_fill_price price_to_precision_decimal
         (spot_venue scenario_book) "BTC/USDT" "buy" 10 12
         (Some scenario_book)
       = Ok (Exchange_price_to_precision price_to_precision_decimal
               (spot_venue scenario_book) "BTC/USDT" forecast ROUND).
Proof.
  destruct
    (dry_market_fill_price_book_exhausted price_to_precision_decimal
       (spot_venue scenario_book) "BTC/USDT" "buy" 10 12 scenario_book
       eq_refl)
    as (filled & forecast & Hfilled & Hclamp & Hfill).
  { repeat constructor; discriminate. }
  { reflexivity. }
  exists filled, forecast.
  cbn [String.eqb Ascii.eqb Bool.eqb] in Hfilled.
  split; [rewrite Hfilled; reflexivity|].
  split; [|exact Hfill].
  rewrite Hclamp. unfold slippage_clamp. cbn [String.eqb Ascii.eqb Bool.eqb].
  assert (Qmax filled 0 == 116) as ->.
  { rewrite Q.max_l; [|rewrite Hfilled; discriminate].
    rewrite Hfilled. reflexivity. }
  reflexivity.
Defined.

End DryRunScenarios.

(** ** Stake-amount limits *)

Section StakeLimits.

Variable contracts_to_amount : Q -> option Q -> Q.

Lemma max_list_ge_start (x : Q) (l : list Q) : x <= max_list x l.
Proof.
  revert x. induction l as [|y l IH]; intros x; [apply Qle_refl|].
  unfold max_list in *. cbn [fold_left].
  pose proof (IH (max_ x y)). pose proof (max__lb_l x y). lra.
Qed.

Lemma max_list_upper_bound (x : Q) (l : list Q) :
  Forall (fun y => y <= max_list x l) (x :: l).
Proof.
  constructor; [apply max_list_ge_start|].
  revert x. induction l as [|y l IH]; intros x; constructor.
  - unfold max_list. cbn [fold_left].
    pose proof (max_list_ge_start (max_ x y) l) as H. unfold max_list in H.
    pose proof (max__lb_r x y). lra.
  - apply IH.
Qed.

Lemma max_list_member (x : Q) (l : list Q) : In (max_list x l) (x :: l).
Proof.
  revert x. induction l as [|y l IH]; intros x; [now left|].
  unfold max_list in *. cbn [fold_left].
  destruct (IH (max_ x y)) as [E|Hin].
  - rewrite <- E.
    destruct (max__cases x y) as [[_ ->]|[_ ->]]; [right; now left | now left].
  - right. now right.
Qed.

Lemma min_list_le_start (x : Q) (l : list Q) : min_list x l <= x.
Proof.
  revert x. induction l as [|y l IH]; intros x; [apply Qle_refl|].
  unfold min_list in *. cbn [fold_left].
  pose proof (IH (min_ x y)). pose proof (min__ub_l x y). lra.
Qed.

Lemma min_list_lower_bound (x : Q) (l : list Q) :
  Forall (fun y => min_list x l <= y) (x :: l).
Proof.
  constructor; [apply min_list_le_start|].
  revert x. induction l as [|y l IH]; intros x; constructor.
  - unfold min_list. cbn [fold_left].
    pose proof (min_list_le_start (min_ x y) l) as H. unfold min_list in H.
    pose proof (min__ub_r x y). lra.
  - apply IH.
Qed.

Lemma min_list_member (x : Q) (l : list Q) : In (min_list x l) (x :: l).
Proof.
  revert x. induction l as [|y l IH]; intros x; [now left|].
  unfold min_list in *. cbn [fold_left].
  destruct (IH (min_ x y)) as [E|Hin].
  - rewrite <- E.
    destruct (min__cases x y) as [[_ ->]|[_ ->]]; [right; now left | now left].
  - right. now right.
Qed.

Lemma or__leverage (leverage : Q) :
  or_ (Some leverage) 1 = (if eqb leverage 0 then 1 else leverage)
  /\ ~ or_ (Some leverage) 1 == 0.
Proof.
  unfold or_, truthy. destruct (eqb leverage 0) eqn:E; cbn [negb].
  - split; [reflexivity | discriminate].
  - split; [reflexivity | now apply eqb_neq].
Qed.

(** The candidates on the min side: the cost minimum times the stoploss
    reserve, which lies in [1, 1.5], and the amount minimum times price
    times the margin reserve. *)
Lemma stake_limits_min_side (self : Exchange) (market : Market)
    (pair : string) (price stoploss leverage : Q) :
  let margin_reserve :=
    1 + default DEFAULT_AMOUNT_RESERVE_PERCENT (amount_reserve_percent self) in
  exists stoploss_reserve,
    1 <= stoploss_reserve <= 15 # 10
    /\ stake_limits contracts_to_amount self market pair price stoploss true
         leverage
       = Ok (match lim_min (limits_cost market) with
             | Some c =>
                 [_contracts_to_amount contracts_to_amount self pair c
                  * stoploss_reserve]
             | None => []
             end
             ++ match lim_min (limits_amount market) with
                | Some a =>
                    [_contracts_to_amount contracts_to_amount self pair a
                     * price * margin_reserve]
                | None => []
                end).
Proof.
  intros margin_reserve. unfold stake_limits. fold margin_reserve.
  assert (forall x, 1 <= max_ (min_ x (15 # 10)) 1 <= 15 # 10) as Hclamp.
  { intros x. pose proof (max__lb_r (min_ x (15 # 10)) 1).
    destruct (max__cases (min_ x (15 # 10)) 1) as [[H1 ->]|[H1 ->]];
      pose proof (min__ub_r x (15 # 10)); split; lra. }
  destruct (negb (eqb (Qabs stoploss) 1)) eqn:E.
  - apply negb_true_iff, eqb_neq in E.
    rewrite truediv_ok by (intros H; apply E; lra).
    cbn [mbind result_bind fst snd]. eexists. split; [apply Hclamp|].
    destruct (lim_min (limits_cost market)),
      (lim_min (limits_amount market)); reflexivity.
  - cbn [mbind result_bind fst snd]. eexists. split; [apply Hclamp|].
    destruct (lim_min (limits_cost market)),
      (lim_min (limits_amount market)); reflexivity.
Qed.

(** C6 (as the code has it). When the market is known and both lists of
    candidate limits are non-empty, the minimum stake is the largest
    min-side candidate and the maximum stake the smallest max-side
    candidate, each divided by the leverage (by 1 when the leverage is 0);
    the minimum is at most the maximum when the leverage is positive and
    the largest min-side candidate does not exceed the smallest max-side
    one. *)
Theorem stake_amount_limits_consolidated (self : Exchange) (pair : string)
    (market : Market) (price stoploss leverage m0 M0 : Q)
    (mins maxs : list Q) :
  markets self !! pair = Some market ->
  stake_limits contracts_to_amount self market pair price stoploss true
    leverage = Ok (m0 :: mins) ->
  stake_limits contracts_to_amount self market pair price 0 false leverage
  = Ok (M0 :: maxs) ->
  let divisor := if eqb leverage 0 then 1 else leverage in
  let lo := max_list m0 mins / divisor in
  let hi := min_list M0 maxs / divisor in
  get_min_pair_stake_amount contracts_to_amount self pair price stoploss
    leverage = Ok (Some (Fin lo))
  /\ get_max_pair_stake_amount contracts_to_amount self pair price leverage
     = Ok (Fin hi)
  /\ In (max_list m0 mins) (m0 :: mins)
  /\ Forall (fun limit => limit <= max_list m0 mins) (m0 :: mins)
  /\ In (min_list M0 maxs) (M0 :: maxs)
  /\ Forall (fun limit => min_list M0 maxs <= limit) (M0 :: maxs)
  /\ (0 < leverage -> max_list m0 mins <= min_list M0 maxs -> lo <= hi).
Proof.
  intros Hm Hmin Hmax divisor lo hi.
  destruct (or__leverage leverage) as [Hdiv Hnz]. fold divisor in Hdiv.
  split; [|split].
  - unfold get_min_pair_stake_amount, _get_stake_amount_limit.
    rewrite Hm. cbn [mbind result_bind]. rewrite Hmin.
    cbn [mbind result_bind]. unfold _get_stake_amount_considering_leverage.
    rewrite (truediv_ok _ _ Hnz), Hdiv. reflexivity.
  - unfold get_max_pair_stake_amount, _get_stake_amount_limit.
    rewrite Hm. cbn [mbind result_bind]. rewrite Hmax.
    cbn [mbind result_bind]. unfold _get_stake_amount_considering_leverage.
    rewrite (truediv_ok _ _ Hnz), Hdiv. reflexivity.
  - split; [apply max_list_member|].
    split; [apply max_list_upper_bound|].
    split; [apply min_list_member|].
    split; [apply min_list_lower_bound|].
    intros Hlev Hle. subst lo hi divisor.
    assert (eqb leverage 0 = false) as -> by (apply eqb_neq; lra).
    unfold Qdiv. apply Qmult_le_compat_r; [exact Hle|].
    apply Qlt_le_weak, Qinv_lt_0_compat, Hlev.
Qed.

End StakeLimits.

Section StakeLimitScenarios.

(** BTC/USDT at price 10 with a 10% stoploss: the minimum stake 10.5 lies
    below the maximum stake 50. *)
Lemma stake_amount_limits_scenario :
  exists lo hi,
    get_min_pair_stake_amount contracts_to_amount_spec
      (spot_venue scenario_book) "BTC/USDT" 10 (-1 # 10) 1
    = Ok (Some (Fin lo))
    /\ get_max_pair_stake_amount contracts_to_amount_spec
         (spot_venue scenario_book) "BTC/USDT" 10 1 = Ok (Fin hi)
    /\ lo == 105 # 10 /\ hi == 50 /\ lo <= hi.
Proof.
  destruct
    (stake_amount_limits_consolidated contracts_to_amount_spec
       (spot_venue scenario_book) "BTC/USDT" spot_market 10 (-1 # 10) 1
       _ _ _ _ eq_refl eq_refl eq_refl)
    as (Hmin & Hmax & _ & _ & _ & _ & Hle).
  eexists. eexists.
  split; [exact Hmin|]. split; [exact Hmax|].
  split; [reflexivity|]. split; [reflexivity|].
  apply Hle; [reflexivity | discriminate].
Defined.

(** Counterexample to C6 as stated: BTC/USDT is
    tradable, its amount limits are [1, 1000] and its cost limits [1, 50];
    at price 100 the minimum stake 105 exceeds the maximum stake 50. *)
Lemma min_stake_above_max_stake :
  market_is_tradable (spot_venue scenario_book) spot_market = true
  /\ exists lo hi,
       get_min_pair_stake_amount contracts_to_amount_spec
         (spot_venue scenario_book) "BTC/USDT" 100 (-1 # 10) 1
       = Ok (Some (Fin lo))
       /\ get_max_pair_stake_amount contracts_to_amount_spec
            (spot_venue scenario_book) "BTC/USDT" 100 1 = Ok (Fin hi)
       /\ lo == 105 /\ hi == 50 /\ hi < lo.
Proof.
  split; [reflexivity|].
  eexists. eexists.
  split; [vm_compute; reflexivity|].
  split; [vm_compute; reflexivity|].
  repeat split.
Qed.

End StakeLimitScenarios.

(** ** Funding fees *)

Section FundingFees.

Lemma sum_from (l : list Q) (a : Q) : fold_left Qplus l a == a + Qsum l.
Proof.
  revert a. induction l as [|x l IH]; intros a; cbn [fold_left].
  - unfold Qsum. cbn. ring.
  - rewrite IH, Qsum_cons. ring.
Qed.

Lemma sum_Qsum (l : list Q) : sum l == Qsum l.
Proof. unfold sum. rewrite sum_from. ring. Qed.

Lemma Qsum_map_ext {A} (f g : A -> Q) (l : list A) :
  (forall x, f x == g x) -> Qsum (map f l) == Qsum (map g l).
Proof.
  intros H. induction l as [|x l IH]; [reflexivity|].
  cbn [map]. rewrite !Qsum_cons, IH, H. reflexivity.
Qed.

Lemma merge_left_fillna_no_funding (mark_rates : list Candle) (fill : Q) :
  merge_left_fillna mark_rates [] fill
  = map (fun m => with_fund m fill) mark_rates.
Proof.
  unfold merge_left_fillna.
  induction mark_rates as [|m l IH]; simpl; [reflexivity | now f_equal].
Qed.

Lemma in_merge_inner (mark_rates funding_rates : list Candle)
    (row : FundingMarkRow) :
  In row (merge_inner mark_rates funding_rates)
  <-> exists m f,
        In m mark_rates /\ In f funding_rates /\ date f = date m
        /\ row = with_fund m (open f).
Proof.
  unfold merge_inner. rewrite in_flat_map. split.
  - intros (m & Hm & Hrow). apply in_map_iff in Hrow.
    destruct Hrow as (f & <- & Hf). apply filter_In in Hf.
    destruct Hf as [Hf Hd]. apply Z.eqb_eq in Hd.
    exists m, f. auto.
  - intros (m & f & Hm & Hf & Hd & ->). exists m. split; [exact Hm|].
    apply in_map_iff. exists f. split; [reflexivity|].
    apply filter_In. split; [exact Hf|]. now apply Z.eqb_eq.
Qed.

Lemma in_merge_left_fillna (mark_rates funding_rates : list Candle)
    (fill : Q) (row : FundingMarkRow) :
  In row (merge_left_fillna mark_rates funding_rates fill)
  <-> exists m,
        In m mark_rates
        /\ ((exists f,
               In f funding_rates /\ date f = date m
               /\ row = with_fund m (open f))
            \/ ((forall f, In f funding_rates -> date f <> date m)
                /\ row = with_fund m fill)).
Proof.
  unfold merge_left_fillna. rewrite in_flat_map.
  split.
  - intros (m & Hm & Hrow). exists m. split; [exact Hm|].
    destruct (List.filter _ funding_rates) as [|f0 fs] eqn:Ef.
    + right. destruct Hrow as [<-|[]]. split; [|reflexivity].
      intros f Hf Hd.
      assert (In f (List.filter (fun f => (date f =? date m)%Z)
                      funding_rates)) as Hin
        by (apply filter_In; split; [exact Hf | now apply Z.eqb_eq]).
      rewrite Ef in Hin. destruct Hin.
    + left. rewrite <- Ef in Hrow. apply in_map_iff in Hrow.
      destruct Hrow as (f & <- & Hf). apply filter_In in Hf.
      destruct Hf as [Hf Hd]. apply Z.eqb_eq in Hd. exists f. auto.
  - intros (m & Hm & Hcase). exists m. split; [exact Hm|].
    destruct Hcase as [(f & Hf & Hd & ->)|[Hnone ->]].
    + assert (In f (List.filter (fun f => (date f =? date m)%Z)
                      funding_rates)) as Hin
        by (apply filter_In; split; [exact Hf | now apply Z.eqb_eq]).
      destruct (List.filter _ funding_rates) as [|f0 fs] eqn:Ef;
        [destruct Hin|].
      apply in_map_iff. exists f. split; [reflexivity | exact Hin].
    + destruct (List.filter _ funding_rates) as [|f0 fs] eqn:Ef;
        [now left|].
      exfalso.
      assert (In f0 (List.filter (fun f => (date f =? date m)%Z)
                       funding_rates)) as Hin by (rewrite Ef; now left).
      apply filter_In in Hin. destruct Hin as [Hf Hd].
      apply Z.eqb_eq in Hd. exact (Hnone f0 Hf Hd).
Qed.

(** C7. The dry-run funding fee is the sum of
    [mark_open * funding_open * amount] over the rows dated within
    [open_date, close_date], returned as it is for a short and negated for
    a long.  Without a synthetic funding rate the two tables are
    inner-joined on the date (a row for every mark candle and funding
    candle of equal date); with one, every mark candle is kept and takes
    the synthetic rate where no funding candle has its date. *)
Theorem funding_fees_sum_and_merge (df : list FundingMarkRow) (amount : Q)
    (is_short : bool) (open_date close_date : Z)
    (funding_rates mark_rates : list Candle) :
  let total :=
    Qsum (map (fun r => open_mark r * open_fund r * amount)
            (rows_between open_date close_date df)) in
  calculate_funding_fees df amount is_short open_date close_date
  == (if is_short then total else - total)
  /\ (forall r, In r (rows_between open_date close_date df)
                <-> In r df /\ (open_date <= row_date r <= close_date)%Z)
  /\ combine_funding_and_mark funding_rates mark_rates None
     = merge_inner mark_rates funding_rates
  /\ (forall fill,
        combine_funding_and_mark funding_rates mark_rates (Some fill)
        = merge_left_fillna mark_rates funding_rates fill)
  /\ (forall row,
        In row (combine_funding_and_mark funding_rates mark_rates None)
        <-> exists m f,
              In m mark_rates /\ In f funding_rates /\ date f = date m
              /\ row = with_fund m (open f))
  /\ (forall fill row,
        In row (combine_funding_and_mark funding_rates mark_rates (Some fill))
        <-> exists m,
              In m mark_rates
              /\ ((exists f,
                     In f funding_rates /\ date f = date m
                     /\ row = with_fund m (open f))
                  \/ ((forall f, In f funding_rates -> date f <> date m)
                      /\ row = with_fund m fill))).
Proof.
  intros total.
  assert (forall fill,
            combine_funding_and_mark funding_rates mark_rates (Some fill)
            = merge_left_fillna mark_rates funding_rates fill) as Hleft.
  { intros fill. unfold combine_funding_and_mark.
    destruct funding_rates as [|f fs]; [|reflexivity].
    cbn [length Nat.eqb]. symmetry. apply merge_left_fillna_no_funding. }
  split; [|split; [|split; [|split; [|split]]]].
  - unfold calculate_funding_fees.
    assert (sum (map (fun r => open_fund r * open_mark r * amount)
                   (rows_between open_date close_date df)) == total) as E.
    { rewrite sum_Qsum. apply Qsum_map_ext. intros r. ring. }
    destruct df as [|r0 df'].
    + subst total. cbn. destruct is_short; reflexivity.
    + fold (rows_between open_date close_date (r0 :: df')).
      destruct is_short; rewrite E; reflexivity.
  - intros r. unfold rows_between. rewrite filter_In.
    rewrite andb_true_iff, !Z.leb_le. tauto.
  - reflexivity.
  - exact Hleft.
  - intros row. apply in_merge_inner.
  - intros fill row. rewrite Hleft. apply in_merge_left_fillna.
Qed.

(** Two units held from hour 0 to hour 16: the inner join keeps hours 0
    and 16, the fee is [(100 * 0.001 - 120 * 0.001) * 2 = -0.04] for a
    short and 0.04 for a long; with the synthetic rate 0.0001 hour 8 is
    kept as well. *)
Lemma funding_fees_scenario :
  map row_date (combine_funding_and_mark scenario_funding scenario_mark None)
  = [0; 16]%Z
  /\ map row_date
       (combine_funding_and_mark scenario_funding scenario_mark
          (Some (1 # 10000)))
     = [0; 8; 16]%Z
  /\ calculate_funding_fees
       (combine_funding_and_mark scenario_funding scenario_mark None) 2 true
       0 16 == - (4 # 100)
  /\ calculate_funding_fees
       (combine_funding_and_mark scenario_funding scenario_mark None) 2 false
       0 16 == 4 # 100.
Proof.
  split; [reflexivity|]. split; [reflexivity|].
  split.
  - destruct
      (funding_fees_sum_and_merge
         (combine_funding_and_mark scenario_funding scenario_mark None) 2
         true 0 16 scenario_funding scenario_mark) as [-> _].
    reflexivity.
  - destruct
      (funding_fees_sum_and_merge
         (combine_funding_and_mark scenario_funding scenario_mark None) 2
         false 0 16 scenario_funding scenario_mark) as [-> _].
    reflexivity.
Defined.

End FundingFees.

(** ** Public trade history *)

Section TradeHistoryDispatch.

Variable Trades : Type.
Variable _async_get_trade_history_time :
  string -> Z -> Z -> result (string * Trades).
Variable _async_get_trade_history_id :
  string -> Z -> Z -> option string -> result (string * Trades).
Variable milliseconds : Z.

(** C8 (as the code has it). When the pagination dialect is neither
    ["time"] nor ["id"], the pull raises [OperationalException], whatever
    the two paginated pulls would have answered. *)
Theorem trade_history_unknown_dialect_raises (self : Exchange)
    (pair : string) (since : Z) (until : option Z) (from_id : option string) :
  _trades_pagination self <> "time"%string ->
  _trades_pagination self <> "id"%string ->
  _async_get_trade_history Trades _async_get_trade_history_time
    _async_get_trade_history_id milliseconds self pair since until from_id
  = Raise OperationalException.
Proof.
  intros Htime Hid. unfold _async_get_trade_history.
  apply String.eqb_neq in Htime, Hid. now rewrite Htime, Hid.
Qed.

End TradeHistoryDispatch.

Section TradeHistoryScenarios.

(** A venue configured with an unknown dialect raises although both
    paginated pulls would succeed. *)
Lemma trade_history_unknown_dialect_scenario :
  _async_get_trade_history (list Z) (fun p _ _ => Ok (p, [1%Z]))
    (fun p _ _ _ => Ok (p, [2%Z])) 0 (paginating_venue "cursor") "BTC/USDT" 0
    None None
  = Raise OperationalException.
Proof.
  apply trade_history_unknown_dialect_raises; discriminate.
Defined.

(** Counterexample to C8 as stated: the class raised is not named
    NotPaginatable. *)
Lemma trade_history_error_is_not_NotPaginatable :
  exists e,
    _async_get_trade_history (list Z) (fun p _ _ => Ok (p, [1%Z]))
      (fun p _ _ _ => Ok (p, [2%Z])) 0 (paginating_venue "cursor")
      "BTC/USDT" 0 None None
    = Raise e
    /\ exn_name e = "OperationalException"%string
    /\ exn_name e <> "NotPaginatable"%string.
Proof.
  exists OperationalException. repeat split. discriminate.
Qed.

End TradeHistoryScenarios.

(** * Further properties of the modelled code *)

(** ** Startup candles: the accepted range *)

Section StartupCandlesRange.

Lemma Qceiling_bounds (x : Q) (n : Z) :
  Qceiling x = n -> inject_Z (n - 1) < x /\ x <= inject_Z n.
Proof.
  intros <-. split; [apply Qceiling_lt | apply Qle_ceiling].
Qed.

Lemma lt_div_mult (a b c : Q) : 0 < c -> a < b / c -> a * c < b.
Proof.
  intros Hc H.
  assert (b == b / c * c) as -> by (field; lra).
  now apply Qmult_lt_compat_r.
Qed.

Lemma div_le_mult (a b c : Q) : 0 < c -> b / c <= a -> b <= a * c.
Proof.
  intros Hc H.
  assert (b == b / c * c) as -> by (field; lra).
  apply Qmult_le_compat_r; [exact H | lra].
Qed.

Lemma ratio_le_iff (c L k : Z) :
  (0 < L)%Z ->
  (Qceiling (inject_Z c / inject_Z L) <= k)%Z <-> (c <= k * L)%Z.
Proof.
  intros HL.
  assert (0 < inject_Z L) as HLq
    by (change 0 with (inject_Z 0); now rewrite <- Zlt_Qlt).
  destruct (Qceiling_bounds _ _ (eq_refl (Qceiling (inject_Z c / inject_Z L))))
    as [Hlo Hhi].
  set (n := Qceiling (inject_Z c / inject_Z L)) in *.
  apply (lt_div_mult _ _ _ HLq) in Hlo.
  apply (div_le_mult _ _ _ HLq) in Hhi.
  rewrite <- inject_Z_mult in Hlo, Hhi.
  rewrite <- Zlt_Qlt in Hlo. rewrite <- Zle_Qle in Hhi.
  split; intros H; nia.
Qed.

Variable Datetime : Type.
Variable date_minus_candles : string -> Z -> result Datetime.
Variable dt_ts : Datetime -> result Z.

(** X1. With a positive candle limit [L] and [s >= 0] startup candles
    whose start date can be computed (or with no timeframe), the
    configuration is accepted exactly when [s + 1 <= 5 * L] on a venue
    with history and when [s + 1 <= L] on one without; an accepted count
    [n] is at least 1 and is the least number of calls covering [s + 1]
    candles. *)
Theorem startup_candles_accepted_range (self : Exchange)
    (startup_candles : Z) (timeframe : string) :
  let L := ohlcv_candle_limit self timeframe (candle_type_def self) None in
  let outcome :=
    validate_required_startup_candles Datetime date_minus_candles dt_ts self
      startup_candles timeframe in
  (0 <= startup_candles)%Z -> (0 < L)%Z ->
  timeframe = EmptyString
  \/ (exists date since_ms,
        date_minus_candles timeframe startup_candles = Ok date
        /\ dt_ts date = Ok since_ms) ->
  (is_ok outcome = true
   <-> (startup_candles + 1
        <= (if ohlcv_has_history (ft_has self) then 5 else 1) * L)%Z)
  /\ (forall n, outcome = Ok n ->
        (1 <= n /\ (n - 1) * L < startup_candles + 1 <= n * L)%Z).
Proof.
  intros L outcome Hs HL Hdate. subst outcome.
  destruct (startup_since_ms_returns Datetime date_minus_candles dt_ts
              startup_candles timeframe Hdate) as (since_ms & Hsince).
  unfold validate_required_startup_candles. rewrite Hsince.
  cbn [mbind result_bind].
  change (ohlcv_candle_limit self timeframe (candle_type_def self) since_ms)
    with L.
  pose proof (inject_Z_pos_neq0 L HL) as HL0.
  rewrite (truediv_ok _ _ HL0). unfold mod_.
  destruct (Z.eqb_spec L 0) as [E0|_]; [lia|].
  cbn [mbind result_bind].
  rewrite call_count_is_ceiling by lia.
  pose proof (ratio_le_iff (startup_candles + 1) L) as Hle.
  destruct (Qceiling_bounds _ _
              (eq_refl
                 (Qceiling (inject_Z (startup_candles + 1) / inject_Z L))))
    as [Hlo Hhi].
  set (n := Qceiling (inject_Z (startup_candles + 1) / inject_Z L)) in *.
  assert (0 < inject_Z L) as HLq
    by (change 0 with (inject_Z 0); now rewrite <- Zlt_Qlt).
  apply (lt_div_mult _ _ _ HLq) in Hlo.
  apply (div_le_mult _ _ _ HLq) in Hhi.
  rewrite <- inject_Z_mult in Hlo, Hhi.
  rewrite <- Zlt_Qlt in Hlo. rewrite <- Zle_Qle in Hhi.
  assert (1 <= n)%Z as Hn by nia.
  rewrite !Z.gtb_ltb.
  split.
  - destruct (ohlcv_has_history (ft_has self)).
    + rewrite <- (Hle 5%Z HL).
      destruct (Z.ltb_spec 5 n); cbn [is_ok]; split; try lia; discriminate.
    + rewrite <- (Hle 1%Z HL).
      destruct (Z.ltb_spec 1 n); cbn [is_ok]; split; try lia; discriminate.
  - intros k Hk.
    assert (k = n) as ->.
    { destruct (ohlcv_has_history (ft_has self));
        [destruct (5 <? n)%Z | destruct (1 <? n)%Z];
        congruence. }
    lia.
Qed.

End StartupCandlesRange.

Section StartupCandlesRangeScenario.

(** 2499 startup candles fit into 5 calls of 500, 2500 do not. *)
Lemma startup_candles_accepted_range_scenario :
  is_ok (validate_required_startup_candles Z scenario_date_minus_candles
           scenario_dt_ts (venue_500 true) 2499 "5m") = true
  /\ is_ok (validate_required_startup_candles Z scenario_date_minus_candles
              scenario_dt_ts (venue_500 true) 2500 "5m")
     = false.
Proof.
  destruct (startup_candles_accepted_range Z scenario_date_minus_candles
              scenario_dt_ts (venue_500 true) 2499 "5m")
    as [H1 _]; [lia | reflexivity | |].
  { right. eexists. eexists. split; reflexivity. }
  destruct (startup_candles_accepted_range Z scenario_date_minus_candles
              scenario_dt_ts (venue_500 true) 2500 "5m")
    as [H2 _]; [lia | reflexivity | |].
  { right. eexists. eexists. split; reflexivity. }
  split.
  - apply H1. reflexivity.
  - apply not_true_iff_false. intros H. apply H2 in H. apply H. reflexivity.
Defined.

End StartupCandlesRangeScenario.


(** ** Leverage tiers: coverage and notional caps *)

Section LeverageTierCoverage.

Lemma first_matching_tier_window (prior : option LeverageTier)
    (tiers : list LeverageTier) (stake : Q) (tier : LeverageTier) :
  first_matching_tier prior tiers stake = Some tier ->
  In tier tiers /\ stake <= tier_max_stake tier.
Proof.
  revert prior. induction tiers as [|t rest IH]; intros prior; [discriminate|].
  cbn [first_matching_tier].
  destruct (in_stake_window prior t stake) eqn:E.
  - intros [= <-]. split; [now left|].
    unfold in_stake_window in E. apply andb_true_iff in E.
    destruct E as [_ E]. now apply leb_le in E.
  - intros H. destruct (IH _ H) as [Hin Hle]. split; [now right | exact Hle].
Qed.

Lemma first_matching_tier_chained (prev : LeverageTier)
    (tiers : list LeverageTier) (stake : Q) :
  0 < maxLeverage prev ->
  Forall (fun t => 0 < maxLeverage t) tiers ->
  tiers_chained prev tiers ->
  tier_max_stake prev < stake ->
  stake <= tier_max_stake (List.last tiers prev) ->
  first_matching_tier (Some prev) tiers stake <> None.
Proof.
  intros Hprev Hall. revert prev Hprev.
  induction Hall as [|t rest Ht Hrest IH]; intros prev Hprev Hchain Hlt Hle.
  - cbn in Hle. lra.
  - destruct Hchain as [Hmin Hchain].
    cbn [first_matching_tier]. unfold in_stake_window.
    assert (leb (tier_min_stake (Some prev) t) stake = true) as ->.
    { apply leb_le. unfold tier_min_stake, tier_max_stake in *.
      rewrite Hmin. lra. }
    cbn [andb].
    destruct (leb stake (tier_max_stake t)) eqn:E; [discriminate|].
    apply leb_gt in E. apply (IH t Ht Hchain E).
    destruct rest as [|u rest']; [cbn in Hle |- *; lra|].
    change (List.last (t :: u :: rest') prev)
      with (List.last (u :: rest') prev) in Hle.
    now rewrite (last_cons_default u rest' t prev).
Qed.

Lemma positive_nonzero (tiers : list LeverageTier) :
  Forall (fun t => 0 < maxLeverage t) tiers ->
  Forall (fun t => ~ maxLeverage t == 0) tiers.
Proof.
  induction 1 as [|t l Ht _ IH]; constructor; [|exact IH].
  intros E. rewrite E in Ht. now apply Qlt_irrefl in Ht.
Qed.

(** The outcome of [get_max_leverage] for a non-zero stake on tiers of
    positive leverage. *)
Lemma get_max_leverage_nonzero_stake (self : Exchange) (pair : string)
    (first : LeverageTier) (rest : list LeverageTier) (stake_amount : Q) :
  trading_mode self = FUTURES ->
  leverage_tiers self !! pair = Some (first :: rest) ->
  Forall (fun t => 0 < maxLeverage t) (first :: rest) ->
  ~ stake_amount == 0 ->
  get_max_leverage self pair (Some stake_amount)
  = match first_matching_tier None (first :: rest) stake_amount with
    | Some tier => Ok (maxLeverage tier)
    | None =>
        if ltb (tier_max_stake (List.last rest first)) stake_amount then
          Raise InvalidOrderException
        else Raise OperationalException
    end.
Proof.
  intros Hmode Htiers Hpos Hnz0.
  pose proof (positive_nonzero _ Hpos) as Hnz.
  inversion Hnz as [|t l Hfirst Hrest]; subst.
  unfold get_max_leverage. rewrite Hmode, Htiers.
  apply eqb_neq in Hnz0. rewrite Hnz0.
  cbn [get_max_leverage_loop first_matching_tier or_].
  rewrite !(truediv_ok _ _ Hfirst). cbn [mbind result_bind].
  unfold in_stake_window, tier_min_stake. cbn beta iota.
  change (maxNotional first / maxLeverage first) with (tier_max_stake first).
  destruct (leb (minNotional first / maxLeverage first) stake_amount
            && leb stake_amount (tier_max_stake first)); [reflexivity|].
  apply (get_max_leverage_loop_scan first rest stake_amount Hfirst Hrest).
Qed.

(** X2. On futures, when the tiers of a pair have positive leverage, start
    at a notional of at most 0 and each begins where the one before ends,
    [get_max_leverage] answers every stake [>= 0] either with the leverage
    of one of the tiers or with [InvalidOrderException]; the "should never
    be reached" exception is not raised, and a stake up to the last tier's
    [max_stake] always gets a leverage. *)
Theorem get_max_leverage_covers_chained_tiers (self : Exchange)
    (pair : string) (first : LeverageTier) (rest : list LeverageTier)
    (stake_amount : Q) :
  trading_mode self = FUTURES ->
  leverage_tiers self !! pair = Some (first :: rest) ->
  Forall (fun t => 0 < maxLeverage t) (first :: rest) ->
  minNotional first <= 0 ->
  tiers_chained first rest ->
  0 <= stake_amount ->
  let outcome := get_max_leverage self pair (Some stake_amount) in
  ((exists tier, In tier (first :: rest) /\ outcome = Ok (maxLeverage tier))
   \/ (tier_max_stake (List.last rest first) < stake_amount
       /\ outcome = Raise InvalidOrderException))
  /\ (stake_amount <= tier_max_stake (List.last rest first) ->
      exists tier, In tier (first :: rest) /\ outcome = Ok (maxLeverage tier)).
Proof.
  intros Hmode Htiers Hpos Hzero Hchain Hstake outcome. subst outcome.
  inversion Hpos as [|t l Hfirst Hrest]; subst.
  assert (minNotional first / maxLeverage first <= 0) as Hmin0.
  { apply Qle_shift_div_r; [exact Hfirst | lra]. }
  assert (stake_amount <= tier_max_stake (List.last rest first) ->
          exists tier,
            In tier (first :: rest)
            /\ get_max_leverage self pair (Some stake_amount)
               = Ok (maxLeverage tier)) as Hcover.
  { intros Hle. destruct (eqb stake_amount 0) eqn:Ez.
    - exists first. split; [now left|].
      unfold get_max_leverage. now rewrite Hmode, Htiers, Ez.
    - apply eqb_neq in Ez.
      rewrite (get_max_leverage_nonzero_stake self pair first rest
                 stake_amount Hmode Htiers Hpos Ez).
      destruct (first_matching_tier None (first :: rest) stake_amount)
        as [tier|] eqn:Em.
      + exists tier. split; [|reflexivity].
        now apply first_matching_tier_window in Em.
      + exfalso. cbn [first_matching_tier] in Em.
        unfold in_stake_window, tier_min_stake in Em.
        assert (leb (minNotional first / maxLeverage first) stake_amount
                = true) as E1 by (apply leb_le; lra).
        rewrite E1 in Em. cbn [andb] in Em.
        destruct (leb stake_amount (tier_max_stake first)) eqn:E2;
          [discriminate|].
        apply leb_gt in E2.
        exact (first_matching_tier_chained first rest stake_amount Hfirst
                 Hrest Hchain E2 Hle Em). }
  split; [|exact Hcover].
  destruct (Qlt_le_dec (tier_max_stake (List.last rest first)) stake_amount)
    as [Hlt|Hle]; [|left; now apply Hcover].
  destruct (eqb stake_amount 0) eqn:Ez.
  { (* a zero stake is answered by the first tier *)
    left. exists first. split; [now left|].
    unfold get_max_leverage. now rewrite Hmode, Htiers, Ez. }
  apply eqb_neq in Ez.
  rewrite (get_max_leverage_nonzero_stake self pair first rest stake_amount
             Hmode Htiers Hpos Ez).
  destruct (first_matching_tier None (first :: rest) stake_amount)
    as [tier|] eqn:Em.
  - left. exists tier. split; [|reflexivity].
    now apply first_matching_tier_window in Em.
  - right. split; [exact Hlt|]. apply ltb_lt in Hlt. now rewrite Hlt.
Qed.

(** The stakes 0, 6000 and 100000 of the leverage scenario all get a
    leverage; the tiers are chained. *)
Lemma get_max_leverage_covers_scenario :
  (exists tier,
     In tier scenario_tiers
     /\ get_max_leverage scenario_venue "BTC/USDT:USDT" (Some 6000)
        = Ok (maxLeverage tier))
  /\ (exists tier,
        In tier scenario_tiers
        /\ get_max_leverage scenario_venue "BTC/USDT:USDT" (Some 100000)
           = Ok (maxLeverage tier)).
Proof.
  assert (Forall (fun t => 0 < maxLeverage t) scenario_tiers) as Hpos
    by (repeat constructor).
  assert (tiers_chained (mk_tier 0 50000 (4 # 1000) 50)
            [mk_tier 50000 250000 (5 # 1000) 20;
             mk_tier 250000 1000000 (1 # 100) 10]) as Hchain
    by (cbn; repeat split; reflexivity).
  split.
  - apply (get_max_leverage_covers_chained_tiers scenario_venue
             "BTC/USDT:USDT" _ _ 6000 eq_refl eq_refl Hpos);
      [discriminate | exact Hchain | discriminate | discriminate].
  - apply (get_max_leverage_covers_chained_tiers scenario_venue
             "BTC/USDT:USDT" _ _ 100000 eq_refl eq_refl Hpos);
      [discriminate | exact Hchain | discriminate | discriminate].
Defined.

(** X3. On futures with tiers of positive leverage, a leverage returned
    for a non-zero stake is some tier's [max_leverage] and the position it
    allows, stake times leverage, does not exceed that tier's
    [max_notional]. *)
Theorem get_max_leverage_within_notional (self : Exchange) (pair : string)
    (first : LeverageTier) (rest : list LeverageTier)
    (stake_amount lev : Q) :
  trading_mode self = FUTURES ->
  leverage_tiers self !! pair = Some (first :: rest) ->
  Forall (fun t => 0 < maxLeverage t) (first :: rest) ->
  ~ stake_amount == 0 ->
  get_max_leverage self pair (Some stake_amount) = Ok lev ->
  exists tier,
    In tier (first :: rest)
    /\ lev = maxLeverage tier
    /\ stake_amount * lev <= maxNotional tier.
Proof.
  intros Hmode Htiers Hpos Hnz.
  rewrite (get_max_leverage_nonzero_stake self pair first rest stake_amount
             Hmode Htiers Hpos Hnz).
  destruct (first_matching_tier None (first :: rest) stake_amount)
    as [tier|] eqn:Em.
  - intros [= <-]. exists tier.
    destruct (first_matching_tier_window _ _ _ _ Em) as [Hin Hw].
    split; [exact Hin|]. split; [reflexivity|].
    assert (0 < maxLeverage tier) as Hl.
    { rewrite List.Forall_forall in Hpos. now apply Hpos. }
    unfold tier_max_stake in Hw.
    assert (maxNotional tier
            == maxNotional tier / maxLeverage tier * maxLeverage tier) as ->
      by (field; lra).
    apply Qmult_le_compat_r; [exact Hw | lra].
  - destruct (ltb _ _); discriminate.
Qed.

(** A stake of 6000 gets leverage 20: a position of 120000, inside the
    second tier's 250000. *)
Lemma get_max_leverage_within_notional_scenario :
  exists tier,
    In tier scenario_tiers
    /\ 20 = maxLeverage tier
    /\ 6000 * 20 <= maxNotional tier.
Proof.
  apply (get_max_leverage_within_notional scenario_venue "BTC/USDT:USDT"
           _ _ 6000 20 eq_refl eq_refl).
  - repeat constructor.
  - discriminate.
  - reflexivity.
Defined.

Lemma find_rev_last {A} (f : A -> bool) (l : list A) (x : A) :
  List.find f (rev l) = Some x ->
  exists before after,
    l = before ++ x :: after
    /\ f x = true
    /\ Forall (fun y => f y = false) after.
Proof.
  induction l as [|a l IH] using rev_ind; [discriminate|].
  rewrite rev_app_distr. cbn [rev app List.find].
  destruct (f a) eqn:Ea.
  - intros [= <-]. exists l, []. repeat split; [exact Ea | constructor].
  - intros H. destruct (IH H) as (before & after & -> & Hx & Hafter).
    exists before, (after ++ [a]). split; [now rewrite <- app_assoc|].
    split; [exact Hx|]. apply Forall_app. split; [exact Hafter|].
    constructor; [exact Ea | constructor].
Qed.

Lemma find_rev_none {A} (f : A -> bool) (l : list A) :
  List.find f (rev l) = None <-> Forall (fun y => f y = false) l.
Proof.
  split.
  - intros H. apply List.Forall_forall. intros y Hy.
    apply (find_none f (rev l) H y). now apply in_rev in Hy.
  - intros H. destruct (List.find f (rev l)) as [x|] eqn:E; [|reflexivity].
    apply find_some in E. destruct E as [Hin Hx].
    apply in_rev in Hin. rewrite List.Forall_forall in H.
    rewrite (H x Hin) in Hx. discriminate.
Qed.

(** X4. When leverage tiers are available and known for the pair,
    [get_maintenance_ratio_and_amt] answers with the last tier, in list
    order, whose [minNotional] does not exceed the notional value; it
    raises [ExchangeError] exactly when every tier starts above the
    notional value.  An unknown pair raises [InvalidOrderException], and an
    exchange without leverage tiers [ExchangeError]. *)
Theorem get_maintenance_ratio_picks_last_floor (self : Exchange)
    (pair : string) (notional_value : Q) :
  let outcome := get_maintenance_ratio_and_amt self pair notional_value in
  let supported :=
    runmode_in_optimize_modes self
    || exchange_has self "fetchLeverageTiers"
    || exchange_has self "fetchMarketLeverageTiers" in
  (supported = false -> outcome = Raise ExchangeError)
  /\ (supported = true -> leverage_tiers self !! pair = None ->
      outcome = Raise InvalidOrderException)
  /\ (forall tiers,
        supported = true -> leverage_tiers self !! pair = Some tiers ->
        (outcome = Raise ExchangeError
         <-> Forall (fun t => notional_value < minNotional t) tiers)
        /\ (Exists (fun t => minNotional t <= notional_value) tiers ->
            exists before tier after,
              tiers = before ++ tier :: after
              /\ minNotional tier <= notional_value
              /\ Forall (fun t => notional_value < minNotional t) after
              /\ outcome
                 = Ok (maintenanceMarginRate tier, maintAmt tier))).
Proof.
  intros outcome supported. subst outcome.
  unfold get_maintenance_ratio_and_amt. fold supported.
  split; [intros ->; reflexivity|].
  split; [intros -> ->; reflexivity|].
  intros tiers -> ->.
  set (f := fun tier : LeverageTier => leb (minNotional tier) notional_value).
  assert (forall l, Forall (fun y => f y = false) l
                    <-> Forall (fun t => notional_value < minNotional t) l)
    as Hf.
  { intros l. split; apply List.Forall_impl; intros t; unfold f;
      apply leb_gt. }
  destruct (List.find f (rev tiers)) as [tier|] eqn:E.
  - split.
    + split; [discriminate|]. intros Hall. exfalso.
      apply Hf, find_rev_none in Hall. congruence.
    + intros _. destruct (find_rev_last f tiers tier E)
        as (before & after & -> & Hx & Hafter).
      exists before, tier, after. split; [reflexivity|].
      split; [now apply leb_le in Hx|].
      split; [now apply Hf | reflexivity].
  - apply find_rev_none in E. split.
    + split; [intros _; now apply Hf | reflexivity].
    + intros Hex. exfalso. apply List.Exists_exists in Hex.
      destruct Hex as (t & Hin & Hle). rewrite List.Forall_forall in E.
      specialize (E t Hin). unfold f in E. apply leb_gt in E. lra.
Qed.

(** A notional of 100000 lies in the second scenario tier: ratio 0.005. *)
Lemma get_maintenance_ratio_scenario :
  get_maintenance_ratio_and_amt scenario_venue "BTC/USDT:USDT" 100000
  = Ok (5 # 1000, None)
  /\ get_maintenance_ratio_and_amt scenario_venue "ETH/USDT:USDT" 100000
     = Raise InvalidOrderException.
Proof.
  destruct (get_maintenance_ratio_picks_last_floor scenario_venue
              "BTC/USDT:USDT" 100000) as (_ & _ & H).
  destruct (H scenario_tiers eq_refl eq_refl) as [_ Hex].
  destruct (get_maintenance_ratio_picks_last_floor scenario_venue
              "ETH/USDT:USDT" 100000) as (_ & Hnone & _).
  split; [reflexivity | now apply Hnone].
Defined.

End LeverageTierCoverage.

(** ** Stake limits: what the bounds guarantee *)

Section StakeLimitGuarantees.

Variable contracts_to_amount : Q -> option Q -> Q.

Lemma truthy_nonzero (x : Q) : ~ x == 0 -> truthy x = true.
Proof. intros H. unfold truthy. apply eqb_neq in H. now rewrite H. Qed.

(** X5. On futures, [_get_max_notional_from_tiers] answers with the
    [max_notional] of the last tier, in list order, that allows the
    leverage; when that cap is non-zero and the leverage positive, the
    maximum stake amount times the leverage never exceeds it. *)
Theorem max_stake_within_tier_cap (self : Exchange) (pair : string)
    (market : Market) (price leverage cap : Q) :
  markets self !! pair = Some market ->
  _get_max_notional_from_tiers self pair leverage = Some cap ->
  ~ cap == 0 ->
  0 < leverage ->
  (exists tiers before tier after,
     leverage_tiers self !! pair = Some tiers
     /\ tiers = before ++ tier :: after
     /\ leverage <= maxLeverage tier
     /\ Forall (fun t => maxLeverage t < leverage) after
     /\ cap = maxNotional tier)
  /\ exists hi,
       get_max_pair_stake_amount contracts_to_amount self pair price leverage
       = Ok (Fin hi)
       /\ hi * leverage <= cap.
Proof.
  intros Hm Hcap Hnz Hlev. split.
  - unfold _get_max_notional_from_tiers in Hcap.
    destruct (bool_decide (trading_mode self <> FUTURES)); [discriminate|].
    destruct (leverage_tiers self !! pair) as [tiers|]; [|discriminate].
    destruct (List.find _ (rev tiers)) as [tier|] eqn:E; [|discriminate].
    injection Hcap as <-.
    destruct (find_rev_last _ tiers tier E)
      as (before & after & -> & Hx & Hafter).
    exists (before ++ tier :: after), before, tier, after.
    split; [reflexivity|]. split; [reflexivity|].
    split; [now apply leb_le in Hx|]. split; [|reflexivity].
    revert Hafter. apply List.Forall_impl. intros t. apply leb_gt.
  - assert (~ leverage == 0) as Hl0 by lra.
    unfold get_max_pair_stake_amount, _get_stake_amount_limit.
    rewrite Hm. cbn [mbind result_bind]. unfold stake_limits.
    rewrite Hcap, (truthy_nonzero _ Hnz). cbn [mbind result_bind fst snd].
    set (rest :=
           match lim_max (limits_cost market) with
           | Some c => [_contracts_to_amount contracts_to_amount self pair c * 1]
           | None => []
           end
           ++ match lim_max (limits_amount market) with
              | Some a =>
                  [_contracts_to_amount contracts_to_amount self pair a
                   * price * 1]
              | None => []
              end).
    assert (match lim_max (limits_amount market) with
            | Some a =>
                match lim_max (limits_cost market) with
                | Some c =>
                    [cap]
                    ++ [_contracts_to_amount contracts_to_amount self pair c
                        * 1]
                | None => [cap]
                end
                ++ [_contracts_to_amount contracts_to_amount self pair a
                    * price * 1]
            | None =>
                match lim_max (limits_cost market) with
                | Some c =>
                    [cap]
                    ++ [_contracts_to_amount contracts_to_amount self pair c
                        * 1]
                | None => [cap]
                end
            end = cap :: rest) as ->.
    { subst rest. destruct (lim_max (limits_amount market)),
        (lim_max (limits_cost market)); reflexivity. }
    cbn [mbind result_bind]. unfold _get_stake_amount_considering_leverage.
    rewrite (or__nonzero _ _ Hl0), (truediv_ok _ _ Hl0).
    cbn [mbind result_bind]. eexists. split; [reflexivity|].
    pose proof (min_list_le_start cap rest) as Hmin.
    assert (min_list cap rest / leverage * leverage == min_list cap rest)
      as -> by (field; lra).
    exact Hmin.
Qed.

(** X6. For a known market and a positive leverage the minimum stake
    amount times the leverage covers both minima of the market: it is at
    least the (non-negative) minimum cost and at least the minimum amount
    times the price times the margin reserve; without either minimum
    there is no minimum stake ([None]). *)
Theorem min_stake_covers_market_minima (self : Exchange) (pair : string)
    (market : Market) (price stoploss leverage : Q) :
  markets self !! pair = Some market ->
  0 < leverage ->
  let margin_reserve :=
    1 + default DEFAULT_AMOUNT_RESERVE_PERCENT (amount_reserve_percent self) in
  let outcome :=
    get_min_pair_stake_amount contracts_to_amount self pair price stoploss
      leverage in
  (forall c,
     lim_min (limits_cost market) = Some c ->
     0 <= _contracts_to_amount contracts_to_amount self pair c ->
     exists lo,
       outcome = Ok (Some (Fin lo))
       /\ _contracts_to_amount contracts_to_amount self pair c
          <= lo * leverage)
  /\ (forall a,
        lim_min (limits_amount market) = Some a ->
        exists lo,
          outcome = Ok (Some (Fin lo))
          /\ _contracts_to_amount contracts_to_amount self pair a * price
             * margin_reserve <= lo * leverage)
  /\ (lim_min (limits_cost market) = None ->
      lim_min (limits_amount market) = None ->
      outcome = Ok None).
Proof.
  intros Hm Hlev margin_reserve outcome. subst outcome.
  assert (~ leverage == 0) as Hl0 by lra.
  destruct (stake_limits_min_side contracts_to_amount self market pair price
              stoploss leverage) as (sr & [Hsr1 Hsr2] & Hlim).
  fold margin_reserve in Hlim.
  unfold get_min_pair_stake_amount, _get_stake_amount_limit.
  rewrite Hm. cbn [mbind result_bind]. rewrite Hlim.
  cbn [mbind result_bind].
  unfold _get_stake_amount_considering_leverage.
  assert (forall x l y,
            In y (x :: l) ->
            exists lo,
              (r ← truediv (max_list x l) (or_ (Some leverage) 1);
               Ok (Some (Fin r)))
              = Ok (Some (Fin lo))
              /\ y <= lo * leverage) as Hgen.
  { intros x l y Hin.
    rewrite (or__nonzero _ _ Hl0), (truediv_ok _ _ Hl0).
    cbn [mbind result_bind]. eexists. split; [reflexivity|].
    assert (max_list x l / leverage * leverage == max_list x l) as ->
      by (field; lra).
    pose proof (max_list_upper_bound x l) as Hub.
    rewrite List.Forall_forall in Hub. now apply Hub. }
  split; [|split].
  - intros c Hc Hc0. rewrite Hc.
    set (C := _contracts_to_amount contracts_to_amount self pair c) in *.
    assert (C <= C * sr) as HC by nra.
    destruct (lim_min (limits_amount market)) as [a|]; cbn [app].
    + destruct (Hgen (C * sr)
                  [_contracts_to_amount contracts_to_amount self pair a
                   * price * margin_reserve]
                  (C * sr) (or_introl eq_refl)) as (lo & -> & Hlo).
      exists lo. split; [reflexivity | lra].
    + destruct (Hgen (C * sr) [] (C * sr) (or_introl eq_refl))
        as (lo & -> & Hlo).
      exists lo. split; [reflexivity | lra].
  - intros a Ha. rewrite Ha.
    set (A := _contracts_to_amount contracts_to_amount self pair a
              * price * margin_reserve) in *.
    destruct (lim_min (limits_cost market)) as [c|]; cbn [app].
    + destruct (Hgen (_contracts_to_amount contracts_to_amount self pair c
                      * sr) [A] A (or_intror (or_introl eq_refl)))
        as (lo & -> & Hlo).
      exists lo. split; [reflexivity | exact Hlo].
    + destruct (Hgen A [] A (or_introl eq_refl)) as (lo & -> & Hlo).
      exists lo. split; [reflexivity | exact Hlo].
  - intros -> ->. reflexivity.
Qed.

End StakeLimitGuarantees.

Section StakeLimitGuaranteeScenarios.

(** BTC/USDT at price 10 and leverage 2: minimum cost 1 and minimum
    amount 1 (worth 10.5 with the reserve) are both covered. *)
Lemma min_stake_covers_market_minima_scenario :
  exists lo,
    get_min_pair_stake_amount contracts_to_amount_spec
      (spot_venue scenario_book) "BTC/USDT" 10 (-1 # 10) 2
    = Ok (Some (Fin lo))
    /\ 1 * 1 * 10 * (1 + (5 # 100)) <= lo * 2.
Proof.
  destruct (min_stake_covers_market_minima contracts_to_amount_spec
              (spot_venue scenario_book) "BTC/USDT" spot_market 10 (-1 # 10)
              2 eq_refl eq_refl) as (_ & Hamount & _).
  destruct (Hamount 1 eq_refl) as (lo & Hlo & Hle).
  exists lo. split; [exact Hlo | exact Hle].
Defined.

(** On the futures scenario at leverage 20 the cap is the second tier's
    250000, and the maximum stake times 20 stays below it. *)
Lemma max_stake_within_tier_cap_scenario :
  exists hi,
    get_max_pair_stake_amount contracts_to_amount_spec scenario_venue
      "BTC/USDT:USDT" 100 20 = Ok (Fin hi)
    /\ hi * 20 <= 250000.
Proof.
  destruct (max_stake_within_tier_cap contracts_to_amount_spec scenario_venue
              "BTC/USDT:USDT" (linear_swap (5 # 10000)) 100 20 250000
              eq_refl eq_refl) as [_ H]; [discriminate | reflexivity |].
  exact H.
Defined.

End StakeLimitGuaranteeScenarios.

(** ** Liquidation price: modes without an estimate *)

Section LiquidationModes.


End LiquidationModes.

(** ** Dry-run market fill: the price stays between the book's prices *)

Section FillPriceBounds.

Variable price_to_precision :
  Q -> option Q -> PrecisionMode -> RoundingMode -> Q.

Lemma fill_loop_bounds (book : list (Q * Q))
    (remaining filled price0 lo hi : Q) :
  Forall (fun level => (lo <= fst level /\ fst level <= hi)
                       /\ 0 <= snd level) book ->
  0 <= remaining ->
  (book = [] -> lo <= price0 /\ price0 <= hi) ->
  filled + lo * remaining <= fill_loop book remaining filled price0
  /\ fill_loop book remaining filled price0 <= filled + hi * remaining.
Proof.
  intros Hall. revert remaining filled price0.
  induction Hall as [|[p v] rest [[Hlo Hhi] Hv] Hrest IH];
    intros remaining filled price0 Hrem Hp0.
  - destruct (Hp0 eq_refl) as [H1 H2]. cbn [fill_loop]. split; nra.
  - cbn [fst snd] in *. cbn [fill_loop fst snd].
    destruct (ltb 0 remaining) eqn:Epos.
    + destruct (ltb remaining v) eqn:Elt.
      * split; nra.
      * apply ltb_ge in Elt.
        destruct (IH (remaining - v) (filled + v * p) p) as [I1 I2];
          [lra | intros _; split; assumption |].
        split; nra.
    + apply ltb_ge in Epos. assert (remaining == 0) as E by lra.
      split; nra.
Qed.

(** X8. For a market order of positive amount against a non-empty book
    side with non-negative volumes, the average fill price before the
    slippage clamp lies between the side's lowest and highest price,
    whether or not the book holds the whole amount. *)
Theorem dry_market_fill_price_between_levels (self : Exchange)
    (pair side : string) (A rate lo hi : Q) (ob : OrderBook) :
  exchange_has self "fetchL2OrderBook" = true ->
  let book := if String.eqb side "buy" then asks ob else bids ob in
  book <> [] ->
  Forall (fun level => (lo <= fst level /\ fst level <= hi)
                       /\ 0 <= snd level) book ->
  0 <= lo ->
  0 < A ->
  exists raw forecast,
    lo <= raw /\ raw <= hi
    /\ forecast == slippage_clamp side rate raw
    /\ get_dry_market_fill_price price_to_precision self pair side A rate
         (Some ob)
       = Ok (Exchange_price_to_precision price_to_precision self pair
               forecast ROUND).
Proof.
  intros Hhas book Hne Hall Hlo HA.
  assert (~ A == 0) as HA0 by lra.
  pose proof (get_dry_market_fill_price_forecast price_to_precision self
                pair side A rate ob Hhas HA0) as Hfill.
  destruct (fill_loop_bounds book A 0 0 lo hi Hall) as [B1 B2];
    [lra | intros E; contradiction |].
  assert (0 <= fill_loop book A 0 0) as Hnn by nra.
  pose proof (forecast_is_clamp side rate (fill_loop book A 0 0) A _ HA0
                (Qeq_refl _)) as Hclamp.
  exists (Qmax (fill_loop book A 0 0) 0 / A).
  subst book.
  assert (forall f, 0 <= f -> 0 + lo * A <= f -> f <= 0 + hi * A ->
                    lo <= Qmax f 0 / A /\ Qmax f 0 / A <= hi) as Hdiv.
  { intros f Hf F1 F2. rewrite (Q.max_l f 0 Hf). split.
    - apply Qle_shift_div_l; [exact HA | lra].
    - apply Qle_shift_div_r; [exact HA | lra]. }
  destruct (String.eqb side "buy") eqn:Eside;
    (eexists; destruct (Hdiv _ Hnn B1 B2) as [D1 D2];
     split; [exact D1|]; split; [exact D2|]; split; [exact Hclamp|];
     exact Hfill).
Qed.

End FillPriceBounds.

Section FillPriceBoundsScenario.

(** A buy of 3 against the scenario asks, priced between 10 and 12. *)
Lemma dry_market_fill_price_between_levels_scenario :
  exists raw forecast,
    10 <= raw /\ raw <= 12
    /\ forecast == slippage_clamp "buy" 11 raw
    /\ get_dry_market_fill_price price_to_precision_decimal
         (spot_venue scenario_book) "BTC/USDT" "buy" 3 11 (Some scenario_book)
       = Ok (Exchange_price_to_precision price_to_precision_decimal
               (spot_venue scenario_book) "BTC/USDT" forecast ROUND).
Proof.
  apply (dry_market_fill_price_between_levels price_to_precision_decimal
           (spot_venue scenario_book) "BTC/USDT" "buy" 3 11 10 12
           scenario_book eq_refl).
  - discriminate.
  - repeat constructor; discriminate.
  - discriminate.
  - reflexivity.
Defined.

End FillPriceBoundsScenario.

(** ** Dry-run orders: placement *)

Section DryRunPlacement.

Variable contracts_to_amount : Q -> option Q -> Q.
Variable amount_to_contracts : Q -> option Q -> Q.
Variable amount_to_precision : Q -> option Q -> PrecisionMode -> Q.
Variable price_to_precision :
  Q -> option Q -> PrecisionMode -> RoundingMode -> Q.

(** Without order-book support every price counts as crossed.  With a
    book at hand a buy limit is crossed exactly when the best ask is at or
    below [limit * (1 - offset)], a sell limit exactly when the best bid is
    at or above [limit * (1 + offset)]; an empty side is never crossed. *)
Lemma dry_is_price_crossed_best_level (self : Exchange)
    (pair side : string) (limit offset : Q) (ob : OrderBook) :
  (exchange_has self "fetchL2OrderBook" = false ->
   forall book, _dry_is_price_crossed self pair side limit book offset
                = Ok true)
  /\ (exchange_has self "fetchL2OrderBook" = true ->
      exists crossed,
        _dry_is_price_crossed self pair side limit (Some ob) offset
        = Ok crossed
        /\ (side = "buy"%string ->
            crossed = true
            <-> exists best rest,
                  asks ob = best :: rest
                  /\ fst best <= limit * (1 - offset))
        /\ (side <> "buy"%string ->
            crossed = true
            <-> exists best rest,
                  bids ob = best :: rest
                  /\ limit * (1 + offset) <= fst best)).
Proof.
  unfold _dry_is_price_crossed. split.
  - intros -> book. reflexivity.
  - intros ->. cbn [negb mbind result_bind].
    destruct (String.eqb_spec side "buy") as [Hs|Hs].
    + destruct (asks ob) as [|best rest] eqn:Ea.
      * exists false. split; [reflexivity|]. split.
        -- intros _. split; [discriminate|].
           intros (b & r & Hb & _). discriminate.
        -- intros Hn. contradiction.
      * eexists. split; [reflexivity|]. split.
        -- intros _. rewrite leb_le. split.
           ++ intros H. exists best, rest. now split.
           ++ intros (b & r & [= <- <-] & H). exact H.
        -- intros Hn. contradiction.
    + destruct (bids ob) as [|best rest] eqn:Eb.
      * exists false. split; [reflexivity|]. split.
        -- intros Hn. contradiction.
        -- intros _. split; [discriminate|].
           intros (b & r & Hb & _). discriminate.
      * eexists. split; [reflexivity|]. split.
        -- intros Hn. contradiction.
        -- intros _. rewrite leb_le. split.
           ++ intros H. exists best, rest. now split.
           ++ intros (b & r & [= <- <-] & H). exact H.
Qed.

(** X9. The crossing test is monotone.  For a limit price that is not
    negative, a price crossed with some offset is crossed with every
    smaller offset (crossed by 1% implies crossed at all); and a buy limit
    crossed at one price is crossed at every higher price, a sell limit
    at every lower price (offsets up to 100%). *)
Theorem dry_is_price_crossed_monotone (self : Exchange)
    (pair side : string) (limit offset : Q) (book : option OrderBook) :
  _dry_is_price_crossed self pair side limit book offset = Ok true ->
  (forall offset',
     0 <= limit -> offset' <= offset ->
     _dry_is_price_crossed self pair side limit book offset' = Ok true)
  /\ (forall limit',
        -1 <= offset <= 1 ->
        (if String.eqb side "buy" then limit <= limit' else limit' <= limit) ->
        _dry_is_price_crossed self pair side limit' book offset = Ok true).
Proof.
  unfold _dry_is_price_crossed.
  destruct (exchange_has self "fetchL2OrderBook"); cbn [negb];
    [|intros _; split; reflexivity].
  destruct (match book with
            | Some orderbook => Ok orderbook
            | None => Exchange_fetch_l2_order_book self pair 1
            end) as [ob|e]; cbn [mbind result_bind]; [|discriminate].
  destruct (String.eqb side "buy").
  - destruct (asks ob) as [|best rest]; [discriminate|].
    intros [= H]. apply leb_le in H. split.
    + intros offset' Hl Ho. f_equal. apply leb_le. nra.
    + intros limit' [Hlo Hhi] Hl. f_equal. apply leb_le. nra.
  - destruct (bids ob) as [|best rest]; [discriminate|].
    intros [= H]. apply leb_le in H. split.
    + intros offset' Hl Ho. f_equal. apply leb_le. nra.
    + intros limit' [Hlo Hhi] Hl. f_equal. apply leb_le. nra.
Qed.


(** X11. A dry-run stoploss order is never filled at placement: whatever
    the order book holds it is stored open, unfilled and without fee, it
    carries its stop price under the venue's stop-price key, and the
    crossing check leaves it as it is. *)
Theorem create_dry_run_stoploss_stays_open (self : Exchange)
    (store : gmap string CcxtOrder) (now_ts : Z)
    (now_str pair ordertype side : string) (amount rate leverage : Q)
    (ob : OrderBook) :
  (exchange_has self "fetchL2OrderBook" = true ->
   fetch_l2_order_book (api self) pair 20 = Ok ob) ->
  exists order,
    create_dry_run_order contracts_to_amount amount_to_contracts
      amount_to_precision price_to_precision self store now_ts now_str pair
      ordertype side amount rate leverage true
    = Ok (order, <[id_ order := order]> store)
    /\ status order = "open"%string
    /\ filled order = 0
    /\ fee order = None
    /\ ft_order_type order = Some "stoploss"%string
    /\ order_get_stop order (stop_price_prop (ft_has self)) = Some rate
    /\ (forall immediate book,
          check_dry_limit_order_filled self order immediate book = Ok order).
Proof.
  intros Hfetch.
  unfold create_dry_run_order, Exchange_fetch_l2_order_book.
  assert (forall o : CcxtOrder,
            ft_order_type o = Some "stoploss"%string ->
            forall immediate book,
              check_dry_limit_order_filled self o immediate book = Ok o)
    as Hcheck.
  { intros o Ho immediate book. unfold check_dry_limit_order_filled.
    rewrite Ho.
    rewrite (bool_decide_eq_true_2 (is_Some (Some "stoploss"%string)))
      by (eexists; reflexivity).
    cbn [negb]. now rewrite andb_false_r. }
  assert (forall k : string, (k =? k)%string = true) as Hrefl
    by (intros k; apply String.eqb_refl).
  destruct (exchange_has self "fetchL2OrderBook") eqn:Hhas.
  - rewrite (Hfetch eq_refl). cbn [mbind result_bind].
    rewrite bool_decide_eq_true_2 by (eexists; reflexivity).
    destruct (String.eqb ordertype "limit") eqn:Et; cbn [andb].
    + unfold _dry_is_price_crossed at 1. rewrite Hhas.
      cbn [negb mbind result_bind].
      destruct (if String.eqb side "buy" then _ else _) as [[|]|e] eqn:Ec.
      * cbn [mbind result_bind order_type ft_order_type].
        rewrite bool_decide_eq_true_2 by (eexists; reflexivity).
        cbn [negb]. rewrite andb_false_r. cbn [mbind result_bind].
        rewrite Hcheck by reflexivity. cbn [mbind result_bind].
        eexists. split; [reflexivity|]. cbn [status filled fee ft_order_type].
        unfold order_get_stop. cbn [stop_price_field]. rewrite Hrefl.
        repeat split; try (intros; now apply Hcheck).
      * cbn [mbind result_bind order_type ft_order_type].
        rewrite bool_decide_eq_true_2 by (eexists; reflexivity).
        cbn [negb]. rewrite andb_false_r. cbn [mbind result_bind].
        rewrite Hcheck by reflexivity. cbn [mbind result_bind].
        eexists. split; [reflexivity|]. cbn [status filled fee ft_order_type].
        unfold order_get_stop. cbn [stop_price_field]. rewrite Hrefl.
        repeat split; try (intros; now apply Hcheck).
      * exfalso. destruct (String.eqb side "buy");
          [destruct (asks ob) | destruct (bids ob)]; discriminate.
    + cbn [mbind result_bind order_type ft_order_type].
      rewrite bool_decide_eq_true_2 by (eexists; reflexivity).
      cbn [negb]. rewrite andb_false_r. cbn [mbind result_bind].
      rewrite Hcheck by reflexivity. cbn [mbind result_bind].
      eexists. split; [reflexivity|]. cbn [status filled fee ft_order_type].
      unfold order_get_stop. cbn [stop_price_field]. rewrite Hrefl.
      repeat split; try (intros; now apply Hcheck).
  - cbn [mbind result_bind].
    rewrite bool_decide_eq_false_2 by (intros [x Hx]; discriminate).
    rewrite andb_false_r. cbn [mbind result_bind order_type ft_order_type].
    rewrite bool_decide_eq_true_2 by (eexists; reflexivity).
    cbn [negb]. rewrite andb_false_r. cbn [mbind result_bind].
    rewrite Hcheck by reflexivity. cbn [mbind result_bind].
    eexists. split; [reflexivity|]. cbn [status filled fee ft_order_type].
    unfold order_get_stop. cbn [stop_price_field]. rewrite Hrefl.
    repeat split; try (intros; now apply Hcheck).
Qed.

End DryRunPlacement.

Section DryRunPlacementScenarios.


(** A stoploss sell at 9 stays open although the best bid is 9. *)
Lemma create_dry_run_stoploss_scenario :
  exists order,
    create_dry_run_order contracts_to_amount_spec amount_to_contracts_spec
      amount_to_precision_decimal price_to_precision_decimal
      (spot_venue scenario_book) ∅ 0 "0.0" "BTC/USDT" "limit" "sell" 3 9 1
      true
    = Ok (order, <[id_ order := order]> ∅)
    /\ status order = "open"%string
    /\ order_get_stop order "stopLossPrice" = Some 9.
Proof.
  destruct (create_dry_run_stoploss_stays_open contracts_to_amount_spec
              amount_to_contracts_spec amount_to_precision_decimal
              price_to_precision_decimal (spot_venue scenario_book) ∅ 0 "0.0"
              "BTC/USDT" "limit" "sell" 3 9 1 scenario_book
              (fun _ => eq_refl))
    as (order & Horder & Hs & _ & _ & _ & Hstop & _).
  exists order. repeat split; assumption.
Defined.


(** A buy limit at 11 crossed by 1% on the scenario book (best ask 10) is
    crossed without offset too. *)
Lemma dry_is_price_crossed_monotone_scenario :
  _dry_is_price_crossed (spot_venue scenario_book) "BTC/USDT" "buy" 11
    (Some scenario_book) 0
  = Ok true.
Proof.
  destruct (dry_is_price_crossed_monotone (spot_venue scenario_book)
              "BTC/USDT" "buy" 11 (1 # 100) (Some scenario_book) eq_refl)
    as (Hoffset & _).
  apply Hoffset; discriminate.
Defined.

End DryRunPlacementScenarios.

(** ** Dry-run orders: polling and cancelling *)

Section DryRunStoreFacts.

Variable order_by_id : string -> option CcxtOrder.
Variable cancel_order_live : string -> string -> result CcxtOrder.

(** An order the crossing check has nothing to do with. *)
Lemma check_dry_limit_order_settled (self : Exchange) (order : CcxtOrder)
    (immediate : bool) (book : option OrderBook) :
  status order = "closed"%string
  \/ order_type order <> "limit"%string
  \/ is_Some (ft_order_type order) ->
  check_dry_limit_order_filled self order immediate book = Ok order.
Proof.
  intros H. unfold check_dry_limit_order_filled.
  destruct H as [H|[H|H]].
  - rewrite H. reflexivity.
  - apply String.eqb_neq in H. rewrite H. now rewrite andb_false_r.
  - rewrite (bool_decide_eq_true_2 _ H). cbn [negb].
    now rewrite andb_false_r.
Qed.


(** The two plain cases of [fetch_dry_run_order]. *)
Lemma fetch_dry_run_order_plain_cases (self : Exchange)
    (store : gmap string CcxtOrder) (order_id : string) :
  (forall order,
     store !! order_id = Some order ->
     status order = "closed"%string
     \/ order_type order <> "limit"%string
     \/ is_Some (ft_order_type order) ->
     fetch_dry_run_order order_by_id self store order_id = (Ok order, store))
  /\ (store !! order_id = None -> order_by_id order_id = None ->
      fetch_dry_run_order order_by_id self store order_id
      = (Raise InvalidOrderException, store)).
Proof.
  unfold fetch_dry_run_order. split.
  - intros order Hs Hsettled. rewrite Hs.
    rewrite (check_dry_limit_order_settled self order false None Hsettled).
    now rewrite (insert_id store order_id order Hs).
  - intros -> ->. reflexivity.
Qed.

(** X12. Fetching a stored order that is closed, is no limit order or is
    a stoploss order returns it and leaves the store as it is.  An id
    found neither in the store nor in the database raises
    [InvalidOrderException] and leaves the store as it is; an order found
    only in the database is returned and from then on held in the store,
    beside the orders that were there. *)
Theorem fetch_dry_run_order_settled_or_unknown (self : Exchange)
    (store : gmap string CcxtOrder) (order_id : string) :
  let fetched := fetch_dry_run_order order_by_id self store order_id in
  (forall order,
     store !! order_id = Some order ->
     status order = "closed"%string
     \/ order_type order <> "limit"%string
     \/ is_Some (ft_order_type order) ->
     fetched = (Ok order, store))
  /\ (store !! order_id = None -> order_by_id order_id = None ->
      fetched = (Raise InvalidOrderException, store))
  /\ (forall order,
        store !! order_id = None -> order_by_id order_id = Some order ->
        fetched = (Ok order, <[order_id := order]> store)
        /\ <[order_id := order]> store !! order_id = Some order
        /\ (forall other, other <> order_id ->
              <[order_id := order]> store !! other = store !! other)).
Proof.
  intros fetched. subst fetched.
  destruct (fetch_dry_run_order_plain_cases self store order_id)
    as (Hsettled & Hunknown).
  split; [exact Hsettled | split; [exact Hunknown|]].
  unfold fetch_dry_run_order. intros order -> ->.
  split; [reflexivity|]. split; [apply lookup_insert_eq|].
  intros other Hne. now apply lookup_insert_ne.
Qed.

(** The poll of an open limit order, by what the book and the fee lookup
    answer. *)
Lemma fetch_dry_run_order_open_limit (self : Exchange)
    (store : gmap string CcxtOrder) (order_id : string) (order : CcxtOrder) :
  store !! order_id = Some order ->
  status order <> "closed"%string ->
  order_type order = "limit"%string ->
  ft_order_type order = None ->
  fetch_dry_run_order order_by_id self store order_id
  = match
      _dry_is_price_crossed self (symbol order) (Exchange.side order)
        (Exchange.price order) None 0
    with
    | Ok true =>
        match add_dry_order_fee self (symbol order) (closed_in_place order)
                maker with
        | Ok order' => (Ok order', <[order_id := order']> store)
        | Raise e =>
            let store' := <[order_id := closed_in_place order]> store in
            match e with
            | KeyError =>
                match order_by_id order_id with
                | Some ccxt_order =>
                    (Ok ccxt_order, <[order_id := ccxt_order]> store')
                | None => (Raise InvalidOrderException, store')
                end
            | _ => (Raise e, store')
            end
        end
    | Ok false => (Ok order, store)
    | Raise e =>
        match e with
        | KeyError =>
            match order_by_id order_id with
            | Some ccxt_order =>
                (Ok ccxt_order, <[order_id := ccxt_order]> store)
            | None => (Raise InvalidOrderException, store)
            end
        | _ => (Raise e, store)
        end
    end.
Proof.
  intros Hs Hopen Htype Hft.
  assert (Hguard :
            negb (String.eqb (status order) "closed")
            && String.eqb (order_type order) "limit"
            && negb (bool_decide (is_Some (ft_order_type order))) = true).
  { apply String.eqb_neq in Hopen. rewrite Hopen, Htype, Hft.
    rewrite bool_decide_eq_false_2 by (intros [x Hx]; discriminate).
    reflexivity. }
  unfold fetch_dry_run_order, order_after_failed_check. rewrite Hs.
  unfold check_dry_limit_order_filled. rewrite Hguard.
  destruct (_dry_is_price_crossed self (symbol order) (Exchange.side order)
              (Exchange.price order) None 0) as [[|]|e];
    cbn [mbind result_bind].
  - fold (closed_in_place order).
    destruct (add_dry_order_fee self (symbol order) (closed_in_place order)
                maker) as [o|e]; [reflexivity|].
    destruct e; reflexivity.
  - now rewrite (insert_id store order_id order Hs).
  - rewrite (insert_id store order_id order Hs). destruct e; reflexivity.
Qed.


(** X14. When the price of an open dry-run limit order is crossed but the
    fee lookup fails (with anything but a [KeyError]), the poll raises
    that error and the stored order is already closed and filled; the next
    poll returns it as closed with the fee entry it had before: the maker
    fee is not looked up again. *)
Theorem fetch_dry_run_order_failed_fee_stays_closed (self : Exchange)
    (store : gmap string CcxtOrder) (order_id : string) (order : CcxtOrder)
    (e : exn) :
  store !! order_id = Some order ->
  status order <> "closed"%string ->
  order_type order = "limit"%string ->
  ft_order_type order = None ->
  _dry_is_price_crossed self (symbol order) (Exchange.side order)
    (Exchange.price order) None 0 = Ok true ->
  get_fee self (symbol order) maker = Raise e ->
  e <> KeyError ->
  let store' := <[order_id := closed_in_place order]> store in
  fetch_dry_run_order order_by_id self store order_id = (Raise e, store')
  /\ fetch_dry_run_order order_by_id self store' order_id
     = (Ok (closed_in_place order), store')
  /\ status (closed_in_place order) = "closed"%string
  /\ filled (closed_in_place order) = Exchange.amount order
  /\ fee (closed_in_place order) = fee order.
Proof.
  intros Hs Hopen Htype Hft Hcross Hfee He store'.
  split; [|split; [|repeat split]].
  - rewrite (fetch_dry_run_order_open_limit self store order_id order Hs
               Hopen Htype Hft), Hcross.
    unfold add_dry_order_fee. cbn [symbol closed_in_place]. rewrite Hfee.
    cbn [mbind result_bind]. destruct e; try reflexivity. now destruct He.
  - destruct (fetch_dry_run_order_plain_cases self store' order_id)
      as (Hsettled & _).
    apply Hsettled; [apply lookup_insert_eq | now left].
Qed.

(** X15. In dry-run, cancelling an id unknown to store and database
    answers with the empty dict and changes nothing; cancelling a stored
    order that is closed, no limit order or a stoploss order marks it
    canceled with nothing filled and the whole amount remaining, also a
    closed one; and every order a cancel returns is canceled, unfilled
    and is the one now held in the store under that id. *)
Theorem cancel_order_dry_run (self : Exchange)
    (store : gmap string CcxtOrder) (order_id pair : string) :
  dry_run self = true ->
  let outcome :=
    cancel_order order_by_id cancel_order_live self store order_id pair in
  (store !! order_id = None -> order_by_id order_id = None ->
   outcome = (Ok None, store))
  /\ (forall order,
        store !! order_id = Some order ->
        status order = "closed"%string
        \/ order_type order <> "limit"%string
        \/ is_Some (ft_order_type order) ->
        outcome
        = (Ok (Some (canceled order)), <[order_id := canceled order]> store))
  /\ (forall order store',
        outcome = (Ok (Some order), store') ->
        status order = "canceled"%string
        /\ filled order = 0
        /\ remaining order = Exchange.amount order
        /\ store' !! order_id = Some order).
Proof.
  intros Hdry outcome. subst outcome. unfold cancel_order. rewrite Hdry.
  destruct (fetch_dry_run_order_plain_cases self store order_id)
    as (Hsettled & Hunknown).
  split; [|split].
  - intros Hs Hdb. now rewrite (Hunknown Hs Hdb).
  - intros order Hs Hset. now rewrite (Hsettled order Hs Hset).
  - intros order store'.
    destruct (fetch_dry_run_order order_by_id self store order_id)
      as [[o|e] st].
    + intros [= <- <-]. cbn. repeat split. apply lookup_insert_eq.
    + destruct e; discriminate.
Qed.

End DryRunStoreFacts.

Section DryRunStoreScenarios.


(** With a fee lookup that times out the same poll raises
    [TemporaryError] and leaves the stored order closed. *)
Lemma fetch_dry_run_order_failed_fee_scenario :
  fetch_dry_run_order (fun _ => None) failing_fee_venue scenario_store
    "dry_run_buy_BTC/USDT_0.0"
  = (Raise TemporaryError,
     <[ "dry_run_buy_BTC/USDT_0.0"%string
        := closed_in_place scenario_open_limit ]> scenario_store).
Proof.
  destruct (fetch_dry_run_order_failed_fee_stays_closed (fun _ => None)
              failing_fee_venue scenario_store "dry_run_buy_BTC/USDT_0.0"
              scenario_open_limit TemporaryError eq_refl)
    as (Hfetch & _);
    [discriminate | reflexivity | reflexivity | reflexivity | reflexivity
    | discriminate |].
  exact Hfetch.
Defined.

(** Cancelling an id nobody knows answers with the empty dict. *)
Lemma cancel_order_dry_run_scenario :
  cancel_order (fun _ => None) (fun _ _ => Raise OperationalException)
    (spot_venue scenario_book) scenario_store "unknown" "BTC/USDT"
  = (Ok None, scenario_store).
Proof.
  destruct (cancel_order_dry_run (fun _ => None)
              (fun _ _ => Raise OperationalException)
              (spot_venue scenario_book) scenario_store "unknown" "BTC/USDT"
              eq_refl) as (Hunknown & _).
  apply Hunknown; reflexivity.
Defined.

End DryRunStoreScenarios.

(** ** Stoploss orders: when the stop has to be moved *)

Section StoplossAdjust.

(** X16. [stoploss_adjust] raises [OperationalException] on a venue
    without stoploss on exchange.  Otherwise an order without a stop price
    always asks for an adjustment; an order with one asks for it exactly
    when the wanted stop lies strictly above it (sell) or strictly below
    it (buy): never for an equal stop, and never for another side. *)
Theorem stoploss_adjust_against_stop (self : Exchange)
    (supported : option bool) (stop_loss : Q) (order : CcxtOrder)
    (side : string) :
  (supported = None \/ supported = Some false ->
   stoploss_adjust self supported stop_loss order side
   = Raise OperationalException)
  /\ (supported = Some true ->
      (order_get_stop order (stop_price_prop (ft_has self)) = None ->
       stoploss_adjust self supported stop_loss order side = Ok true)
      /\ (forall stop,
            order_get_stop order (stop_price_prop (ft_has self)) = Some stop ->
            exists adjust,
              stoploss_adjust self supported stop_loss order side = Ok adjust
              /\ (side = "sell"%string -> (adjust = true <-> stop < stop_loss))
              /\ (side = "buy"%string -> (adjust = true <-> stop_loss < stop))
              /\ (side <> "sell"%string -> side <> "buy"%string ->
                  adjust = false)
              /\ (stop_loss == stop -> adjust = false))).
Proof.
  unfold stoploss_adjust. split.
  - intros [-> | ->]; reflexivity.
  - intros ->. cbn [default from_option id negb]. split.
    + intros ->. reflexivity.
    + intros stop ->. eexists. split; [reflexivity|].
      split; [|split; [|split]].
      * intros ->. cbn [String.eqb Ascii.eqb Bool.eqb andb orb].
        rewrite orb_false_r. apply ltb_lt.
      * intros ->. cbn [String.eqb Ascii.eqb Bool.eqb andb orb].
        apply ltb_lt.
      * intros Hs Hb. apply String.eqb_neq in Hs, Hb. now rewrite Hs, Hb.
      * intros Heq.
        assert (ltb stop stop_loss = false) as ->
          by (apply ltb_ge; rewrite Heq; apply Qle_refl).
        assert (ltb stop_loss stop = false) as ->
          by (apply ltb_ge; rewrite Heq; apply Qle_refl).
        now rewrite !andb_false_r.
Qed.

End StoplossAdjust.

(** ** Order-book depth accepted by the venue *)

Section NextLimit.

Lemma fold_min_spec (l : list Z) (x : Z) :
  In (fold_left Z.min l x) (x :: l)
  /\ (forall y, In y (x :: l) -> (fold_left Z.min l x <= y)%Z).
Proof.
  revert x. induction l as [|a l IH]; intros x; cbn [fold_left].
  - split; [now left|]. intros y [<-|[]]. lia.
  - destruct (IH (Z.min x a)) as (Hin & Hle). split.
    + destruct Hin as [Hin|Hin]; [|now right; right].
      rewrite <- Hin. destruct (Z.min_spec x a) as [[_ ->]|[_ ->]];
        [now left | now right; left].
    + intros y [<-|[<-|Hy]].
      * specialize (Hle (Z.min x a) (or_introl eq_refl)). lia.
      * specialize (Hle (Z.min x a) (or_introl eq_refl)). lia.
      * apply Hle. now right.
Qed.

Lemma fold_max_spec (l : list Z) (x : Z) :
  In (fold_left Z.max l x) (x :: l)
  /\ (forall y, In y (x :: l) -> (y <= fold_left Z.max l x)%Z).
Proof.
  revert x. induction l as [|a l IH]; intros x; cbn [fold_left].
  - split; [now left|]. intros y [<-|[]]. lia.
  - destruct (IH (Z.max x a)) as (Hin & Hle). split.
    + destruct Hin as [Hin|Hin]; [|now right; right].
      rewrite <- Hin. destruct (Z.max_spec x a) as [[_ ->]|[_ ->]];
        [now right; left | now left].
    + intros y [<-|[<-|Hy]].
      * specialize (Hle (Z.max x a) (or_introl eq_refl)). lia.
      * specialize (Hle (Z.max x a) (or_introl eq_refl)). lia.
      * apply Hle. now right.
Qed.

Lemma min_ints_spec (l : list Z) :
  l <> [] ->
  exists m, min_ints l = Ok m /\ In m l /\ (forall y, In y l -> (m <= y)%Z).
Proof.
  destruct l as [|x l]; [congruence|]. intros _.
  exists (fold_left Z.min l x). split; [reflexivity|]. apply fold_min_spec.
Qed.

Lemma max_ints_spec (l : list Z) :
  l <> [] ->
  exists m, max_ints l = Ok m /\ In m l /\ (forall y, In y l -> (y <= m)%Z).
Proof.
  destruct l as [|x l]; [congruence|]. intros _.
  exists (fold_left Z.max l x). split; [reflexivity|]. apply fold_max_spec.
Qed.

(** X17. With a non-empty range [get_next_limit_in_list] never raises.
    If some value of the range reaches the limit it returns the least
    such value; if none does it returns the greatest value of the range
    when a range is required and [None] when it is not. *)
Theorem get_next_limit_in_list_in_range (limit : Z) (limit_range : list Z)
    (range_required : bool) (upper_limit : option Z) :
  limit_range <> [] ->
  let next :=
    get_next_limit_in_list limit (Some limit_range) range_required
      upper_limit in
  ((exists x, In x limit_range /\ (limit <= x)%Z) ->
   exists r,
     next = Ok (Some r) /\ In r limit_range /\ (limit <= r)%Z
     /\ (forall y, In y limit_range -> (limit <= y)%Z -> (r <= y)%Z))
  /\ ((forall x, In x limit_range -> (x < limit)%Z) ->
      exists top,
        In top limit_range
        /\ (forall y, In y limit_range -> (y <= top)%Z)
        /\ next = Ok (if range_required then Some top else None)).
Proof.
  intros Hne next. subst next. unfold get_next_limit_in_list.
  destruct limit_range as [|x0 l0] eqn:El; [congruence|]. rewrite <- El in *.
  destruct (max_ints_spec limit_range Hne) as (top & Htop & Hin & Hmax).
  rewrite Htop. cbn [mbind result_bind].
  set (cands := List.filter (fun x => (limit <=? x)%Z) limit_range ++ [top]).
  assert (cands <> []) as Hc by (subst cands; now destruct (List.filter _ _)).
  destruct (min_ints_spec cands Hc) as (r & Hr & Hrin & Hrmin).
  rewrite Hr. cbn [mbind result_bind].
  assert (forall y, In y cands <->
                    (In y limit_range /\ (limit <= y)%Z) \/ y = top) as Hcands.
  { intros y. subst cands. rewrite in_app_iff, filter_In, Z.leb_le.
    cbn [In]. intuition. }
  split.
  - intros (x & Hx & Hlx).
    assert (limit <= r)%Z as Hlr.
    { apply Hcands in Hrin as [[_ H]| ->]; [exact H|].
      specialize (Hmax x Hx). lia. }
    assert ((limit >? r)%Z = false) as -> by lia.
    rewrite andb_false_r. exists r. split; [reflexivity|].
    split; [|split; [exact Hlr|]].
    + apply Hcands in Hrin as [[H _]| ->]; assumption.
    + intros y Hy Hly. apply Hrmin, Hcands. now left.
  - intros Hall. exists top. split; [exact Hin|]. split; [exact Hmax|].
    assert (r = top) as ->.
    { apply Hcands in Hrin as [[H1 H2]|H]; [|exact H].
      specialize (Hall r H1). lia. }
    assert ((limit >? top)%Z = true) as -> by (specialize (Hall top Hin); lia).
    rewrite andb_true_r. now destruct range_required.
Qed.

(** X18. Without a range (none, or an empty list) the result is the
    limit itself, cut to the upper limit when one is given and is not
    zero; it is never [None] and never above the limit. *)
Theorem get_next_limit_in_list_without_range (limit : Z)
    (limit_range : option (list Z)) (range_required : bool)
    (upper_limit : option Z) :
  limit_range = None \/ limit_range = Some [] ->
  exists r,
    get_next_limit_in_list limit limit_range range_required upper_limit
    = Ok (Some r)
    /\ (r <= limit)%Z
    /\ (forall u, upper_limit = Some u -> u <> 0%Z -> r = Z.min limit u)
    /\ (upper_limit = None \/ upper_limit = Some 0%Z -> r = limit).
Proof.
  intros Hrange.
  assert (get_next_limit_in_list limit limit_range range_required upper_limit
          = match upper_limit with
            | Some u => if (u =? 0)%Z then Ok (Some limit)
                        else Ok (Some (Z.min limit u))
            | None => Ok (Some limit)
            end) as ->
    by (destruct Hrange as [-> | ->]; reflexivity).
  destruct upper_limit as [u|].
  - destruct (Z.eqb_spec u 0) as [-> | Hu].
    + exists limit. repeat split; try lia. intros u [= <-]. congruence.
    + exists (Z.min limit u). repeat split; try lia.
      * now intros u' [= <-].
      * intros [H|[= H]]; [discriminate | congruence].
  - exists limit. repeat split; try lia. discriminate.
Qed.

End NextLimit.

Section NextLimitScenarios.

(** With depths 5, 10, 20, 50 on offer, asking for 12 gives 20. *)
Lemma get_next_limit_in_list_scenario :
  exists r,
    get_next_limit_in_list 12 (Some [5; 10; 20; 50]%Z) true None
    = Ok (Some r)
    /\ In r [5; 10; 20; 50]%Z /\ (12 <= r)%Z.
Proof.
  destruct (get_next_limit_in_list_in_range 12 [5; 10; 20; 50]%Z true None)
    as (Hsome & _); [discriminate|].
  destruct Hsome as (r & Hr & Hin & Hle & _).
  - exists 20%Z. split; [cbn; tauto | lia].
  - exists r. now repeat split.
Defined.

(** Without a range a depth of 100 is cut to an upper limit of 50. *)
Lemma get_next_limit_in_list_without_range_scenario :
  exists r,
    get_next_limit_in_list 100 None true (Some 50%Z) = Ok (Some r)
    /\ r = 50%Z.
Proof.
  destruct (get_next_limit_in_list_without_range 100 None true (Some 50%Z))
    as (r & Hr & _ & Hmin & _); [now left|].
  exists r. split; [exact Hr|]. now apply (Hmin 50%Z).
Defined.

End NextLimitScenarios.

(** ** Rate selection *)

Section PriceSide.

(** X19. With [price_side] configured as [same] or [other], the book
    side follows a parity rule: a long entry on the same side is a bid,
    and each of exit for entry, short for long and [other] for [same]
    swaps bid and ask.  Any other configured value is returned as it is;
    a side that is neither entry nor exit raises [KeyError], and so does a
    configuration without [price_side]. *)
Theorem get_price_side_parity (side : string) (is_short : bool)
    (conf_strategy : PricingConf) :
  (forall mode,
     price_side conf_strategy = Some mode ->
     mode = "same"%string \/ mode = "other"%string ->
     (side = "entry"%string \/ side = "exit"%string ->
      _get_price_side side is_short conf_strategy
      = Ok (if xorb (xorb (String.eqb side "exit") is_short)
                 (String.eqb mode "other")
            then "ask"%string else "bid"%string))
     /\ (side <> "entry"%string -> side <> "exit"%string ->
         _get_price_side side is_short conf_strategy = Raise KeyError))
  /\ (forall mode,
        price_side conf_strategy = Some mode ->
        mode <> "same"%string -> mode <> "other"%string ->
        _get_price_side side is_short conf_strategy = Ok mode)
  /\ (price_side conf_strategy = None ->
      _get_price_side side is_short conf_strategy = Raise KeyError).
Proof.
  unfold _get_price_side. split; [|split].
  - intros mode -> Hmode. cbn [mbind result_bind]. split.
    + intros [-> | ->]; destruct Hmode as [-> | ->]; destruct is_short;
        reflexivity.
    + intros He Hx. apply String.eqb_neq in He, Hx.
      assert (forall b c : string,
                price_map_getitem (side, b, c) = Raise KeyError) as Hmiss.
      { intros b c. unfold price_map_getitem, price_map.
        cbn [List.find fst snd]. rewrite !(String.eqb_sym _ side), He, Hx.
        reflexivity. }
      destruct Hmode as [-> | ->]; apply Hmiss.
  - intros mode -> Hs Ho. apply String.eqb_neq in Hs, Ho.
    cbn [mbind result_bind]. now rewrite Hs, Ho.
  - intros ->. reflexivity.
Qed.

End PriceSide.

Section RateFromTicker.

(** X20. With a ticker that carries the wanted side and a last price, and
    a [price_last_balance] between 0 and 1, the rate taken from the ticker
    lies between the side's price and the last price: an entry never pays
    more than the side's price and an exit never asks less.  Without a
    balance the side's price is used. *)
Theorem get_rate_from_ticker_between (side : string)
    (ticker : gmap string (option Q)) (conf_strategy : PricingConf)
    (price_side : string) (rate last : Q) :
  ticker !! price_side = Some (Some rate) ->
  ticker !! "last"%string = Some (Some last) ->
  0 <= default 0 (price_last_balance conf_strategy) <= 1 ->
  exists r,
    _get_rate_from_ticker side ticker conf_strategy price_side = Ok (Some r)
    /\ Qmin rate last <= r <= Qmax rate last
    /\ (side = "entry"%string -> r <= rate)
    /\ (side = "exit"%string -> rate <= r)
    /\ (side <> "entry"%string -> side <> "exit"%string -> r = rate)
    /\ (price_last_balance conf_strategy = None -> r == rate).
Proof.
  intros Hrate Hlast Hbal. unfold _get_rate_from_ticker, getitem.
  rewrite Hrate, Hlast. cbn [mbind result_bind].
  set (balance := default 0 (price_last_balance conf_strategy)) in *.
  assert (Qmin rate last <= rate) as Hlo by apply Q.le_min_l.
  assert (rate <= Qmax rate last) as Hhi by apply Q.le_max_l.
  assert (forall P : Prop, price_last_balance conf_strategy = None ->
                           (balance == 0 -> P) -> P) as Hnone.
  { intros P Hn HP. apply HP. subst balance. now rewrite Hn. }
  destruct (truthy last && truthy rate).
  2: { exists rate.
       repeat split; intros; try assumption; try apply Qle_refl; reflexivity. }
  destruct (String.eqb_spec side "entry") as [-> | Hentry].
  - cbn [andb]. destruct (ltb last rate) eqn:Hlt.
    + apply ltb_lt in Hlt. eexists. split; [reflexivity|].
      assert (Qmin rate last == last) as Hmin
        by (apply Q.min_r; now apply Qlt_le_weak).
      assert (Qmax rate last == rate) as Hmax
        by (apply Q.max_l; now apply Qlt_le_weak).
      rewrite Hmin, Hmax. repeat split; try nra; try discriminate.
      * congruence.
      * intros Hn. apply (Hnone _ Hn). intros H0. rewrite H0. ring.
    + exists rate.
      repeat split; intros; try assumption; try apply Qle_refl; reflexivity.
  - cbn [andb]. destruct (String.eqb_spec side "exit") as [-> | Hexit].
    + cbn [andb]. destruct (ltb rate last) eqn:Hlt.
      * apply ltb_lt in Hlt. eexists. split; [reflexivity|].
        assert (Qmin rate last == rate) as Hmin
          by (apply Q.min_l; now apply Qlt_le_weak).
        assert (Qmax rate last == last) as Hmax
          by (apply Q.max_r; now apply Qlt_le_weak).
        rewrite Hmin, Hmax. repeat split; try nra; try discriminate.
        -- congruence.
        -- intros Hn. apply (Hnone _ Hn). intros H0. rewrite H0. ring.
      * exists rate.
        repeat split; intros; try assumption; try apply Qle_refl; reflexivity.
    + cbn [andb]. exists rate.
      repeat split; intros; try assumption; try apply Qle_refl; reflexivity.
Qed.

End RateFromTicker.

Section RateFromTickerScenario.

(** An entry at the ask of 102 with last price 100 and balance 1/2: the
    rate stays between 100 and 102. *)
Lemma get_rate_from_ticker_between_scenario :
  exists r,
    _get_rate_from_ticker "entry" scenario_ticker scenario_pricing "ask"
    = Ok (Some r)
    /\ 100 <= r <= 102.
Proof.
  destruct (get_rate_from_ticker_between "entry" scenario_ticker
              scenario_pricing "ask" 102 100 eq_refl eq_refl)
    as (r & Hr & Hbetween & _).
  - split; discriminate.
  - exists r. split; [exact Hr | exact Hbetween].
Defined.

End RateFromTickerScenario.

Section RateFromOrderBook.

Lemma index_spec {A} (l : list A) (i : Z) :
  let n := Z.of_nat (length l) in
  ((0 <= i < n)%Z ->
   exists x, nth_error l (Z.to_nat i) = Some x /\ index l i = Ok x)
  /\ ((- n <= i < 0)%Z ->
      exists x, nth_error l (Z.to_nat (i + n)) = Some x /\ index l i = Ok x)
  /\ ((n <= i)%Z \/ (i < - n)%Z -> index l i = Raise IndexError).
Proof.
  intros n. unfold index. fold n.
  assert (forall j, (0 <= j < n)%Z ->
                    exists x, nth_error l (Z.to_nat j) = Some x) as Hnth.
  { intros j Hj. destruct (nth_error l (Z.to_nat j)) eqn:E; [eauto|].
    apply nth_error_None in E. subst n. lia. }
  split; [|split].
  - intros Hi. destruct (Hnth i Hi) as (x & Hx). exists x.
    split; [exact Hx|].
    assert ((i <? 0)%Z = false) as -> by lia.
    assert ((0 <=? i)%Z && (i <? n)%Z = true) as -> by lia.
    now rewrite Hx.
  - intros Hi. destruct (Hnth (i + n)%Z ltac:(lia)) as (x & Hx). exists x.
    split; [exact Hx|].
    assert ((i <? 0)%Z = true) as -> by lia.
    assert ((0 <=? i + n)%Z && (i + n <? n)%Z = true) as -> by lia.
    now rewrite Hx.
  - intros [Hi|Hi].
    + assert ((i <? 0)%Z = false) as -> by lia.
      assert ((0 <=? i)%Z && (i <? n)%Z = false) as -> by lia.
      reflexivity.
    + assert ((i <? 0)%Z = true) as -> by lia.
      assert ((0 <=? i + n)%Z && (i + n <? n)%Z = false) as -> by lia.
      reflexivity.
Qed.

(** X21. [_get_rate_from_ob] reads the bids for [bid] and the asks for
    anything else.  A depth from 1 to the number of levels gives the price
    of that level; a depth beyond the levels raises [PricingError]; a
    depth of 0 or below is a negative index and counts from the deepest
    level (0 gives the last level) until it too leaves the list.  No
    other exception comes out. *)
Theorem get_rate_from_ob_levels (pair side : string) (order_book : OrderBook)
    (name price_side : string) (order_book_top : Z) :
  let levels :=
    if String.eqb price_side "bid" then bids order_book
    else asks order_book in
  let n := Z.of_nat (length levels) in
  let rate :=
    _get_rate_from_ob pair side order_book name price_side order_book_top in
  ((1 <= order_book_top <= n)%Z ->
   exists level,
     nth_error levels (Z.to_nat (order_book_top - 1)) = Some level
     /\ rate = Returned (fst level))
  /\ ((n < order_book_top)%Z \/ (order_book_top <= - n)%Z ->
      rate = RaisedPricingError)
  /\ ((- n < order_book_top <= 0)%Z ->
      exists level,
        nth_error levels (Z.to_nat (n - 1 + order_book_top)) = Some level
        /\ rate = Returned (fst level))
  /\ (forall e, rate <> Raised e).
Proof.
  intros levels n rate. subst rate. unfold _get_rate_from_ob. fold levels.
  destruct (index_spec levels (order_book_top - 1)) as (Hin & Hneg & Hout).
  fold n in Hin, Hneg, Hout.
  split; [|split; [|split]].
  - intros H. destruct Hin as (x & Hx & ->); [lia|]. now exists x.
  - intros H. rewrite Hout by lia. reflexivity.
  - intros H. destruct Hneg as (x & Hx & ->); [lia|]. exists x.
    split; [|reflexivity].
    now replace (n - 1 + order_book_top)%Z with (order_book_top - 1 + n)%Z
      by lia.
  - intros e.
    destruct (Z_lt_le_dec (order_book_top - 1) (- n)) as [H|H];
      [rewrite Hout by lia; discriminate|].
    destruct (Z_lt_le_dec (order_book_top - 1) 0) as [H0|H0];
      [destruct Hneg as (x & _ & ->); [lia | discriminate]|].
    destruct (Z_lt_le_dec (order_book_top - 1) n) as [H1|H1];
      [destruct Hin as (x & _ & ->); [lia | discriminate]|].
    rewrite Hout by lia. discriminate.
Qed.

End RateFromOrderBook.

Section RateFromOrderBookScenario.

(** On the scenario book a depth of 2 gives the second ask, 11. *)
Lemma get_rate_from_ob_levels_scenario :
  _get_rate_from_ob "BTC/USDT" "entry" scenario_book "Entry" "ask" 2
  = Returned 11.
Proof.
  destruct (get_rate_from_ob_levels "BTC/USDT" "entry" scenario_book "Entry"
              "ask" 2) as (Hin & _).
  destruct Hin as (level & Hlevel & ->); [cbn; lia|].
  cbn in Hlevel. now injection Hlevel as <-.
Defined.

End RateFromOrderBookScenario.

Section GetRateFacts.

Variable Cache : Type.
Variable cache_get : Cache -> string -> option Q.
Variable cache_set : Cache -> string -> Q -> Cache.
Variable config_pricing : string -> option PricingConf.
Variable fetch_ticker : string -> result (gmap string (option Q)).

(** X22. [get_rate] answers from the side's cache when no refresh is
    asked for and the cached rate is not zero: configuration, order book
    and ticker are not looked at and the caches stay as they are.  Every
    other rate it returns has been written to the side's cache under the
    pair, the other cache untouched.  On a miss with no pricing entry
    configured it raises [KeyError]. *)
Theorem get_rate_cache_discipline (self : Exchange) (caches : Cache * Cache)
    (pair : string) (refresh : bool) (side : string) (is_short : bool)
    (order_book : option OrderBook)
    (ticker : option (gmap string (option Q))) :
  let cache :=
    if String.eqb side "entry" then fst caches else snd caches in
  let written rate :=
    if String.eqb side "entry" then
      (cache_set (fst caches) pair rate, snd caches)
    else (fst caches, cache_set (snd caches) pair rate) in
  let strat_name :=
    if String.eqb side "entry" then "entry_pricing"%string
    else "exit_pricing"%string in
  let rate :=
    get_rate Cache cache_get cache_set config_pricing fetch_ticker self
      caches pair refresh side is_short order_book ticker in
  (forall cached,
     refresh = false -> cache_get cache pair = Some cached ->
     ~ cached == 0 ->
     rate = Returned (cached, caches))
  /\ (forall r caches',
        rate = Returned (r, caches') ->
        (refresh = false /\ cache_get cache pair = Some r /\ ~ r == 0
         /\ caches' = caches)
        \/ caches' = written r)
  /\ (refresh = true
      \/ (forall cached, cache_get cache pair = Some cached -> cached == 0) ->
      config_pricing strat_name = None ->
      rate = Raised KeyError).
Proof.
  intros cache written strat_name rate. subst rate. unfold get_rate.
  fold cache strat_name.
  set (cached :=
         if refresh then None
         else match cache_get cache pair with
              | Some rate => if truthy rate then Some rate else None
              | None => None
              end).
  assert (forall r, cached = Some r ->
                    refresh = false /\ cache_get cache pair = Some r
                    /\ ~ r == 0) as Hhit.
  { intros r. subst cached. destruct refresh; [discriminate|].
    destruct (cache_get cache pair) as [q|]; [|discriminate].
    destruct (truthy q) eqn:Et; [|discriminate]. intros [= ->].
    repeat split. intros Hz. unfold truthy in Et.
    apply negb_true_iff, eqb_neq in Et. contradiction. }
  split; [|split].
  - intros r Hr Hc Hnz.
    assert (cached = Some r) as ->; [|reflexivity].
    subst cached. rewrite Hr, Hc. now rewrite (truthy_nonzero r Hnz).
  - intros r caches'. destruct cached as [q|] eqn:Ec.
    + intros [= <- <-]. left. destruct (Hhit q eq_refl) as (H1 & H2 & H3).
      now repeat split.
    + intros H. right. subst written. unfold lift in H. cbv beta.
      repeat match type of H with
             | context [match ?x with _ => _ end] =>
                 destruct x eqn:?; try discriminate
             end;
        injection H as <- <-; reflexivity.
  - intros Hmiss Hconf.
    assert (cached = None) as ->.
    { subst cached. destruct Hmiss as [-> | Hzero]; [reflexivity|].
      destruct refresh; [reflexivity|].
      destruct (cache_get cache pair) as [q|]; [|reflexivity].
      assert (truthy q = false) as ->; [|reflexivity].
      unfold truthy. apply negb_false_iff, Qeq_bool_iff. now apply Hzero. }
    rewrite Hconf. reflexivity.
Qed.

End GetRateFacts.

Section GetRateScenario.

(** A cached entry rate of 10 is returned without any configuration. *)
Lemma get_rate_cache_scenario :
  get_rate (gmap string Q) map_cache_get map_cache_set (fun _ => None)
    (fun _ => Raise TemporaryError) (spot_venue scenario_book)
    ({[ "BTC/USDT"%string := 10 ]}, ∅) "BTC/USDT" false "entry" false None
    None
  = Returned (10, ({[ "BTC/USDT"%string := 10 ]}, ∅)).
Proof.
  destruct (get_rate_cache_discipline (gmap string Q) map_cache_get
              map_cache_set (fun _ => None) (fun _ => Raise TemporaryError)
              (spot_venue scenario_book) ({[ "BTC/USDT"%string := 10 ]}, ∅)
              "BTC/USDT" false "entry" false None None) as (Hhit & _).
  apply Hhit; [reflexivity | reflexivity | discriminate].
Defined.

End GetRateScenario.

(** ** Time-based trade history: the pull ends *)

Section TradeHistoryTimeFacts.

Variable _async_fetch_trades : nat -> string -> Z -> fetched.


Lemma trade_history_time_loop_ends (pair : string) (until : Z) :
  until <> 0%Z ->
  venue_advances _async_fetch_trades pair ->
  forall fuel n since trades,
    (Z.to_nat (until + 1 - since) < fuel)%nat ->
    exists r,
      _async_get_trade_history_time_loop _async_fetch_trades fuel n pair
        until since trades = Some r
      /\ (venue_answers _async_fetch_trades pair ->
          exists more,
            r = Ok (pair, trades ++ more)
            /\ List.Forall (served _async_fetch_trades pair) more).
Proof.
  intros Huntil Hadv fuel.
  induction fuel as [|fuel IH]; intros n since trades Hfuel; [lia|].
  cbn [_async_get_trade_history_time_loop].
  destruct (_async_fetch_trades n pair since) as [t since_next| |e] eqn:Ef.
  - destruct t as [|tr t].
    + eexists. split; [reflexivity|]. intros _. exists [].
      now rewrite app_nil_r.
    + destruct ((since =? since_next)%Z && (length (tr :: t) =? 1)%nat)
        eqn:Erep.
      * eexists. split; [reflexivity|]. intros _. exists [].
        now rewrite app_nil_r.
      * assert (List.Forall (served _async_fetch_trades pair) (tr :: t))
          as Hpage.
        { apply List.Forall_forall. intros x Hx.
          now exists n, since, (tr :: t), since_next. }
        assert (since < since_next)%Z as Hlt.
        { destruct (Hadv n since (tr :: t) since_next Ef ltac:(discriminate))
            as [H|[H1 H2]]; [exact H|].
          apply andb_false_iff in Erep as [E|E].
          - apply Z.eqb_neq in E. contradiction.
          - apply Nat.eqb_neq in E. contradiction. }
        destruct (negb (until =? 0)%Z && (since_next >? until)%Z) eqn:Eend.
        -- eexists. split; [reflexivity|]. intros _. now exists (tr :: t).
        -- assert (since_next <= until)%Z as Hle.
           { apply andb_false_iff in Eend as [E|E]; [|lia].
             apply negb_false_iff, Z.eqb_eq in E. contradiction. }
           destruct (IH (S n) since_next (trades ++ tr :: t) ltac:(lia))
             as (r & Hr & Hok).
           exists r. split; [exact Hr|]. intros Hans.
           destruct (Hok Hans) as (more & -> & Hmore).
           exists ((tr :: t) ++ more). split; [now rewrite app_assoc|].
           now apply Forall_app.
  - eexists. split; [reflexivity|]. intros _. exists [].
    now rewrite app_nil_r.
  - eexists. split; [reflexivity|]. intros Hans. now destruct (Hans n since e).
Qed.

(** X23. With an end of the download period given, on a venue whose every
    non-empty page moves the pagination time forward (or is the single
    repeated trade), the time-based pull ends within
    [until + 1 - since] awaits plus one, whatever the venue serves.  If no
    await fails it returns the pair with trades that were all served by
    the venue. *)
Theorem trade_history_time_ends (pair : string) (until since : Z)
    (fuel : nat) :
  until <> 0%Z ->
  venue_advances _async_fetch_trades pair ->
  (Z.to_nat (until + 1 - since) < fuel)%nat ->
  exists r,
    _async_get_trade_history_time _async_fetch_trades fuel pair until since
    = Some r
    /\ (venue_answers _async_fetch_trades pair ->
        exists trades,
          r = Ok (pair, trades)
          /\ List.Forall (served _async_fetch_trades pair) trades).
Proof.
  intros Huntil Hadv Hfuel. unfold _async_get_trade_history_time.
  destruct (trade_history_time_loop_ends pair until Huntil Hadv fuel 0%nat
              since [] Hfuel) as (r & Hr & Hok).
  exists r. split; [exact Hr|]. intros Hans.
  destruct (Hok Hans) as (more & -> & Hmore). now exists more.
Qed.

End TradeHistoryTimeFacts.

Section TradeHistoryTimeScenario.

(** One trade per millisecond up to time 3, pulled from 0 until 2. *)
Lemma trade_history_time_ends_scenario :
  exists r,
    _async_get_trade_history_time scenario_trades 4 "BTC/USDT" 2 0 = Some r.
Proof.
  destruct (trade_history_time_ends scenario_trades "BTC/USDT" 2 0 4)
    as (r & Hr & _).
  - discriminate.
  - intros n since t since_next. unfold scenario_trades.
    destruct (since <? 3)%Z.
    + intros [= <- <-] _. left. lia.
    + intros [= <- <-] Hne. now destruct Hne.
  - cbn. lia.
  - now exists r.
Defined.

End TradeHistoryTimeScenario.

(** ** Windowed order history *)

Section UniqueById.

Lemma dict_set_keys (d : list (string * CcxtOrder)) (k : string)
    (v : CcxtOrder) :
  (In k (map fst d) /\ map fst (dict_set d k v) = map fst d)
  \/ (~ In k (map fst d) /\ map fst (dict_set d k v) = map fst d ++ [k]).
Proof.
  induction d as [|[k' v'] d IH]; cbn [dict_set map fst].
  - right. split; [tauto | reflexivity].
  - destruct (String.eqb_spec k' k) as [-> | Hne].
    + left. split; [now left | reflexivity].
    + cbn [map fst]. destruct IH as [(Hin & ->)|(Hin & ->)].
      * left. split; [now right | reflexivity].
      * right. split; [|reflexivity].
        cbn [In]. intros [H|H]; [now apply Hne | now apply Hin].
Qed.

Lemma dict_set_In (d : list (string * CcxtOrder)) (k : string)
    (v : CcxtOrder) :
  List.NoDup (map fst d) ->
  forall k' v',
    In (k', v') (dict_set d k v)
    <-> (k' = k /\ v' = v) \/ (k' <> k /\ In (k', v') d).
Proof.
  induction d as [|[k0 v0] d IH]; intros Hnd k' v'; cbn [dict_set].
  - cbn [In]. split.
    + intros [[= <- <-]|[]]. now left.
    + intros [[-> ->]|[_ []]]. now left.
  - apply List.NoDup_cons_iff in Hnd as (Hnotin & Hnd).
    destruct (String.eqb_spec k0 k) as [-> | Hne]; cbn [In].
    + split.
      * intros [[= <- <-]|H]; [now left|]. right. split; [|now right].
        intros ->. apply Hnotin. now apply (in_map fst) in H.
      * intros [[-> ->]|[Hk [[= <- <-]|H]]];
          [now left | now destruct Hk | now right].
    + rewrite (IH Hnd). split.
      * intros [[= <- <-]|[H|[H1 H2]]]; [| now left | ].
        -- right. split; [exact Hne | now left].
        -- right. split; [exact H1 | now right].
      * intros [[-> ->]|[Hk [[= <- <-]|H]]].
        -- right. now left.
        -- now left.
        -- right. right. now split.
Qed.

Lemma app_tail_split {A} (l l1 l2 : list A) (o v : A) :
  l ++ [o] = l1 ++ v :: l2 ->
  (l2 = [] /\ l = l1 /\ v = o)
  \/ (exists l2', l2 = l2' ++ [o] /\ l = l1 ++ v :: l2').
Proof.
  destruct l2 as [|x l2] using rev_ind; intros H.
  - left. apply app_inj_tail in H as (-> & ->). now repeat split.
  - right. exists l2.
    change (l1 ++ v :: l2 ++ [x]) with (l1 ++ (v :: l2) ++ [x]) in H.
    rewrite app_assoc in H. apply app_inj_tail in H as (-> & ->).
    now split.
Qed.

(** The dict built from the orders: keys are the ids, each key once, and
    the value under an id is the last order of the list with that id. *)
Lemma orders_dict_spec (orders : list CcxtOrder) :
  let d := fold_left (fun d order => dict_set d (id_ order) order) orders []
  in
  List.NoDup (map fst d)
  /\ forall k v,
       In (k, v) d
       <-> k = id_ v
           /\ exists before after,
                orders = before ++ v :: after
                /\ forall o, In o after -> id_ o <> id_ v.
Proof.
  induction orders as [|o l IH] using rev_ind; cbn zeta.
  - split; [constructor|]. intros k v. cbn [fold_left In]. split; [tauto|].
    intros (_ & before & after & H & _). now destruct before.
  - rewrite fold_left_app. cbn [fold_left].
    set (d := fold_left _ l []) in *. cbn zeta in IH.
    destruct IH as (Hnd & Hin). split.
    + destruct (dict_set_keys d (id_ o) o) as [(_ & ->)|(E & ->)];
        [exact Hnd|].
      apply List.NoDup_app; [exact Hnd | repeat constructor; tauto |].
      intros x Hx [<-|[]]. contradiction.
    + intros k v. rewrite (dict_set_In d (id_ o) o Hnd), Hin. split.
      * intros [[-> ->]|[Hk (-> & before & after & -> & Hlast)]].
        -- split; [reflexivity|]. exists l, []. split; [reflexivity|].
           intros x [].
        -- split; [reflexivity|]. exists before, (after ++ [o]).
           split; [now rewrite <- app_assoc|].
           intros x Hx. apply in_app_iff in Hx as [Hx|[<-|[]]];
             [now apply Hlast | congruence].
      * intros (-> & before & after & Heq & Hlast).
        apply app_tail_split in Heq as [(-> & -> & ->)|(after' & -> & ->)].
        -- now left.
        -- right. split.
           ++ intros Heq. apply (Hlast o); [|congruence].
              apply in_app_iff. right. now left.
           ++ split; [reflexivity|]. exists before, after'.
              split; [reflexivity|]. intros x Hx. apply Hlast.
              apply in_app_iff. now left.
Qed.

(** X24. The list of orders made unique by id holds each id once, and an
    order is in it exactly when it is the last order of the input with
    its id: of several answers for one order the latest wins. *)
Theorem unique_by_id_keeps_last (orders : list CcxtOrder) :
  List.NoDup (map id_ (unique_by_id orders))
  /\ forall order,
       In order (unique_by_id orders)
       <-> exists before after,
             orders = before ++ order :: after
             /\ forall o, In o after -> id_ o <> id_ order.
Proof.
  unfold unique_by_id.
  destruct (orders_dict_spec orders) as (Hnd & Hin). cbv zeta in Hnd, Hin.
  set (d := fold_left _ orders []) in *.
  assert (map id_ (map snd d) = map fst d) as Hkeys.
  { rewrite map_map. apply map_ext_in. intros [k v] Hkv.
    apply Hin in Hkv as (-> & _). reflexivity. }
  split; [now rewrite Hkeys|].
  intros order. rewrite in_map_iff. split.
  - intros ([k v] & <- & Hkv). now apply Hin in Hkv as (_ & H).
  - intros H. exists (id_ order, order). split; [reflexivity|].
    apply Hin. now split.
Qed.

End UniqueById.

Section FetchOrdersFacts.

Variable _fetch_orders : nat -> string -> Z -> result (list CcxtOrder).
Variable dt_now : nat -> Z.

Lemma unique_by_id_NoDup (orders : list CcxtOrder) :
  List.NoDup (map id_ (unique_by_id orders)).
Proof.
  unfold unique_by_id.
  destruct (orders_dict_spec orders) as (Hnd & Hin). cbv zeta in Hnd, Hin.
  set (d := fold_left _ orders []) in *.
  assert (map id_ (map snd d) = map fst d) as ->; [|exact Hnd].
  rewrite map_map. apply map_ext_in. intros [k v] Hkv.
  apply Hin in Hkv as (-> & _). reflexivity.
Qed.

Lemma fetch_orders_loop_ends (pair : string) (step T : Z) :
  (0 < step)%Z ->
  (forall n, (dt_now n <= T)%Z) ->
  forall fuel n since orders,
    (T - since < step * Z.of_nat fuel)%Z ->
    exists r,
      fetch_orders_loop _fetch_orders dt_now (S fuel) n pair since step
        orders = Some r
      /\ ((forall n since, is_ok (_fetch_orders n pair since) = true) ->
          is_ok r = true).
Proof.
  intros Hstep Hnow fuel.
  induction fuel as [|fuel IH]; intros n since orders Hfuel;
    cbn [fetch_orders_loop].
  - assert ((since <? dt_now n)%Z = false) as ->
      by (specialize (Hnow n); lia).
    eexists. split; reflexivity.
  - destruct (since <? dt_now n)%Z; [|eexists; split; reflexivity].
    destruct (_fetch_orders n pair since) as [page|e] eqn:Ef.
    + apply IH. lia.
    + eexists. split; [reflexivity|]. intros Hok.
      specialize (Hok n since). now rewrite Ef in Hok.
Qed.

(** X25. In dry-run [fetch_orders] returns no orders and asks nothing.
    On a venue with a window of [limit] minutes, [limit] at least 2, the
    walk from [since] in steps of [limit - 1] minutes ends once the steps
    reach past the clock; if no call fails it returns orders with
    pairwise distinct ids, and a failing call is raised. *)
Theorem fetch_orders_windowed (self : Exchange) (limit : Z)
    (pair : string) (since T : Z) (fuel : nat) :
  (dry_run self = true ->
   forall fuel limit_minutes,
     fetch_orders _fetch_orders dt_now fuel self limit_minutes pair since
     = Some (Ok []))
  /\ (dry_run self = false ->
      (2 <= limit)%Z ->
      (forall n, (dt_now n <= T)%Z) ->
      (T - since < (limit - 1) * 60000 * Z.of_nat fuel)%Z ->
      exists r,
        fetch_orders _fetch_orders dt_now (S fuel) self (Some limit) pair
          since = Some r
        /\ (forall e, r = Raise e ->
            exists n since', _fetch_orders n pair since' = Raise e)
        /\ (forall orders, r = Ok orders -> List.NoDup (map id_ orders))
        /\ ((forall n since', is_ok (_fetch_orders n pair since') = true) ->
            is_ok r = true)).
Proof.
  unfold fetch_orders. split.
  - intros ->. reflexivity.
  - intros -> Hlimit Hnow Hfuel.
    assert (forall fuel n since orders r,
              fetch_orders_loop _fetch_orders dt_now fuel n pair since
                ((limit - 1) * 60000) orders = Some r ->
              forall e, r = Raise e ->
              exists n since', _fetch_orders n pair since' = Raise e)
      as Hraise.
    { clear. intros fuel.
      induction fuel as [|fuel IH]; intros n since orders r;
        cbn [fetch_orders_loop]; [discriminate|].
      destruct (since <? dt_now n)%Z; [|intros [= <-] e; discriminate].
      destruct (_fetch_orders n pair since) as [page|e'] eqn:Ef.
      - apply IH.
      - intros [= <-] e [= <-]. now exists n, since. }
    destruct (fetch_orders_loop_ends pair ((limit - 1) * 60000) T
                ltac:(lia) Hnow fuel 0%nat since [] Hfuel)
      as (r & Hr & Hok).
    rewrite Hr. destruct r as [orders|e].
    + eexists. split; [reflexivity|]. split; [discriminate|].
      split; [|reflexivity]. intros o [= <-]. apply unique_by_id_NoDup.
    + eexists. split; [reflexivity|]. split; [|split].
      * apply (Hraise _ _ _ _ _ Hr).
      * discriminate.
      * exact Hok.
Qed.

End FetchOrdersFacts.

Section FetchOrdersScenario.

(** Two windows of 9 minutes over a clock that stands at 15 minutes:
    order 1 is listed in both windows and returned once, as last seen. *)
Lemma fetch_orders_windowed_scenario :
  fetch_orders scenario_order_pages (fun _ => 900000%Z) 3 live_venue
    (Some 10%Z) "BTC/USDT" 0
  = Some (Ok [order_with_id "1" "closed"; order_with_id "2" "closed"]).
Proof.
  destruct (fetch_orders_windowed scenario_order_pages (fun _ => 900000%Z)
              live_venue 10 "BTC/USDT" 0 900000 2) as (_ & Hlive).
  destruct Hlive as (r & Hr & _); [reflexivity | lia | lia | lia |].
  rewrite Hr. revert Hr. vm_compute. now intros [= <-].
Defined.

(** The latest of two answers for order 1 is the one kept. *)
Lemma unique_by_id_keeps_last_scenario :
  In (order_with_id "1" "closed")
     (unique_by_id [order_with_id "1" "open"; order_with_id "2" "closed";
                    order_with_id "1" "closed"]).
Proof.
  apply (unique_by_id_keeps_last
           [order_with_id "1" "open"; order_with_id "2" "closed";
            order_with_id "1" "closed"]).
  exists [order_with_id "1" "open"; order_with_id "2" "closed"], [].
  split; [reflexivity|]. intros o [].
Defined.

End FetchOrdersScenario.

(** ** Funding fees: splitting the period and scaling the position *)

Section FundingFeeAlgebra.

Lemma calculate_funding_fees_Qsum (df : list FundingMarkRow) (amount : Q)
    (is_short : bool) (open_date close_date : Z) :
  calculate_funding_fees df amount is_short open_date close_date
  == (if is_short then 1 else - (1))
     * Qsum (map (fun r => open_fund r * open_mark r * amount)
               (List.filter
                  (fun r =>
                     (open_date <=? row_date r)%Z
                     && (row_date r <=? close_date)%Z)
                  df)).
Proof.
  unfold calculate_funding_fees.
  destruct df as [|r df].
  - destruct is_short; cbn; ring.
  - destruct is_short; rewrite sum_Qsum; ring.
Qed.

Lemma Qsum_filter_split (f : FundingMarkRow -> Q) (a b c : Z)
    (df : list FundingMarkRow) :
  (a - 1 <= b <= c)%Z ->
  Qsum (map f (List.filter
                 (fun r => (a <=? row_date r)%Z && (row_date r <=? c)%Z) df))
  == Qsum (map f (List.filter
                    (fun r => (a <=? row_date r)%Z && (row_date r <=? b)%Z)
                    df))
     + Qsum (map f (List.filter
                      (fun r =>
                         (b + 1 <=? row_date r)%Z && (row_date r <=? c)%Z)
                      df)).
Proof.
  intros Habc. induction df as [|r df IH]; [reflexivity|].
  cbn [List.filter].
  destruct (Z_le_gt_dec a (row_date r)) as [Ha|Ha];
    destruct (Z_le_gt_dec (row_date r) b) as [Hb|Hb];
    destruct (Z_le_gt_dec (row_date r) c) as [Hc|Hc];
    try lia;
    repeat match goal with
           | |- context [(?x <=? ?y)%Z] =>
               first [ replace (x <=? y)%Z with true by lia
                     | replace (x <=? y)%Z with false by lia ]
           end;
    cbn [andb map]; rewrite ?Qsum_cons, IH; ring.
Qed.

Lemma Qsum_map_scale {A} (f : A -> Q) (k : Q) (l : list A) :
  Qsum (map (fun x => f x * k) l) == k * Qsum (map f l).
Proof.
  induction l as [|x l IH]; [cbn; ring|].
  cbn [map]. rewrite !Qsum_cons, IH. ring.
Qed.

(** X26. Funding fees add up over a split of the holding period: for
    dates [a - 1 <= b <= c] the fee of [a, c] is the fee of [a, b] plus
    the fee of [b + 1, c].  They are proportional to the amount, and a
    long pays what a short of the same size receives. *)
Theorem funding_fees_split_and_scale (df : list FundingMarkRow)
    (amount factor : Q) (is_short : bool) (a b c : Z) :
  (a - 1 <= b <= c)%Z ->
  calculate_funding_fees df amount is_short a c
  == calculate_funding_fees df amount is_short a b
     + calculate_funding_fees df amount is_short (b + 1) c
  /\ calculate_funding_fees df (factor * amount) is_short a c
     == factor * calculate_funding_fees df amount is_short a c
  /\ calculate_funding_fees df amount false a c
     == - calculate_funding_fees df amount true a c.
Proof.
  intros Habc. rewrite !calculate_funding_fees_Qsum. split; [|split].
  - rewrite (Qsum_filter_split _ a b c df Habc). ring.
  - set (rows := List.filter _ df).
    rewrite (Qsum_map_ext
               (fun r => open_fund r * open_mark r * (factor * amount))
               (fun r => open_fund r * open_mark r * amount * factor))
      by (intros r; ring).
    rewrite (Qsum_map_scale
               (fun r => open_fund r * open_mark r * amount) factor rows).
    ring.
  - ring.
Qed.

End FundingFeeAlgebra.

Section FundingFeeAlgebraScenario.

(** The fee over hours 0 to 16 is the fee over 0 to 8 plus the fee over
    9 to 16. *)
Lemma funding_fees_split_scenario :
  calculate_funding_fees
    (combine_funding_and_mark scenario_funding scenario_mark None) 2 true 0
    16
  == calculate_funding_fees
       (combine_funding_and_mark scenario_funding scenario_mark None) 2 true
       0 8
     + calculate_funding_fees
         (combine_funding_and_mark scenario_funding scenario_mark None) 2
         true 9 16.
Proof.
  apply (funding_fees_split_and_scale
           (combine_funding_and_mark scenario_funding scenario_mark None) 2 1
           true 0 8 16).
  lia.
Defined.

End FundingFeeAlgebraScenario.

(** ** Cancelling with a result *)

Section CancelWithResultFacts.

Variable order_by_id : string -> option CcxtOrder.
Variable cancel_order_live : string -> string -> result CcxtOrder.
Variable fetch_order_live : string -> string -> result CcxtOrder.

(** X27. [cancel_order_with_result] never raises
    [InvalidOrderException].  In dry-run an id known neither to the store
    nor to the database gives the made-up canceled order with the amount
    passed in and leaves the store as it is.  A stored open limit order
    whose price the book has not crossed is canceled and stored so; when
    it carries no fee it is fetched once more against the book of that
    moment: not crossed, it comes back canceled with nothing filled;
    crossed by then, the order canceled a moment ago comes back closed,
    filled with its whole amount and charged the maker fee. *)
Theorem cancel_order_with_result_dry_run (self_at : nat -> Exchange)
    (store : gmap string CcxtOrder) (order_id pair : string) (amount : Q) :
  let outcome :=
    cancel_order_with_result order_by_id cancel_order_live fetch_order_live
      self_at store order_id pair amount in
  let crossed_at n order :=
    _dry_is_price_crossed (self_at n) (symbol order) (Exchange.side order)
      (Exchange.price order) None 0 in
  fst outcome <> Raise InvalidOrderException
  /\ (dry_run (self_at 0%nat) = true -> dry_run (self_at 1%nat) = true ->
      store !! order_id = None -> order_by_id order_id = None ->
      outcome = (Ok (fake_order order_id amount), store))
  /\ (forall order,
        dry_run (self_at 0%nat) = true -> dry_run (self_at 1%nat) = true ->
        store !! order_id = Some order ->
        status order <> "closed"%string ->
        order_type order = "limit"%string ->
        ft_order_type order = None ->
        crossed_at 0%nat order = Ok false ->
        (is_Some (fee order) ->
         outcome
         = (Ok (real_order (canceled order)),
            <[order_id := canceled order]> store))
        /\ (fee order = None -> crossed_at 1%nat order = Ok false ->
            outcome
            = (Ok (real_order (canceled order)),
               <[order_id := canceled order]> store)
            /\ status (canceled order) = "canceled"%string
            /\ filled (canceled order) = 0
            /\ remaining (canceled order) = Exchange.amount order)
        /\ (forall rate_maker,
              fee order = None -> crossed_at 1%nat order = Ok true ->
              get_fee (self_at 1%nat) (symbol order) maker = Ok rate_maker ->
              exists order',
                outcome
                = (Ok (real_order order'),
                   <[order_id := order']>
                     (<[order_id := canceled order]> store))
                /\ status order' = "closed"%string
                /\ filled order' = Exchange.amount order
                /\ remaining order' = 0
                /\ id_ order' = id_ order
                /\ option_map fee_rate (fee order') = Some rate_maker)).
Proof.
  intros outcome crossed_at. subst outcome crossed_at.
  unfold cancel_order_with_result.
  split; [|split].
  - assert (forall st,
              fst (match fetch_order order_by_id fetch_order_live
                           (self_at 1%nat) st order_id pair with
                   | (Ok order, store) => (Ok (real_order order), store)
                   | (Raise InvalidOrderException, store) =>
                       (Ok (fake_order order_id amount), store)
                   | (Raise e, store) => (Raise e, store)
                   end) <> Raise InvalidOrderException) as Hsecond.
    { intros st0.
      destruct (fetch_order order_by_id fetch_order_live (self_at 1%nat) st0
                  order_id pair) as [[o|e0] st']; [discriminate|].
      destruct e0; discriminate. }
    destruct (cancel_order order_by_id cancel_order_live (self_at 0%nat)
                store order_id pair) as [[[corder|]|e] st].
    + destruct (is_cancel_order_result_suitable (Some corder));
        [discriminate | apply Hsecond].
    + apply Hsecond.
    + destruct e; try discriminate. apply Hsecond.
  - intros Hdry0 Hdry1 Hs Hdb. unfold cancel_order, fetch_order.
    rewrite Hdry0, Hdry1.
    destruct (fetch_dry_run_order_plain_cases order_by_id (self_at 0%nat)
                store order_id) as (_ & Hunknown0).
    destruct (fetch_dry_run_order_plain_cases order_by_id (self_at 1%nat)
                store order_id) as (_ & Hunknown1).
    rewrite (Hunknown0 Hs Hdb). now rewrite (Hunknown1 Hs Hdb).
  - intros order Hdry0 Hdry1 Hs Hopen Htype Hft Hcross0.
    unfold cancel_order, fetch_order. rewrite Hdry0, Hdry1.
    rewrite (fetch_dry_run_order_open_limit order_by_id (self_at 0%nat)
               store order_id order Hs Hopen Htype Hft), Hcross0.
    cbn [is_cancel_order_result_suitable canceled fee].
    assert (fetch_dry_run_order order_by_id (self_at 1%nat)
              (<[order_id := canceled order]> store) order_id
            = match
                _dry_is_price_crossed (self_at 1%nat) (symbol order)
                  (Exchange.side order) (Exchange.price order) None 0
              with
              | Ok true =>
                  match add_dry_order_fee (self_at 1%nat) (symbol order)
                          (closed_in_place (canceled order)) maker with
                  | Ok order' =>
                      (Ok order',
                       <[order_id := order']>
                         (<[order_id := canceled order]> store))
                  | Raise e =>
                      let store' :=
                        <[order_id := closed_in_place (canceled order)]>
                          (<[order_id := canceled order]> store) in
                      match e with
                      | KeyError =>
                          match order_by_id order_id with
                          | Some ccxt_order =>
                              (Ok ccxt_order,
                               <[order_id := ccxt_order]> store')
                          | None => (Raise InvalidOrderException, store')
                          end
                      | _ => (Raise e, store')
                      end
                  end
              | Ok false =>
                  (Ok (canceled order), <[order_id := canceled order]> store)
              | Raise e =>
                  match e with
                  | KeyError =>
                      match order_by_id order_id with
                      | Some ccxt_order =>
                          (Ok ccxt_order,
                           <[order_id := ccxt_order]>
                             (<[order_id := canceled order]> store))
                      | None =>
                          (Raise InvalidOrderException,
                           <[order_id := canceled order]> store)
                      end
                  | _ => (Raise e, <[order_id := canceled order]> store)
                  end
              end) as Hsecond.
    { rewrite (fetch_dry_run_order_open_limit order_by_id (self_at 1%nat)
                 (<[order_id := canceled order]> store) order_id
                 (canceled order));
        [reflexivity | apply lookup_insert_eq | discriminate | exact Htype
        | exact Hft]. }
    split; [|split].
    + intros Hfee. now rewrite (bool_decide_eq_true_2 _ Hfee).
    + intros Hfee Hcross1. split; [|now repeat split].
      rewrite Hfee.
      rewrite bool_decide_eq_false_2 by (intros [x Hx]; discriminate).
      now rewrite Hsecond, Hcross1.
    + intros rate_maker Hfee Hcross1 Hrate.
      rewrite Hfee.
      rewrite bool_decide_eq_false_2 by (intros [x Hx]; discriminate).
      rewrite Hsecond, Hcross1. unfold add_dry_order_fee.
      cbn [symbol closed_in_place canceled]. rewrite Hrate.
      cbn [mbind result_bind].
      eexists. split; [reflexivity|]. cbn. now repeat split.
Qed.

End CancelWithResultFacts.

Section CancelWithResultScenario.

(** The stored limit buy at 9.5 rests below the best ask of 10 when it is
    canceled; by the second fetch the best ask is 9 and the order comes
    back closed and filled. *)
Lemma cancel_order_with_result_scenario :
  exists order',
    cancel_order_with_result (fun _ => None)
      (fun _ _ => Raise OperationalException)
      (fun _ _ => Raise OperationalException) spot_venue_at
      scenario_resting_store "dry_run_buy_BTC/USDT_1.0" "BTC/USDT" 3
    = (Ok (real_order order'),
       <[ "dry_run_buy_BTC/USDT_1.0"%string := order' ]>
         (<[ "dry_run_buy_BTC/USDT_1.0"%string
             := canceled scenario_resting_limit ]> scenario_resting_store))
    /\ status order' = "closed"%string
    /\ filled order' = 3.
Proof.
  destruct (cancel_order_with_result_dry_run (fun _ => None)
              (fun _ _ => Raise OperationalException)
              (fun _ _ => Raise OperationalException) spot_venue_at
              scenario_resting_store "dry_run_buy_BTC/USDT_1.0" "BTC/USDT" 3)
    as (_ & _ & Hopen).
  destruct (Hopen scenario_resting_limit) as (_ & _ & Hfilled);
    try reflexivity; [discriminate|].
  destruct (Hfilled (5 # 10000)) as (order' & Hout & Hst & Hfl & _);
    try reflexivity.
  exists order'. split; [exact Hout|]. split; [exact Hst | exact Hfl].
Defined.

End CancelWithResultScenario.

(** ** Fee rates derived from an order's fee *)

Section FeeRateFacts.

Variable round_ : Q -> Z -> Q.
Variable get_conversion_rate : string -> string -> result (option Q).
Variable stake_currency : string.
Variable unknown_fee_rate : option Q.

Lemma truediv_nonzero (a b : Q) : ~ b == 0 -> truediv a b = Ok (a / b).
Proof.
  intros H. unfold truediv. apply eqb_neq in H. now rewrite H.
Qed.

Lemma truthy_true (x : Q) : truthy x = true -> ~ x == 0.
Proof.
  unfold truthy. intros H. apply negb_true_iff in H. now apply eqb_neq.
Qed.

(** X28. [calculate_fee_rate] returns a rate the venue gave as it is.
    Otherwise it divides by zero in one case only: a fee in the pair's
    base currency on an order of amount zero raises [ZeroDivisionError].
    A fee in another currency with a cost that is missing or zero gives
    [None], and a fee in the quote currency with a non-zero cost gives the
    fee cost over the order cost, rounded to 8 digits. *)
Theorem calculate_fee_rate_division (self : Exchange) (fee : Fees.FeeDict)
    (symbol : string) (cost : option Q) (amount : Q) :
  let base_currency := Fees.get_pair_base_currency self symbol in
  let rate :=
    Fees.calculate_fee_rate round_ get_conversion_rate stake_currency
      unknown_fee_rate self fee symbol cost amount in
  (forall given, Fees.fd_rate fee = Some given -> rate = Ok (Some given))
  /\ ((forall coin currency,
         get_conversion_rate coin currency <> Raise ZeroDivisionError) ->
      (rate = Raise ZeroDivisionError
       <-> Fees.fd_rate fee = None
           /\ Fees.fd_currency fee = Some base_currency
           /\ amount == 0))
  /\ (forall fee_curr,
        Fees.fd_rate fee = None -> Fees.fd_currency fee = Some fee_curr ->
        fee_curr <> base_currency ->
        (cost = None \/ exists c, cost = Some c /\ c == 0) ->
        rate = Ok None)
  /\ (forall c,
        Fees.fd_rate fee = None ->
        Fees.fd_currency fee = Some (get_pair_quote_currency self symbol) ->
        get_pair_quote_currency self symbol <> base_currency ->
        cost = Some c -> ~ c == 0 ->
        rate = Ok (Some (round_ (Fees.fd_cost fee / c) 8))).
Proof.
  intros base_currency rate. subst rate. unfold Fees.calculate_fee_rate.
  fold base_currency. split; [|split; [|split]].
  - intros given ->. reflexivity.
  - intros Hconv. split.
    + destruct (Fees.fd_rate fee) as [given|]; [discriminate|].
      destruct (Fees.fd_currency fee) as [fee_curr|]; [|discriminate].
      destruct (String.eqb_spec fee_curr base_currency) as [-> | Hbase].
      * unfold truediv. destruct (eqb amount 0) eqn:Ea; [|discriminate].
        intros _. repeat split. now apply Qeq_bool_iff.
      * destruct (String.eqb fee_curr (get_pair_quote_currency self symbol)).
        -- destruct cost as [c|]; [|discriminate].
           destruct (truthy c) eqn:Ec; [|discriminate].
           rewrite (truediv_nonzero _ c (truthy_true c Ec)). discriminate.
        -- destruct cost as [c|]; [|discriminate].
           destruct (truthy c) eqn:Ec; [|discriminate].
           specialize (Hconv fee_curr stake_currency).
           destruct (get_conversion_rate fee_curr stake_currency)
             as [[r|]|e].
           ++ destruct (truthy r); cbn [mbind result_bind].
              ** rewrite (truediv_nonzero _ c (truthy_true c Ec)).
                 discriminate.
              ** destruct (match unknown_fee_rate with
                           | Some r0 => if truthy r0 then Some r0 else None
                           | None => None
                           end); [|discriminate].
                 rewrite (truediv_nonzero _ c (truthy_true c Ec)).
                 discriminate.
           ++ cbn [mbind result_bind].
              destruct (match unknown_fee_rate with
                        | Some r0 => if truthy r0 then Some r0 else None
                        | None => None
                        end); [|discriminate].
              rewrite (truediv_nonzero _ c (truthy_true c Ec)).
              discriminate.
           ++ destruct e; cbn [mbind result_bind]; try discriminate;
                try (now destruct Hconv);
                destruct (match unknown_fee_rate with
                          | Some r0 => if truthy r0 then Some r0 else None
                          | None => None
                          end); try discriminate;
                rewrite (truediv_nonzero _ c (truthy_true c Ec));
                discriminate.
    + intros (-> & -> & Hzero). rewrite String.eqb_refl.
      unfold truediv. apply Qeq_bool_iff in Hzero. unfold eqb.
      now rewrite Hzero.
  - intros fee_curr -> -> Hbase Hcost. apply String.eqb_neq in Hbase.
    rewrite Hbase.
    assert (forall c, c == 0 -> truthy c = false) as Hfalsy.
    { intros c Hc. unfold truthy, eqb. apply Qeq_bool_iff in Hc.
      now rewrite Hc. }
    destruct Hcost as [-> | (c & -> & Hc)]; [|rewrite (Hfalsy c Hc)];
      destruct (String.eqb fee_curr (get_pair_quote_currency self symbol));
      reflexivity.
  - intros c -> -> Hbase -> Hc. apply String.eqb_neq in Hbase.
    rewrite Hbase, String.eqb_refl, (truthy_nonzero c Hc).
    now rewrite (truediv_nonzero _ c Hc).
Qed.

End FeeRateFacts.

Section FeeRateScenario.

(** A fee of 0.033 USDT on a cost of 33 USDT is a rate of 0.001. *)
Lemma calculate_fee_rate_scenario :
  Fees.calculate_fee_rate (fun q _ => q) (fun _ _ => Ok None) "USDT" None
    (spot_venue scenario_book)
    {| Fees.fd_rate := None; Fees.fd_currency := Some "USDT"%string;
       Fees.fd_cost := 33 # 1000 |}
    "BTC/USDT" (Some 33) 3
  = Ok (Some ((33 # 1000) / 33)).
Proof.
  destruct (calculate_fee_rate_division (fun q _ => q) (fun _ _ => Ok None)
              "USDT" None (spot_venue scenario_book)
              {| Fees.fd_rate := None; Fees.fd_currency := Some "USDT"%string;
                 Fees.fd_cost := 33 # 1000 |}
              "BTC/USDT" (Some 33) 3) as (_ & _ & _ & Hquote).
  apply (Hquote 33); try reflexivity; discriminate.
Defined.

End FeeRateScenario.

(** ** Further scenarios *)

Section FurtherScenarios.

(** An id nobody knows raises [InvalidOrderException]. *)
Lemma fetch_dry_run_order_unknown_scenario :
  fetch_dry_run_order (fun _ => None) (spot_venue scenario_book)
    scenario_store "unknown"
  = (Raise InvalidOrderException, scenario_store).
Proof.
  destruct (fetch_dry_run_order_settled_or_unknown (fun _ => None)
              (spot_venue scenario_book) scenario_store "unknown")
    as (_ & Hunknown & _).
  apply Hunknown; reflexivity.
Defined.

(** A sell stoploss resting at 9 is to be moved for a wanted stop of 9.5
    and left alone for a wanted stop of 9. *)
Lemma stoploss_adjust_scenario :
  stoploss_adjust (spot_venue scenario_book) (Some true) 9
    (fresh_dry_order contracts_to_amount_spec amount_to_contracts_spec
       amount_to_precision_decimal (spot_venue scenario_book) 0 "0.0"
       "BTC/USDT" "limit" "sell" 3 9 true)
    "sell"
  = Ok false.
Proof.
  destruct (stoploss_adjust_against_stop (spot_venue scenario_book)
              (Some true) 9
              (fresh_dry_order contracts_to_amount_spec
                 amount_to_contracts_spec amount_to_precision_decimal
                 (spot_venue scenario_book) 0 "0.0" "BTC/USDT" "limit" "sell"
                 3 9 true)
              "sell") as (_ & Hsupported).
  destruct (Hsupported eq_refl) as (_ & Hstop).
  destruct (Hstop 9 eq_refl) as (adjust & -> & _ & _ & _ & Hequal).
  now rewrite Hequal.
Defined.

(** Exiting a short on the other side is an ask. *)
Lemma get_price_side_scenario :
  _get_price_side "exit" true
    {| price_side := Some "other"%string; use_order_book := None;
       order_book_top := None; price_last_balance := None |}
  = Ok "ask"%string.
Proof.
  destruct (get_price_side_parity "exit" true
              {| price_side := Some "other"%string; use_order_book := None;
                 order_book_top := None; price_last_balance := None |})
    as (Hparity & _).
  destruct (Hparity "other"%string eq_refl (or_intror eq_refl)) as (H & _).
  apply H. now right.
Defined.

End FurtherScenarios.
